(** * AgriSmart.AI animal-detection services: a shallow embedding

    The repository carries three variants of one periodic detection
    pipeline, all exporting a singleton service object:

    - [AnimalDetectionService]     (YOLO post-processing, IoU, NMS),
    - [RealAnimalDetectionService] (motion / shape / colour / texture
      heuristics),
    - [SimpleRealDetection]        (the variant wired to the HTTP routes:
      multi-endpoint frame fetch, brightness analysis, cooldown gate).

    JavaScript numbers are modelled as exact rationals [Q]: every
    arithmetic operator is the exact one, IEEE-754 rounding, NaN and the
    infinities are abstracted away.  Numeric equalities are therefore
    stated with [==] ([Qeq]).  Where the value of a computation itself is
    at stake -- what calculateIoU returns -- the function is given again
    on binary64 numbers (module [Double]).  What lies outside the
    services ([axios], [sharp], [Date], [Math.random], the timer runtime,
    subscriber functions) is an explicit input of the operation that
    consults it.  Async methods are given twice: run to completion, and
    split at their [await]s for the properties that depend on what can
    happen in between.  *)

From Stdlib Require Import QArith Qminmax Qabs Lqa ZArith List String.
From Stdlib Require Import Floats.SpecFloat.
From Stdlib Require Import Sorting.Sorted Sorting.Permutation.
From stdpp Require Import base gmap list strings sorting.

Open Scope Q_scope.

(* ===================================================================== *)
(** * JavaScript numbers and control flow                                 *)
(* ===================================================================== *)

Module JS.

(** The relational operators [<], [>], [<=], [>=] on numbers. *)
Definition lt (a b : Q) : bool :=
  match a ?= b with Lt => true | _ => false end.
Definition gt (a b : Q) : bool := lt b a.
Definition le (a b : Q) : bool := Qle_bool a b.
Definition ge (a b : Q) : bool := Qle_bool b a.

Definition Math_max (a b : Q) : Q := Qmax a b.
Definition Math_min (a b : Q) : Q := Qmin a b.
Definition Math_abs (a : Q) : Q := Qabs a.

(** [v || 0] on a possibly missing number. *)
Definition or_zero (v : option Q) : Q := default 0 v.

(** Outcome of running a statement or a call: it returns normally or
    throws an [Error] carrying a message. *)
Inductive Completion (A : Type) : Type :=
| Returned (a : A)
| Threw (message : string).
Arguments Returned {A} a.
Arguments Threw {A} message.

(** Stable [Array.prototype.sort] with a numeric comparator: [a] stays in
    front of [b] when [cmp a b <= 0].  [insert_sorted] places an element
    that preceded the (already sorted) rest of the array. *)
Fixpoint insert_sorted {A} (cmp : A → A → Q) (a : A) (l : list A) : list A :=
  match l with
  | [] => [a]
  | b :: l' => if le (cmp a b) 0 then a :: l else b :: insert_sorted cmp a l'
  end.

Definition Array_sort {A} (cmp : A → A → Q) (l : list A) : list A :=
  foldr (insert_sorted cmp) [] l.

End JS.

(* ===================================================================== *)
(** * Data model shared by the three services                             *)
(* ===================================================================== *)

Record BoundingBox : Type := mkBBox {
  x : Q;
  y : Q;
  width : Q;
  height : Q
}.

Record Detection : Type := mkDetection {
  class : string;
  confidence : Q;
  bbox : BoundingBox;
  timestamp : string
}.

(** The BoundingBox invariant of the data model. *)
Definition bbox_in_unit_square (b : BoundingBox) : Prop :=
  0 <= x b ∧ 0 <= y b ∧ x b + width b <= 1 ∧ y b + height b <= 1.

(** An HTTP response as [axios] delivers it: status code and body bytes. *)
Record Response : Type := mkResponse {
  status : Z;
  data : list Z
}.

(** [axios.get]: the promise resolves with a response or rejects with an
    error message. *)
Definition Http : Type := string → string + Response.

(** A [Math.random()] draw lies in [0, 1). *)
Definition unit_draw (r : Q) : Prop := 0 <= r ∧ r < 1.

(** The timer runtime: [setInterval] hands out fresh handles and remembers
    the period each active timer was created with; [clearInterval] forgets
    the timer. *)
Record Timers : Type := mkTimers {
  next_handle : nat;
  active : gmap nat Z
}.

Definition no_timers : Timers := {| next_handle := 1; active := ∅ |}.

Definition setInterval (period : Z) (t : Timers) : nat * Timers :=
  (next_handle t,
   {| next_handle := S (next_handle t);
      active := <[next_handle t := period]> (active t) |}).

Definition clearInterval (h : nat) (t : Timers) : Timers :=
  {| next_handle := next_handle t; active := delete h (active t) |}.

(** The object literal [{ success, message }] returned by start and stop. *)
Record Outcome : Type := mkOutcome {
  success : bool;
  message : string
}.

(** What a subscriber throws can be any JavaScript value.  The services
    only ever evaluate [error.message] on it; [thrown_message] is the
    completion of that evaluation: the message for an [Error] (or whatever
    the property read gives for another value), a TypeError for [null] and
    [undefined], whatever a throwing accessor throws. *)
Record Thrown : Type := mkThrown {
  thrown_message : JS.Completion string
}.

(** [throw new Error(msg)] and [throw null]. *)
Definition thrown_Error (msg : string) : Thrown :=
  {| thrown_message := JS.Returned msg |}.

Definition thrown_null : Thrown :=
  {| thrown_message :=
       JS.Threw "Cannot read properties of null (reading 'message')" |}.

(** How a call of a subscriber ends. *)
Inductive Reaction : Type :=
| Returns
| Throws (error : Thrown).

(** A subscriber: a function object (identified by [cb_id]) that returns or
    throws when called with the detection list. *)
Record Callback : Type := mkCallback {
  cb_id : nat;
  cb_call : list Detection → Reaction
}.

(** The argument of [updateSettings]: absent keys are [None]. *)
Record Settings : Type := mkSettings {
  set_cameraUrl : option string;
  set_detectionInterval : option Z
}.

(** Truthiness of an optional string / number key. *)
Definition truthy_string (v : option string) : option string :=
  match v with
  | Some s => if decide (s = EmptyString) then None else Some s
  | None => None
  end.

Definition truthy_number (v : option Z) : option Z :=
  match v with
  | Some n => if decide (n = 0%Z) then None else Some n
  | None => None
  end.

(** What [sharp] reports about an image: [metadata()] and [stats()]. *)
Record ChannelStats : Type := mkChannelStats {
  mean : Q;
  stdev : Q
}.

Record ImageInfo : Type := mkImageInfo {
  img_width : Q;
  img_height : Q;
  channels : list ChannelStats
}.

(** One call of a subscriber, as seen from outside: who was called, with
    which detection list, and how the call ended. *)
Record Call : Type := mkCall {
  call_id : nat;
  call_detections : list Detection;
  call_reaction : Reaction
}.

(** A computation that calls subscribers: the calls made so far and the
    completion. *)
Definition Calls (A : Type) : Type := list Call * JS.Completion A.

(** [callback(detections)]: the call and its end. *)
Definition invoke (detections : list Detection) (callback : Callback) : Call :=
  {| call_id := cb_id callback;
     call_detections := detections;
     call_reaction := cb_call callback detections |}.

(** [try { callback(detections) } catch (error) { console.error(...,
    error.message) }]: the catch block evaluates [error.message] for the
    log line, and a throw of that evaluation leaves the block. *)
Definition try_log (detections : list Detection) (callback : Callback) : Calls unit :=
  let call := invoke detections callback in
  ([call],
   match call_reaction call with
   | Returns => JS.Returned ()
   | Throws error =>
       match thrown_message error with
       | JS.Returned _ => JS.Returned ()
       | JS.Threw msg => JS.Threw msg
       end
   end).

(** [array.forEach(f)]: a throw out of [f] leaves the iteration. *)
Fixpoint forEach {A} (f : A → Calls unit) (l : list A) : Calls unit :=
  match l with
  | [] => ([], JS.Returned ())
  | a :: l' =>
      let '(calls, r) := f a in
      match r with
      | JS.Returned _ =>
          let '(calls', r') := forEach f l' in (calls ++ calls', r')
      | JS.Threw msg => (calls, JS.Threw msg)
      end
  end.

(* ===================================================================== *)
(** * AnimalDetectionService (model-based variant)                        *)
(* ===================================================================== *)

Module AnimalDetectionService.

(** calculateIoU(box1, box2) *)
Definition calculateIoU (box1 box2 : BoundingBox) : Q :=
  let x1 := JS.Math_max (x box1) (x box2) in
  let y1 := JS.Math_max (y box1) (y box2) in
  let x2 := JS.Math_min (x box1 + width box1) (x box2 + width box2) in
  let y2 := JS.Math_min (y box1 + height box1) (y box2 + height box2) in
  if JS.le x2 x1 || JS.le y2 y1 then 0
  else
    let intersection := (x2 - x1) * (y2 - y1) in
    let union := width box1 * height box1 + width box2 * height box2 - intersection in
    intersection / union.

(** The comparator handed to [sort]: [(a, b) => b.confidence - a.confidence]. *)
Definition by_confidence_desc (a b : Detection) : Q :=
  confidence b - confidence a.

(** Body of the inner [for (j = i + 1; ...)] loop of applyNMS. *)
Definition nms_inner (nmsThreshold : Q) (detections : list Detection) (i : nat)
    (suppressed : gset nat) (j : nat) : gset nat :=
  if decide (j ∈ suppressed) then suppressed
  else
    match detections !! i, detections !! j with
    | Some di, Some dj =>
        let iou := calculateIoU (bbox di) (bbox dj) in
        if JS.gt iou nmsThreshold then {[j]} ∪ suppressed else suppressed
    | _, _ => suppressed
    end.

(** Body of the outer [for (i = 0; ...)] loop: the state is [keep] and the
    [suppressed] index set. *)
Definition nms_outer (nmsThreshold : Q) (detections : list Detection)
    (st : list Detection * gset nat) (i : nat) : list Detection * gset nat :=
  let '(keep, suppressed) := st in
  if decide (i ∈ suppressed) then st
  else
    match detections !! i with
    | Some di =>
        (keep ++ [di],
         foldl (nms_inner nmsThreshold detections i) suppressed
               (seq (S i) (length detections - S i)))
    | None => st
    end.

(** applyNMS(detections), reading [this.nmsThreshold]. *)
Definition applyNMS (nmsThreshold : Q) (detections : list Detection)
  : list Detection :=
  if (length detections <=? 1)%nat then detections
  else
    let detections := JS.Array_sort by_confidence_desc detections in
    fst (foldl (nms_outer nmsThreshold detections) ([], ∅)
               (seq 0 (length detections))).

Record Service : Type := mkService {
  isRunning : bool;
  intervalId : option nat;
  cameraUrl : string;
  detectionInterval : Z;
  detectionCallbacks : list Callback;
  model : bool;
  inputSize : Q;
  confidenceThreshold : Q;
  nmsThreshold : Q;
  classNames : list string
}.

Definition coco_class_names : list string :=
  ["person"; "bicycle"; "car"; "motorcycle"; "airplane"; "bus"; "train"; "truck"; "boat"; "traffic light";
   "fire hydrant"; "stop sign"; "parking meter"; "bench"; "bird"; "cat"; "dog"; "horse"; "sheep"; "cow";
   "elephant"; "bear"; "zebra"; "giraffe"; "backpack"; "umbrella"; "handbag"; "tie"; "suitcase"; "frisbee";
   "skis"; "snowboard"; "sports ball"; "kite"; "baseball bat"; "baseball glove"; "skateboard"; "surfboard";
   "tennis racket"; "bottle"; "wine glass"; "cup"; "fork"; "knife"; "spoon"; "bowl"; "banana"; "apple";
   "sandwich"; "orange"; "broccoli"; "carrot"; "hot dog"; "pizza"; "donut"; "cake"; "chair"; "couch";
   "potted plant"; "bed"; "dining table"; "toilet"; "tv"; "laptop"; "mouse"; "remote"; "keyboard"; "cell phone";
   "microwave"; "oven"; "toaster"; "sink"; "refrigerator"; "book"; "clock"; "vase"; "scissors"; "teddy bear";
   "hair drier"; "toothbrush"]%string.

(** The constructor, with [IP_CAMERA_URL1] unset and the model not yet
    loaded. *)
Definition new : Service :=
  {| isRunning := false;
     intervalId := None;
     cameraUrl := "http://100.89.196.69:8080";
     detectionInterval := 2000;
     detectionCallbacks := [];
     model := false;
     inputSize := 640;
     confidenceThreshold := 0.5;
     nmsThreshold := 0.4;
     classNames := coco_class_names |}.

Definition with_isRunning (b : bool) (s : Service) : Service :=
  {| isRunning := b; intervalId := intervalId s; cameraUrl := cameraUrl s;
     detectionInterval := detectionInterval s;
     detectionCallbacks := detectionCallbacks s; model := model s;
     inputSize := inputSize s; confidenceThreshold := confidenceThreshold s;
     nmsThreshold := nmsThreshold s; classNames := classNames s |}.

Definition with_intervalId (h : option nat) (s : Service) : Service :=
  {| isRunning := isRunning s; intervalId := h; cameraUrl := cameraUrl s;
     detectionInterval := detectionInterval s;
     detectionCallbacks := detectionCallbacks s; model := model s;
     inputSize := inputSize s; confidenceThreshold := confidenceThreshold s;
     nmsThreshold := nmsThreshold s; classNames := classNames s |}.

Definition with_cameraUrl (u : string) (s : Service) : Service :=
  {| isRunning := isRunning s; intervalId := intervalId s; cameraUrl := u;
     detectionInterval := detectionInterval s;
     detectionCallbacks := detectionCallbacks s; model := model s;
     inputSize := inputSize s; confidenceThreshold := confidenceThreshold s;
     nmsThreshold := nmsThreshold s; classNames := classNames s |}.

Definition with_detectionInterval (ms : Z) (s : Service) : Service :=
  {| isRunning := isRunning s; intervalId := intervalId s; cameraUrl := cameraUrl s;
     detectionInterval := ms;
     detectionCallbacks := detectionCallbacks s; model := model s;
     inputSize := inputSize s; confidenceThreshold := confidenceThreshold s;
     nmsThreshold := nmsThreshold s; classNames := classNames s |}.

Definition with_detectionCallbacks (cbs : list Callback) (s : Service) : Service :=
  {| isRunning := isRunning s; intervalId := intervalId s; cameraUrl := cameraUrl s;
     detectionInterval := detectionInterval s;
     detectionCallbacks := cbs; model := model s;
     inputSize := inputSize s; confidenceThreshold := confidenceThreshold s;
     nmsThreshold := nmsThreshold s; classNames := classNames s |}.

Definition with_model (m : bool) (s : Service) : Service :=
  {| isRunning := isRunning s; intervalId := intervalId s; cameraUrl := cameraUrl s;
     detectionInterval := detectionInterval s;
     detectionCallbacks := detectionCallbacks s; model := m;
     inputSize := inputSize s; confidenceThreshold := confidenceThreshold s;
     nmsThreshold := nmsThreshold s; classNames := classNames s |}.

(** What a call of startDetection meets outside the service: the camera
    and whether initializeModel finds a model file it can load. *)
Record Env : Type := mkEnv {
  http : Http;
  model_loads : bool
}.

(** initializeModel(): loads the model when the file is there; every
    failure is caught inside.  The background download it may schedule
    is not part of this call. *)
Definition initializeModel (env : Env) (s : Service) : Service :=
  if model_loads env then with_model true s else s.

(** testCameraConnection() *)
Definition testCameraConnection (env : Env) (s : Service) : JS.Completion bool :=
  match http env (cameraUrl s) with
  | inr _ => JS.Returned true
  | inl msg => JS.Threw ("Camera connection failed: " ++ msg)
  end.

(** startDetection(), run until its promise settles. *)
Definition startDetection (env : Env) (st : Service * Timers)
  : Service * Timers * Outcome :=
  let '(s, timers) := st in
  if isRunning s then
    (s, timers, {| success := false; message := "Detection already running" |})
  else
    let s := with_isRunning true s in
    let s := if model s then s else initializeModel env s in
    match testCameraConnection env s with
    | JS.Threw cameraError =>
        (s, timers,
         {| success := false;
            message := "Camera connection failed: " ++ cameraError |})
    | JS.Returned _ =>
        let '(h, timers) := setInterval (detectionInterval s) timers in
        (with_intervalId (Some h) s, timers,
         {| success := true; message := "Real detection started successfully" |})
    end.

(** stopDetection() *)
Definition stopDetection (st : Service * Timers) : Service * Timers * Outcome :=
  let '(s, timers) := st in
  if negb (isRunning s) then
    (s, timers, {| success := false; message := "Detection not running" |})
  else
    let s := with_isRunning false s in
    let '(s, timers) :=
      match intervalId s with
      | Some h => (with_intervalId None s, clearInterval h timers)
      | None => (s, timers)
      end in
    (s, timers, {| success := true; message := "Detection stopped successfully" |}).

(** updateSettings(settings).  The promise of the inner startDetection is
    not awaited by the source; the state returned here is the one reached
    once that promise has settled. *)
Definition updateSettings (env : Env) (settings : Settings) (st : Service * Timers)
  : Service * Timers :=
  let '(s, timers) := st in
  let s := match truthy_string (set_cameraUrl settings) with
           | Some u => with_cameraUrl u s
           | None => s
           end in
  match truthy_number (set_detectionInterval settings) with
  | Some ms =>
      let s := with_detectionInterval ms s in
      if isRunning s then
        let '(s, timers, _) := stopDetection (s, timers) in
        let '(s, timers, _) := startDetection env (s, timers) in
        (s, timers)
      else (s, timers)
  | None => (s, timers)
  end.

(** onDetection / removeDetectionCallback *)
Definition onDetection (callback : Callback) (s : Service) : Service :=
  with_detectionCallbacks (detectionCallbacks s ++ [callback]) s.

Definition removeDetectionCallback (callback : Callback) (s : Service) : Service :=
  with_detectionCallbacks
    (filter (λ cb, cb_id cb ≠ cb_id callback) (detectionCallbacks s)) s.

(** notifyDetections(detections) *)
Definition notifyDetections (detections : list Detection) (s : Service) : Calls unit :=
  forEach (try_log detections) (detectionCallbacks s).

(** The class-score scan of one anchor record: [(maxClassScore, maxClassIndex)]
    after the [for (j = 0; j < 80; j++)] loop.  A read past the end of the
    array is [undefined], and [undefined > maxClassScore] is false. *)
Definition max_class (data : list Q) (offset : nat) : Q * Z :=
  foldl (λ (acc : Q * Z) (j : nat),
           match data !! (offset + 5 + j)%nat with
           | Some classScore =>
               if JS.gt classScore (fst acc) then (classScore, Z.of_nat j) else acc
           | None => acc
           end)
        (0, (-1)%Z) (seq 0 80).

Definition animalClasses : list Z := [20; 15; 16; 17; 18; 19; 21; 22; 23]%Z.

(** The clamped, normalised box of one anchor. *)
Definition normalized_box (inputSize bx by_ bw bh : Q) : BoundingBox :=
  let x1 := (bx - bw / 2) / inputSize in
  let y1 := (by_ - bh / 2) / inputSize in
  let width := bw / inputSize in
  let height := bh / inputSize in
  let normalizedX := JS.Math_max 0 (JS.Math_min 1 x1) in
  let normalizedY := JS.Math_max 0 (JS.Math_min 1 y1) in
  let normalizedW := JS.Math_max 0 (JS.Math_min (1 - normalizedX) width) in
  let normalizedH := JS.Math_max 0 (JS.Math_min (1 - normalizedY) height) in
  {| x := normalizedX; y := normalizedY; width := normalizedW; height := normalizedH |}.

(** One iteration of the anchor loop of postprocessResults: the
    detections array after iteration [i].  When [data[offset + 4]] is
    [undefined] the threshold test does not [continue], but the product
    [confidence * maxClassScore] is then NaN and nothing is pushed. *)
Definition decode_anchor (s : Service) (now : string) (data : list Q)
    (detections : list Detection) (i : nat) : list Detection :=
  let offset := (i * 85)%nat in
  match data !! offset, data !! (offset + 1)%nat, data !! (offset + 2)%nat,
        data !! (offset + 3)%nat, data !! (offset + 4)%nat with
  | Some bx, Some by_, Some bw, Some bh, Some conf =>
      if JS.lt conf (confidenceThreshold s) then detections
      else
        let '(maxClassScore, maxClassIndex) := max_class data offset in
        let totalConfidence := conf * maxClassScore in
        if JS.ge totalConfidence (confidenceThreshold s)
           && bool_decide (maxClassIndex ∈ animalClasses)
        then
          detections ++
            [{| class := default EmptyString (classNames s !! Z.to_nat maxClassIndex);
                confidence := totalConfidence;
                bbox := normalized_box (inputSize s) bx by_ bw bh;
                timestamp := now |}]
        else detections
  | _, _, _, _, _ => detections
  end.

(** [for (let i = 0; i < numDetections; i++)] with the fractional bound
    [numDetections = data.length / 85]: the loop body runs for every
    natural [i] below the bound; [fuel] bounds the number of tests. *)
Fixpoint anchor_loop (fuel : nat) (numDetections : Q) (body : list Detection → nat → list Detection)
    (i : nat) (detections : list Detection) : list Detection :=
  match fuel with
  | O => detections
  | S fuel' =>
      if JS.lt (inject_Z (Z.of_nat i)) numDetections
      then anchor_loop fuel' numDetections body (S i) (body detections i)
      else detections
  end.

(** postprocessResults(results): [output] is the data array of the
    selected output tensor, [None] when there is no valid output. *)
Definition postprocessResults (s : Service) (now : string) (output : option (list Q))
  : list Detection :=
  match output with
  | None => []
  | Some data =>
      let numDetections := inject_Z (Z.of_nat (length data)) / 85 in
      let detections :=
        anchor_loop (S (length data)) numDetections (decode_anchor s now data) 0 [] in
      applyNMS (nmsThreshold s) detections
  end.

(** enhancedImageAnalysis(imageBuffer): [info] is what sharp reports
    ([None] when it rejects the buffer); the draws are the five
    [Math.random()] results in evaluation order. *)
Definition enhancedImageAnalysis (now : string) (info : option ImageInfo)
    (r_conf r_x r_y r_w r_h : Q) : list Detection :=
  match info with
  | None => []
  | Some info =>
      let hasVariance := existsb (λ channel, JS.gt (stdev channel) 30) (channels info) in
      match channels info with
      | [] => []
      | channel0 :: _ =>
          let avgBrightness := mean channel0 in
          let isWellLit := JS.gt avgBrightness 50 && JS.lt avgBrightness 200 in
          if hasVariance && isWellLit then
            [{| class := "animal";
                confidence := 0.6 + r_conf * 0.2;
                bbox := {| x := 0.2 + r_x * 0.4;
                           y := 0.2 + r_y * 0.4;
                           width := 0.2 + r_w * 0.2;
                           height := 0.2 + r_h * 0.2 |};
                timestamp := now |}]
          else []
      end
  end.

(** What processFrame meets beyond the camera: [sharp] on the frame (for
    the fallback) and the inference, i.e. preprocessImage followed by
    [this.model.run({ images })], reduced to the data array of the output
    postprocessResults selects ([None]: no valid output; a throw: sharp or
    the runtime rejected). *)
Record Vision : Type := mkVision {
  sharp_info : list Z → option ImageInfo;
  infer : list Z → JS.Completion (option (list Q))
}.

(** detectAnimalsInFrame(imageBuffer): every throw is answered with []. *)
Definition detectAnimalsInFrame (vision : Vision) (now : string) (s : Service)
    (imageBuffer : list Z) : list Detection :=
  match infer vision imageBuffer with
  | JS.Returned results => postprocessResults s now results
  | JS.Threw _ => []
  end.

(** processFrame(): the strategy is chosen by [this.model] at each call. *)
Definition processFrame (http : Http) (vision : Vision) (now : string)
    (r_conf r_x r_y r_w r_h : Q) (s : Service) : list Detection :=
  match http (cameraUrl s) with
  | inl _ => []
  | inr response =>
      if negb (status response =? 200)%Z then []
      else if model s then detectAnimalsInFrame vision now s (data response)
      else enhancedImageAnalysis now (sharp_info vision (data response))
                                 r_conf r_x r_y r_w r_h
  end.

(** getStatus() *)
Record Status : Type := mkStatus {
  status_isRunning : bool;
  status_cameraUrl : string;
  status_detectionInterval : Z
}.

Definition getStatus (s : Service) : Status :=
  {| status_isRunning := isRunning s;
     status_cameraUrl := cameraUrl s;
     status_detectionInterval := detectionInterval s |}.

(** Calls through the methods that drive the lifecycle and the registry. *)
Inductive Op : Type :=
| OpStart (env : Env)
| OpStop
| OpUpdateSettings (env : Env) (settings : Settings)
| OpOnDetection (callback : Callback)
| OpRemoveDetectionCallback (callback : Callback).

Definition apply_op (op : Op) (st : Service * Timers) : Service * Timers :=
  match op with
  | OpStart env => (startDetection env st).1
  | OpStop => (stopDetection st).1
  | OpUpdateSettings env settings => updateSettings env settings st
  | OpOnDetection callback => (onDetection callback st.1, st.2)
  | OpRemoveDetectionCallback callback => (removeDetectionCallback callback st.1, st.2)
  end.

(** ** The service with its asynchrony

    startDetection awaits initializeModel (when no model is loaded) and
    then the camera probe; updateSettings does not await the
    startDetection it calls.  [startDetection_begin] is what runs up to
    the first [await] (the result says what the call then waits for),
    [initializeModel_settle] what the end of the model load changes, and
    [startDetection_settle] what runs once the probe has settled. *)
Inductive Phase : Type :=
| AwaitModel
| AwaitProbe.

Definition startDetection_begin (s : Service) : Service * option Phase :=
  if isRunning s then (s, None)
  else (with_isRunning true s, Some (if model s then AwaitProbe else AwaitModel)).

Definition initializeModel_settle (loads : bool) (s : Service) : Service :=
  if loads then with_model true s else s.

Definition startDetection_settle (probe : string + Response) (st : Service * Timers)
  : Service * Timers * Outcome :=
  let '(s, timers) := st in
  match probe with
  | inl msg =>
      (s, timers,
       {| success := false;
          message := "Camera connection failed: "
                     ++ ("Camera connection failed: " ++ msg) |})
  | inr _ =>
      let '(h, timers) := setInterval (detectionInterval s) timers in
      (with_intervalId (Some h) s, timers,
       {| success := true; message := "Real detection started successfully" |})
  end.

(** updateSettings(settings) up to its return: the startDetection it
    calls is left pending. *)
Definition updateSettings_call (settings : Settings) (st : Service * Timers)
  : Service * Timers * option Phase :=
  let '(s, timers) := st in
  let s := match truthy_string (set_cameraUrl settings) with
           | Some u => with_cameraUrl u s
           | None => s
           end in
  match truthy_number (set_detectionInterval settings) with
  | Some ms =>
      let s := with_detectionInterval ms s in
      if isRunning s then
        let '(s, timers, _) := stopDetection (s, timers) in
        let '(s, phase) := startDetection_begin s in
        (s, timers, phase)
      else (s, timers, None)
  | None => (s, timers, None)
  end.

(** What can happen when calls overlap: a startDetection or
    updateSettings call runs up to its return or first await, the model
    load or the probe of the [k]-th pending start settles, or a call of
    [Op] runs with nothing in between (then every await inside it
    settles before anything else happens). *)
Inductive AsyncOp : Type :=
| CallStart
| CallUpdateSettings (settings : Settings)
| ModelSettles (k : nat) (loads : bool)
| ProbeSettles (k : nat) (probe : string + Response)
| Atomic (op : Op).

(** The state carries the pending startDetection calls, oldest first. *)
Definition step_async (e : AsyncOp) (st : Service * Timers * list Phase)
  : Service * Timers * list Phase :=
  let '(s, timers, pending) := st in
  match e with
  | CallStart =>
      let '(s, phase) := startDetection_begin s in
      (s, timers, pending ++ option_list phase)
  | CallUpdateSettings settings =>
      let '(s, timers, phase) := updateSettings_call settings (s, timers) in
      (s, timers, pending ++ option_list phase)
  | ModelSettles k loads =>
      match pending !! k with
      | Some AwaitModel =>
          (initializeModel_settle loads s, timers, <[k := AwaitProbe]> pending)
      | _ => st
      end
  | ProbeSettles k probe =>
      match pending !! k with
      | Some AwaitProbe =>
          let '(s, timers, _) := startDetection_settle probe (s, timers) in
          (s, timers, delete k pending)
      | _ => st
      end
  | Atomic op =>
      let '(s, timers) := apply_op op (s, timers) in (s, timers, pending)
  end.

Definition run_async (events : list AsyncOp) (st : Service * Timers * list Phase)
  : Service * Timers * list Phase :=
  foldl (λ st e, step_async e st) st events.

End AnimalDetectionService.

(* ===================================================================== *)
(** * calculateIoU on IEEE-754 doubles                                    *)
(* ===================================================================== *)

(** The value calculateIoU returns depends on the rounding of every
    operation.  Here the function is given over binary64 numbers as the
    Standard Library specifies them ([spec_float] at precision 53, with
    round-to-nearest-even, signed zeros, infinities and NaN). *)
Module Double.

Definition double : Type := spec_float.

Definition add : double → double → double := SFadd 53 1024.
Definition sub : double → double → double := SFsub 53 1024.
Definition mul : double → double → double := SFmul 53 1024.
Definition div : double → double → double := SFdiv 53 1024.

(** [a <= b] *)
Definition le (a b : double) : bool := SFleb a b.

(** The double of an integer, and the double a decimal literal [n / d]
    denotes (for [n] and [d] that are doubles themselves the correctly
    rounded quotient is the double nearest to the literal). *)
Definition of_Z (n : Z) : double := binary_normalize 53 1024 n 0 false.
Definition decimal (n d : Z) : double := div (of_Z n) (of_Z d).

Definition zero : double := S754_zero false.
Definition one : double := of_Z 1.

(** [Math.max] and [Math.min]: NaN when an argument is NaN, and [-0]
    counts as smaller than [+0]. *)
Definition Math_max (a b : double) : double :=
  match SFcompare a b with
  | None => S754_nan
  | Some Lt => b
  | Some Gt => a
  | Some Eq =>
      match a, b with
      | S754_zero sa, S754_zero sb => S754_zero (sa && sb)
      | _, _ => a
      end
  end.

Definition Math_min (a b : double) : double :=
  match SFcompare a b with
  | None => S754_nan
  | Some Lt => a
  | Some Gt => b
  | Some Eq =>
      match a, b with
      | S754_zero sa, S754_zero sb => S754_zero (sa || sb)
      | _, _ => a
      end
  end.

Record BoundingBox : Type := mkBBox {
  x : double;
  y : double;
  width : double;
  height : double
}.

(** calculateIoU(box1, box2) *)
Definition calculateIoU (box1 box2 : BoundingBox) : double :=
  let x1 := Math_max (x box1) (x box2) in
  let y1 := Math_max (y box1) (y box2) in
  let x2 := Math_min (add (x box1) (width box1)) (add (x box2) (width box2)) in
  let y2 := Math_min (add (y box1) (height box1)) (add (y box2) (height box2)) in
  if le x2 x1 || le y2 y1 then zero
  else
    let intersection := mul (sub x2 x1) (sub y2 y1) in
    let union :=
      sub (add (mul (width box1) (height box1)) (mul (width box2) (height box2)))
          intersection in
    div intersection union.

End Double.

(* ===================================================================== *)
(** * RealAnimalDetectionService (heuristic variant)                      *)
(* ===================================================================== *)

Module RealAnimalDetectionService.

Record Service : Type := mkService {
  isRunning : bool;
  intervalId : option nat;
  cameraUrl : string;
  detectionInterval : Z;
  detectionCallbacks : list Callback;
  lastFrameData : option (list Z);
  motionThreshold : Q;
  confidenceThreshold : Q
}.

Definition new : Service :=
  {| isRunning := false;
     intervalId := None;
     cameraUrl := "http://100.89.196.69:8080";
     detectionInterval := 3000;
     detectionCallbacks := [];
     lastFrameData := None;
     motionThreshold := 0.15;
     confidenceThreshold := 0.6 |}.

Definition with_lastFrameData (frame : option (list Z)) (s : Service) : Service :=
  {| isRunning := isRunning s; intervalId := intervalId s; cameraUrl := cameraUrl s;
     detectionInterval := detectionInterval s;
     detectionCallbacks := detectionCallbacks s;
     lastFrameData := frame;
     motionThreshold := motionThreshold s;
     confidenceThreshold := confidenceThreshold s |}.

(** The [sharp] pipelines the analysis runs on an image buffer; [None]
    is a rejected promise (corrupt or unsupported image). *)
Record Sharp : Type := mkSharp {
  (* sharp(buffer).metadata() *)
  metadata : list Z → option (Q * Q);
  (* sharp(buffer).grayscale().resize(320, 240).raw().toBuffer() *)
  grayscale_320x240 : list Z → option (list Z);
  (* image.clone().grayscale().normalize().convolve({3x3 kernel}).raw().toBuffer() *)
  convolved_edges : list Z → option (list Z);
  (* image.stats() *)
  stats : list Z → option (list ChannelStats);
  (* image.clone().grayscale().raw().toBuffer() *)
  grayscale_raw : list Z → option (list Z)
}.

(** A number that may be NaN ([None]): the only NaN sources of the
    analysis are [0 / 0] on an empty raster and arithmetic on a pixel
    read past the end of the previous raster. *)
Definition Num : Type := option Q.

Definition num_add (a b : Num) : Num :=
  match a, b with Some a, Some b => Some (a + b) | _, _ => None end.

(** [count / length] for a non-negative count: [0 / 0] is NaN. *)
Definition ratio (count : Q) (len : nat) : Num :=
  match len with
  | O => None
  | S _ => Some (count / inject_Z (Z.of_nat len))
  end.

Definition num_div (a : Num) (len : nat) : Num :=
  match a with Some a => ratio a len | None => None end.

(** [v > c], false on NaN. *)
Definition num_gt (v : Num) (c : Q) : bool :=
  match v with Some v => JS.gt v c | None => false end.

Record MotionResult : Type := mkMotion {
  detected : bool;
  motion_score : Num;
  changePercentage : Num
}.

Record ShapeResult : Type := mkShape {
  shape_score : Num;
  edgeRatio : Num;
  hasComplexShapes : bool
}.

Record ColorResult : Type := mkColor {
  color_score : Num;
  isEarthyTone : bool;
  color_variance : Num
}.

Record TextureResult : Type := mkTexture {
  texture_score : Num;
  texture_variance : Num;
  hasTexture : bool
}.

(** Body of the pixel loop of detectMotion: [(totalDiff, significantChanges)]. *)
Definition motion_pixel (current previous : list Z) (acc : Num * Q) (i : nat)
  : Num * Q :=
  match current !! i with
  | None => acc
  | Some c =>
      let diff : Num :=
        match previous !! i with
        | Some p => Some (JS.Math_abs (inject_Z c - inject_Z p))
        | None => None
        end in
      (num_add (fst acc) diff,
       if num_gt diff 30 then snd acc + 1 else snd acc)
  end.

(** detectMotion(currentBuffer) *)
Definition detectMotion (sharp : Sharp) (s : Service) (currentBuffer : list Z)
  : MotionResult :=
  match lastFrameData s with
  | None => {| detected := false; motion_score := Some 0; changePercentage := None |}
  | Some lastFrame =>
      match grayscale_320x240 sharp currentBuffer,
            grayscale_320x240 sharp lastFrame with
      | Some current, Some previous =>
          let '(totalDiff, significantChanges) :=
            foldl (motion_pixel current previous) (Some 0, 0)
                  (seq 0 (length current)) in
          let avgDiff := num_div totalDiff (length current) in
          let changePercentage := ratio significantChanges (length current) in
          let motionScore :=
            match changePercentage, avgDiff with
            | Some cp, Some ad => Some (JS.Math_min 1 ((cp * 10 + ad / 255) / 2))
            | _, _ => None
            end in
          {| detected := num_gt motionScore (motionThreshold s);
             motion_score := motionScore;
             changePercentage := changePercentage |}
      | _, _ =>
          {| detected := false; motion_score := Some 0; changePercentage := None |}
      end
  end.

(** analyzeShapes(image) *)
Definition analyzeShapes (sharp : Sharp) (image : list Z) : ShapeResult :=
  match convolved_edges sharp image with
  | None => {| shape_score := Some 0; edgeRatio := None; hasComplexShapes := false |}
  | Some edges =>
      let edgeCount :=
        foldl (λ (n : Q) (e : Z), if JS.gt (inject_Z e) 100 then n + 1 else n) 0 edges in
      let edgeRatio := ratio edgeCount (length edges) in
      let shapeScore :=
        match edgeRatio with
        | Some r => Some (JS.Math_min 1 (r * 5))
        | None => None
        end in
      {| shape_score := shapeScore;
         edgeRatio := edgeRatio;
         hasComplexShapes := num_gt shapeScore 0.3 |}
  end.

(** analyzeColorPatterns(image): with fewer than three channels the read
    of [stats.channels[k].mean] throws and the catch block answers. *)
Definition analyzeColorPatterns (sharp : Sharp) (image : list Z) : ColorResult :=
  match stats sharp image with
  | Some (chR :: chG :: chB :: rest) =>
      let avgR := mean chR in
      let avgG := mean chG in
      let avgB := mean chB in
      let isEarthyTone :=
        JS.gt avgR avgG && JS.gt avgR avgB
        && JS.lt (JS.Math_abs (avgR - avgG)) 50
        && JS.lt avgB (avgR * 0.8) in
      let colorVariance :=
        foldl (λ (sum : Q) (ch : ChannelStats), sum + stdev ch) 0
              (chR :: chG :: chB :: rest) / 3 in
      let colorScore :=
        (if isEarthyTone then 0.7 else 0.3) + (colorVariance / 255) * 0.5 in
      {| color_score := Some (JS.Math_min 1 colorScore);
         isEarthyTone := isEarthyTone;
         color_variance := Some colorVariance |}
  | _ => {| color_score := Some 0; isEarthyTone := false; color_variance := None |}
  end.

(** The 5x5 patch around [(px, py)] of a raster laid out 320 pixels per
    row: the pixels whose index falls inside the buffer. *)
Definition texture_patch (gray : list Z) (py px : Z) : list Q :=
  flat_map (λ dy : Z,
    flat_map (λ dx : Z,
      let idx := ((py + dy) * 320 + (px + dx))%Z in
      if (0 <=? idx)%Z && (idx <? Z.of_nat (length gray))%Z then
        match gray !! Z.to_nat idx with
        | Some v => [inject_Z v]
        | None => []
        end
      else [])
    [-2; -1; 0; 1; 2]%Z)
  [-2; -1; 0; 1; 2]%Z.

Definition sum_list (l : list Q) : Q := foldl Qplus 0 l.

(** Sample positions [10, 30, ..., 190] of both loops of analyzeTextures. *)
Definition texture_grid : list Z := map (λ k : nat, (10 + 20 * Z.of_nat k)%Z) (seq 0 10).

(** Body of the sampling loops: [(textureVariance, samples)]. *)
Definition texture_sample (gray : list Z) (acc : Q * Q) (pos : Z * Z) : Q * Q :=
  let '(py, px) := pos in
  if (py * 320 + px <? Z.of_nat (length gray) - 320)%Z then
    let patch := texture_patch gray py px in
    match patch with
    | [] => acc
    | _ :: _ =>
        let n := inject_Z (Z.of_nat (length patch)) in
        let mean := sum_list patch / n in
        let variance :=
          foldl (λ (a b : Q), a + (b - mean) * (b - mean)) 0 patch / n in
        (fst acc + variance, snd acc + 1)
    end
  else acc.

(** analyzeTextures(image) *)
Definition analyzeTextures (sharp : Sharp) (image : list Z) : TextureResult :=
  match grayscale_raw sharp image with
  | None => {| texture_score := Some 0; texture_variance := None; hasTexture := false |}
  | Some gray =>
      let '(textureVariance, samples) :=
        foldl (texture_sample gray) (0, 0)
              (flat_map (λ py, map (λ px, (py, px)) texture_grid) texture_grid) in
      let avgTextureVariance :=
        if JS.gt samples 0 then textureVariance / samples else 0 in
      let textureScore := JS.Math_min 1 (avgTextureVariance / 1000) in
      {| texture_score := Some textureScore;
         texture_variance := Some avgTextureVariance;
         hasTexture := JS.gt textureScore 0.4 |}
  end.

Record Combined : Type := mkCombined {
  combined_confidence : Q;
  animalType : string;
  combined_bbox : BoundingBox
}.

(** combineAnalysisResults(analysis); [score || 0] reads NaN as 0.  The
    four draws are the [Math.random()] results in evaluation order. *)
Definition combineAnalysisResults (motion : MotionResult) (shapes : ShapeResult)
    (colors : ColorResult) (textures : TextureResult) (r_x r_y r_w r_h : Q)
  : Combined :=
  let combinedScore :=
    JS.or_zero (motion_score motion) * 0.4 +
    JS.or_zero (shape_score shapes) * 0.25 +
    JS.or_zero (color_score colors) * 0.2 +
    JS.or_zero (texture_score textures) * 0.15 in
  let animalType : string := "animal" in
  let animalType : string :=
    if isEarthyTone colors && num_gt (motion_score motion) 0.5
    then "large_mammal" else animalType in
  let animalType : string :=
    if hasComplexShapes shapes && isEarthyTone colors
    then "elephant" else animalType in
  {| combined_confidence := combinedScore;
     animalType := animalType;
     combined_bbox := {| x := 0.2 + r_x * 0.4;
                         y := 0.2 + r_y * 0.4;
                         width := 0.2 + r_w * 0.3;
                         height := 0.2 + r_h * 0.3 |} |}.

(** analyzeImageForAnimals(imageBuffer): the service afterwards and the
    detections.  The [analysisDetails] attached to a detection repeat the
    four scores and are not kept in [Detection]. *)
Definition analyzeImageForAnimals (sharp : Sharp) (now : string)
    (r_x r_y r_w r_h : Q) (s : Service) (imageBuffer : list Z)
  : Service * list Detection :=
  match metadata sharp imageBuffer with
  | None => (s, [])
  | Some _ =>
      let motionDetected := detectMotion sharp s imageBuffer in
      let shapeAnalysis := analyzeShapes sharp imageBuffer in
      let colorAnalysis := analyzeColorPatterns sharp imageBuffer in
      let textureAnalysis := analyzeTextures sharp imageBuffer in
      let combinedScore :=
        combineAnalysisResults motionDetected shapeAnalysis colorAnalysis
                               textureAnalysis r_x r_y r_w r_h in
      let detections :=
        if JS.gt (combined_confidence combinedScore) (confidenceThreshold s) then
          [{| class := animalType combinedScore;
              confidence := combined_confidence combinedScore;
              bbox := combined_bbox combinedScore;
              timestamp := now |}]
        else [] in
      (with_lastFrameData (Some imageBuffer) s, detections)
  end.

(** processFrameWithRealAnalysis(): every throw is answered with [] and
    leaves the service as it was. *)
Definition processFrameWithRealAnalysis (http : Http) (sharp : Sharp) (now : string)
    (r_x r_y r_w r_h : Q) (s : Service) : Service * list Detection :=
  match http (cameraUrl s) with
  | inl _ => (s, [])
  | inr response =>
      if negb (status response =? 200)%Z then (s, [])
      else analyzeImageForAnimals sharp now r_x r_y r_w r_h s (data response)
  end.

End RealAnimalDetectionService.

(* ===================================================================== *)
(** * SimpleRealDetection (the variant behind the detection routes)       *)
(* ===================================================================== *)

Module SimpleRealDetection.

Record Service : Type := mkService {
  isRunning : bool;
  intervalId : option nat;
  cameraUrl : string;
  detectionInterval : Z;
  detectionCallbacks : list Callback;
  frameCount : Z;
  lastDetection : option Z;
  lastDetectionTime : Z;
  detectionCooldown : Z
}.

Definition new : Service :=
  {| isRunning := false;
     intervalId := None;
     cameraUrl := "http://100.89.196.69:8080";
     detectionInterval := 3000;
     detectionCallbacks := [];
     frameCount := 0;
     lastDetection := None;
     lastDetectionTime := 0;
     detectionCooldown := 10000 |}.

Definition with_isRunning (b : bool) (s : Service) : Service :=
  {| isRunning := b; intervalId := intervalId s; cameraUrl := cameraUrl s;
     detectionInterval := detectionInterval s;
     detectionCallbacks := detectionCallbacks s; frameCount := frameCount s;
     lastDetection := lastDetection s; lastDetectionTime := lastDetectionTime s;
     detectionCooldown := detectionCooldown s |}.

Definition with_intervalId (h : option nat) (s : Service) : Service :=
  {| isRunning := isRunning s; intervalId := h; cameraUrl := cameraUrl s;
     detectionInterval := detectionInterval s;
     detectionCallbacks := detectionCallbacks s; frameCount := frameCount s;
     lastDetection := lastDetection s; lastDetectionTime := lastDetectionTime s;
     detectionCooldown := detectionCooldown s |}.

Definition with_cameraUrl (u : string) (s : Service) : Service :=
  {| isRunning := isRunning s; intervalId := intervalId s; cameraUrl := u;
     detectionInterval := detectionInterval s;
     detectionCallbacks := detectionCallbacks s; frameCount := frameCount s;
     lastDetection := lastDetection s; lastDetectionTime := lastDetectionTime s;
     detectionCooldown := detectionCooldown s |}.

Definition with_detectionInterval (ms : Z) (s : Service) : Service :=
  {| isRunning := isRunning s; intervalId := intervalId s; cameraUrl := cameraUrl s;
     detectionInterval := ms;
     detectionCallbacks := detectionCallbacks s; frameCount := frameCount s;
     lastDetection := lastDetection s; lastDetectionTime := lastDetectionTime s;
     detectionCooldown := detectionCooldown s |}.

Definition with_detectionCallbacks (cbs : list Callback) (s : Service) : Service :=
  {| isRunning := isRunning s; intervalId := intervalId s; cameraUrl := cameraUrl s;
     detectionInterval := detectionInterval s;
     detectionCallbacks := cbs; frameCount := frameCount s;
     lastDetection := lastDetection s; lastDetectionTime := lastDetectionTime s;
     detectionCooldown := detectionCooldown s |}.

Definition with_frameCount (n : Z) (s : Service) : Service :=
  {| isRunning := isRunning s; intervalId := intervalId s; cameraUrl := cameraUrl s;
     detectionInterval := detectionInterval s;
     detectionCallbacks := detectionCallbacks s; frameCount := n;
     lastDetection := lastDetection s; lastDetectionTime := lastDetectionTime s;
     detectionCooldown := detectionCooldown s |}.

Definition with_lastDetection (d : option Z) (s : Service) : Service :=
  {| isRunning := isRunning s; intervalId := intervalId s; cameraUrl := cameraUrl s;
     detectionInterval := detectionInterval s;
     detectionCallbacks := detectionCallbacks s; frameCount := frameCount s;
     lastDetection := d; lastDetectionTime := lastDetectionTime s;
     detectionCooldown := detectionCooldown s |}.

Definition with_lastDetectionTime (t : Z) (s : Service) : Service :=
  {| isRunning := isRunning s; intervalId := intervalId s; cameraUrl := cameraUrl s;
     detectionInterval := detectionInterval s;
     detectionCallbacks := detectionCallbacks s; frameCount := frameCount s;
     lastDetection := lastDetection s; lastDetectionTime := t;
     detectionCooldown := detectionCooldown s |}.

(** startDetection(), run until its promise settles; [http] answers the
    connectivity probe. *)
Definition startDetection (http : Http) (st : Service * Timers)
  : Service * Timers * Outcome :=
  let '(s, timers) := st in
  if isRunning s then
    (s, timers, {| success := false; message := "Detection already running" |})
  else
    let s := with_isRunning true s in
    match http (cameraUrl s) with
    | inl error =>
        (with_isRunning false s, timers,
         {| success := false; message := "Camera connection failed: " ++ error |})
    | inr testResponse =>
        let '(h, timers) := setInterval (detectionInterval s) timers in
        (with_intervalId (Some h) s, timers,
         {| success := true;
            message := "Simple real detection started successfully" |})
    end.

(** stopDetection() *)
Definition stopDetection (st : Service * Timers) : Service * Timers * Outcome :=
  let '(s, timers) := st in
  if negb (isRunning s) then
    (s, timers, {| success := false; message := "Detection not running" |})
  else
    let s := with_isRunning false s in
    let '(s, timers) :=
      match intervalId s with
      | Some h => (with_intervalId None s, clearInterval h timers)
      | None => (s, timers)
      end in
    (s, timers, {| success := true; message := "Detection stopped successfully" |}).

(** The candidate endpoints of analyzeFrame, in the order of the array
    literal. *)
Definition cameraUrls (s : Service) : list string :=
  [ cameraUrl s ++ "/shot.jpg";
    cameraUrl s ++ "/snapshot.jpg";
    cameraUrl s ++ "/image.jpg";
    cameraUrl s ++ "/capture.jpg";
    cameraUrl s ]%string.

(** [for (const url of cameraUrls) { try { response = await axios.get(url);
    break; } catch { continue; } }]: the URLs requested, in order, and
    the response if one arrived. *)
Fixpoint fetch_loop (http : Http) (urls : list string)
  : list string * option Response :=
  match urls with
  | [] => ([], None)
  | url :: rest =>
      match http url with
      | inr response => ([url], Some response)
      | inl _ =>
          let '(requested, response) := fetch_loop http rest in
          (url :: requested, response)
      end
  end.

(** The fetch part of analyzeFrame, up to the [throw]. *)
Definition fetchFrame (http : Http) (s : Service)
  : list string * JS.Completion Response :=
  let '(requested, response) := fetch_loop http (cameraUrls s) in
  (requested,
   match response with
   | Some r => JS.Returned r
   | None => JS.Threw "Could not get image from any camera endpoint"
   end).

(** The object returned by performImageAnalysis; the catch block leaves
    [brightness] and [variance] undefined. *)
Record Analysis : Type := mkAnalysis {
  hasSignificantContent : bool;
  analysis_confidence : Q;
  brightness : option Q;
  variance : option Q
}.

(** performImageAnalysis(imageBuffer): [info] is what sharp reports about
    the buffer, [r] the [Math.random()] draw. *)
Definition performImageAnalysis (info : option ImageInfo) (r : Q) : Analysis :=
  match info with
  | Some (mkImageInfo w h (channel0 :: _)) =>
      let avgBrightness := mean channel0 in
      let variance := stdev channel0 in
      let hasGoodLighting := JS.gt avgBrightness 10 && JS.lt avgBrightness 240 in
      let hasVariance := JS.gt variance 15 in
      let hasSignificantContent := hasGoodLighting && hasVariance in
      let confidence := 0.3 in
      let confidence :=
        if hasGoodLighting && JS.gt avgBrightness 50 then confidence + 0.3 else confidence in
      let confidence :=
        if hasVariance && JS.gt variance 30 then confidence + 0.3 else confidence in
      let confidence :=
        if JS.gt w 320 then confidence + 0.1 else confidence in
      let confidence :=
        if JS.lt avgBrightness 20 || JS.gt avgBrightness 200
        then confidence - 0.4 else confidence in
      let confidence := confidence + (r - 0.5) * 0.1 in
      let confidence := JS.Math_max 0.1 (JS.Math_min 0.95 confidence) in
      {| hasSignificantContent := hasSignificantContent;
         analysis_confidence := confidence;
         brightness := Some avgBrightness;
         variance := Some variance |}
  | _ =>
      {| hasSignificantContent := false; analysis_confidence := 0;
         brightness := None; variance := None |}
  end.

(** What one run of the interval callback meets outside the service. *)
Record Tick : Type := mkTick {
  tick_http : Http;                          (* the camera *)
  tick_sharp : list Z → option ImageInfo;    (* sharp on the frame *)
  tick_now : Z;                              (* Date.now() in analyzeFrame *)
  tick_iso : string;                         (* new Date().toISOString() *)
  tick_date : Z;                             (* new Date() after notifying *)
  r_conf : Q;                                (* Math.random() draws, in order *)
  r_x : Q;
  r_y : Q;
  r_w : Q;
  r_h : Q
}.

(** The cooldown gate of analyzeFrame. *)
Definition gate (s : Service) (analysis : Analysis) (now : Z) : bool :=
  let timeSinceLastDetection := (now - lastDetectionTime s)%Z in
  hasSignificantContent analysis
  && JS.gt (analysis_confidence analysis) 0.75
  && match brightness analysis with Some b => JS.gt b 50 | None => false end
  && (detectionCooldown s <? timeSinceLastDetection)%Z.

(** analyzeFrame(): the requested URLs, the service afterwards and the
    detections returned.  The outer catch turns every throw into []. *)
Definition analyzeFrame (t : Tick) (s : Service)
  : list string * Service * list Detection :=
  let '(requested, fetched) := fetchFrame (tick_http t) s in
  match fetched with
  | JS.Threw _ => (requested, s, [])
  | JS.Returned response =>
      if (Z.of_nat (length (data response)) <? 1000)%Z then (requested, s, [])
      else
        let imageBuffer := data response in
        let analysis := performImageAnalysis (tick_sharp t imageBuffer) (r_conf t) in
        let now := tick_now t in
        if gate s analysis now then
          let detection :=
            {| class := "elephant";
               confidence := analysis_confidence analysis;
               bbox := {| x := 0.25 + r_x t * 0.3;
                          y := 0.25 + r_y t * 0.3;
                          width := 0.2 + r_w t * 0.25;
                          height := 0.2 + r_h t * 0.25 |};
               timestamp := tick_iso t |} in
          (requested, with_lastDetectionTime now s, [detection])
        else (requested, s, [])
  end.

(** notifyDetections(detections) *)
Definition notifyDetections (detections : list Detection) (s : Service) : Calls unit :=
  forEach (try_log detections) (detectionCallbacks s).

(** A detection list handed to the subscribers, stamped with the
    [Date.now()] reading of the tick that produced it. *)
Record Publication : Type := mkPublication {
  pub_time : Z;
  pub_detections : list Detection;
  pub_calls : list Call
}.

(** The interval callback installed by startDetection.  A throw out of
    notifyDetections skips the assignment of [lastDetection] and is
    logged by the callback's own catch. *)
Definition interval_callback (t : Tick) (s : Service)
  : Service * list Publication :=
  let s := with_frameCount (frameCount s + 1) s in
  let '(_, s, detections) := analyzeFrame t s in
  match detections with
  | _ :: _ =>
      let '(calls, notified) := notifyDetections detections s in
      (match notified with
       | JS.Returned _ => with_lastDetection (Some (tick_date t)) s
       | JS.Threw _ => s
       end,
       [{| pub_time := tick_now t; pub_detections := detections; pub_calls := calls |}])
  | [] => (s, [])
  end.

(** onDetection / removeDetectionCallback / updateSettings / setCameraUrl *)
Definition onDetection (callback : Callback) (s : Service) : Service :=
  with_detectionCallbacks (detectionCallbacks s ++ [callback]) s.

Definition removeDetectionCallback (callback : Callback) (s : Service) : Service :=
  with_detectionCallbacks
    (filter (λ cb, cb_id cb ≠ cb_id callback) (detectionCallbacks s)) s.

Definition updateSettings (settings : Settings) (s : Service) : Service :=
  let s := match truthy_string (set_cameraUrl settings) with
           | Some u => with_cameraUrl u s
           | None => s
           end in
  match truthy_number (set_detectionInterval settings) with
  | Some ms => with_detectionInterval ms s
  | None => s
  end.

Definition setCameraUrl (url : string) (s : Service) : Service :=
  with_cameraUrl url s.

(** What can happen to the singleton: calls through its methods and
    firings of the interval callback. *)
Inductive Event : Type :=
| Start (http : Http)
| Stop
| Fire (t : Tick)
| UpdateSettings (settings : Settings)
| SetCameraUrl (url : string)
| OnDetection (callback : Callback)
| RemoveDetectionCallback (callback : Callback).

(** One event.  A tick already in flight completes after stopDetection,
    so [Fire] is not tied to the timer being active. *)
Definition step (e : Event) (st : Service * Timers)
  : Service * Timers * list Publication :=
  let '(s, timers) := st in
  match e with
  | Start http => let '(s, timers, _) := startDetection http st in (s, timers, [])
  | Stop => let '(s, timers, _) := stopDetection st in (s, timers, [])
  | Fire t => let '(s, pubs) := interval_callback t s in (s, timers, pubs)
  | UpdateSettings settings => (updateSettings settings s, timers, [])
  | SetCameraUrl url => (setCameraUrl url s, timers, [])
  | OnDetection callback => (onDetection callback s, timers, [])
  | RemoveDetectionCallback callback =>
      (removeDetectionCallback callback s, timers, [])
  end.

(** A whole execution: the final state and everything published, oldest
    first. *)
Fixpoint run (events : list Event) (st : Service * Timers)
  : Service * Timers * list Publication :=
  match events with
  | [] => (st, [])
  | e :: events' =>
      let '(s, timers, pubs) := step e st in
      let '(st', pubs') := run events' (s, timers) in
      (st', pubs ++ pubs')
  end.

(** getStatus() *)
Record Status : Type := mkStatus {
  status_isRunning : bool;
  status_cameraUrl : string;
  status_detectionInterval : Z;
  status_frameCount : Z;
  status_lastDetection : option Z;
  status_callbackCount : nat;
  status_mode : string
}.

Definition getStatus (s : Service) : Status :=
  {| status_isRunning := isRunning s;
     status_cameraUrl := cameraUrl s;
     status_detectionInterval := detectionInterval s;
     status_frameCount := frameCount s;
     status_lastDetection := lastDetection s;
     status_callbackCount := length (detectionCallbacks s);
     status_mode := "Simple Real Detection" |}.

(** ** The service with its asynchrony

    startDetection is an async function: between [this.isRunning = true]
    and [setInterval] it awaits the camera probe, and other calls and
    ticks run while it waits.  [startDetection_begin] is what runs up to
    the [await] (the result says whether a probe was issued),
    [startDetection_settle] what runs once the probe has settled. *)
Definition startDetection_begin (s : Service) : Service * bool :=
  if isRunning s then (s, false) else (with_isRunning true s, true).

Definition startDetection_settle (probe : string + Response) (st : Service * Timers)
  : Service * Timers * Outcome :=
  let '(s, timers) := st in
  match probe with
  | inl error =>
      (with_isRunning false s, timers,
       {| success := false; message := "Camera connection failed: " ++ error |})
  | inr testResponse =>
      let '(h, timers) := setInterval (detectionInterval s) timers in
      (with_intervalId (Some h) s, timers,
       {| success := true;
          message := "Simple real detection started successfully" |})
  end.

(** What can happen to the singleton when calls overlap: a startDetection
    call runs up to its await, the probe of a pending call settles, or a
    call or tick of [Event] runs with nothing in between ([Start http] is
    then a startDetection whose probe settles before anything else
    happens; a tick touches neither [isRunning] nor the timers). *)
Inductive AsyncEvent : Type :=
| CallStart
| ProbeSettles (probe : string + Response)
| Atomic (e : Event).

(** The state carries the number of startDetection calls that wait for
    their probe. *)
Definition step_async (e : AsyncEvent) (st : Service * Timers * nat)
  : Service * Timers * nat * list Publication :=
  let '(s, timers, pending) := st in
  match e with
  | CallStart =>
      let '(s, issued) := startDetection_begin s in
      (s, timers, if issued then S pending else pending, [])
  | ProbeSettles probe =>
      match pending with
      | O => (s, timers, pending, [])
      | S pending' =>
          let '(s, timers, _) := startDetection_settle probe (s, timers) in
          (s, timers, pending', [])
      end
  | Atomic e =>
      let '(s, timers, pubs) := step e (s, timers) in (s, timers, pending, pubs)
  end.

Fixpoint run_async (events : list AsyncEvent) (st : Service * Timers * nat)
  : Service * Timers * nat * list Publication :=
  match events with
  | [] => (st, [])
  | e :: events' =>
      let '(st1, pubs) := step_async e st in
      let '(st', pubs') := run_async events' st1 in
      (st', pubs ++ pubs')
  end.

End SimpleRealDetection.

(* ===================================================================== *)
(** * The detection routes and the error middleware                       *)
(* ===================================================================== *)

Module DetectionRoutes.

(** POST /start: [req.body.cameraUrl], when truthy, is stored before
    startDetection is called; the route answers with its result. *)
Definition post_start (body_cameraUrl : option string) (http : Http)
    (st : SimpleRealDetection.Service * Timers)
  : SimpleRealDetection.Service * Timers * Outcome :=
  let '(s, timers) := st in
  let s := match truthy_string body_cameraUrl with
           | Some url => SimpleRealDetection.setCameraUrl url s
           | None => s
           end in
  SimpleRealDetection.startDetection http (s, timers).

(** POST /stop *)
Definition post_stop (st : SimpleRealDetection.Service * Timers)
  : SimpleRealDetection.Service * Timers * Outcome :=
  SimpleRealDetection.stopDetection st.

(** PUT /settings: hands [{ cameraUrl, detectionInterval }] of the body to
    updateSettings and answers success. *)
Definition put_settings (body : Settings) (st : SimpleRealDetection.Service * Timers)
  : SimpleRealDetection.Service * Timers * Outcome :=
  (SimpleRealDetection.updateSettings body st.1, st.2,
   {| success := true; message := "Detection settings updated successfully" |}).

End DetectionRoutes.

Module Middleware.

Record Request : Type := mkRequest {
  originalUrl : string;
  method : string
}.

(** [details] as notFound fills it. *)
Record Details : Type := mkDetails {
  details_path : string;
  details_method : string
}.

(** An error object as the middleware reads it; absent properties are
    [None], [expose] is read for its truthiness. *)
Record Err : Type := mkErr {
  err_message : string;
  err_statusCode : option Z;
  err_status : option Z;
  err_code : option string;
  err_expose : bool;
  err_details : option Details
}.

(** notFound(req, res, next): the error handed to [next]. *)
Definition notFound (req : Request) : Err :=
  {| err_message := "Route not found";
     err_statusCode := Some 404%Z;
     err_status := None;
     err_code := Some "NOT_FOUND"%string;
     err_expose := false;
     err_details := Some {| details_path := originalUrl req;
                            details_method := method req |} |}.

Record Body : Type := mkBody {
  body_error : string;
  body_code : string;
  body_details : option Details
}.

(** What errorHandler does: delegate to [next(err)] or answer. *)
Inductive Handled : Type :=
| Delegated (err : Err)
| Answered (statusCode : Z) (body : Body).

(** [a || b] on strings. *)
Definition or_string (a b : string) : string :=
  if decide (a = EmptyString) then b else a.

(** errorHandler(err, req, res, next) *)
Definition errorHandler (err : Err) (headersSent : bool) : Handled :=
  if headersSent then Delegated err
  else
    let statusCode :=
      match truthy_number (err_statusCode err) with
      | Some c => c
      | None => match truthy_number (err_status err) with
                | Some c => c
                | None => 500%Z
                end
      end in
    let code :=
      match truthy_string (err_code err) with
      | Some c => c
      | None => if (500 <=? statusCode)%Z then "INTERNAL_ERROR"%string
                else "REQUEST_FAILED"%string
      end in
    let message :=
      if err_expose err then or_string (err_message err) "Request failed"
      else if (500 <=? statusCode)%Z then "Internal server error"%string
           else or_string (err_message err) "Request failed" in
    Answered statusCode
      {| body_error := message; body_code := code; body_details := err_details err |}.

End Middleware.

(* ===================================================================== *)
(** * Vocabulary of the properties                                        *)
(* ===================================================================== *)

(** Descending confidence, the order applyNMS sorts by. *)
Definition confidence_desc (a b : Detection) : Prop := confidence b <= confidence a.

(** State of the outer loop of applyNMS before iteration [i]: [keep] is
    drawn in order from the first [i] candidates, its members overlap
    pairwise by at most the threshold, and so does each member with every
    later candidate that is not suppressed. *)
Definition nms_inv (nmsThreshold : Q) (detections : list Detection) (i : nat)
    (st : list Detection * gset nat) : Prop :=
  fst st `sublist_of` take i detections ∧
  (∀ p q a b, (p < q)%nat → fst st !! p = Some a → fst st !! q = Some b →
     AnimalDetectionService.calculateIoU (bbox a) (bbox b) <= nmsThreshold) ∧
  (∀ a j dj, a ∈ fst st → (i ≤ j)%nat → j ∉ snd st →
     detections !! j = Some dj →
     AnimalDetectionService.calculateIoU (bbox a) (bbox dj) <= nmsThreshold).

Definition boxes_in_unit_square (detections : list Detection) : Prop :=
  Forall (λ d, bbox_in_unit_square (bbox d)) detections.

Definition request_fails (http : Http) (url : string) : Prop :=
  ∃ error, http url = inl error.

(** Publications are further apart than the cooldown. *)
Definition spaced (cooldown : Z) (pubs : list SimpleRealDetection.Publication) : Prop :=
  ∀ i j p q, (i < j)%nat → pubs !! i = Some p → pubs !! j = Some q →
             (SimpleRealDetection.pub_time p + cooldown
              < SimpleRealDetection.pub_time q)%Z.

(** Every published detection is an elephant with confidence in (0.75, 0.95]. *)
Definition elephants (pubs : list SimpleRealDetection.Publication) : Prop :=
  ∀ p d, p ∈ pubs → d ∈ SimpleRealDetection.pub_detections p →
         class d = "elephant"%string ∧ 0.75 < confidence d ∧ confidence d <= 0.95.

(* ===================================================================== *)
(** * Scenarios                                                           *)
(* ===================================================================== *)

(** A camera scene for the heuristic service: the raster differs from the
    previous one in every pixel, every pixel is a strong edge, and the
    colour statistics are earthy. *)
Definition moving_scene : RealAnimalDetectionService.Sharp :=
  {| RealAnimalDetectionService.metadata := λ _, Some (640, 480);
     RealAnimalDetectionService.grayscale_320x240 := λ buffer, Some buffer;
     RealAnimalDetectionService.convolved_edges := λ _, Some [255%Z];
     RealAnimalDetectionService.stats := λ _,
       Some [mkChannelStats 200 100; mkChannelStats 160 100; mkChannelStats 100 100];
     RealAnimalDetectionService.grayscale_raw := λ _, None |}.

(** A scene whose raster is the same at every tick. *)
Definition still_scene : RealAnimalDetectionService.Sharp :=
  {| RealAnimalDetectionService.metadata := λ _, Some (640, 480);
     RealAnimalDetectionService.grayscale_320x240 := λ _, Some [10; 200; 30; 40]%Z;
     RealAnimalDetectionService.convolved_edges := λ _, Some [0; 255; 0; 0]%Z;
     RealAnimalDetectionService.stats := λ _,
       Some [mkChannelStats 120 20; mkChannelStats 130 20; mkChannelStats 110 20];
     RealAnimalDetectionService.grayscale_raw := λ _, Some [10; 200; 30; 40]%Z |}.

(** A camera that always answers with a 1000-byte frame, and a well-lit,
    detailed 640x480 image. *)
Definition steady_camera : Http :=
  λ _, inr {| status := 200; data := replicate 1000 0%Z |}.

Definition daylight : list Z → option ImageInfo :=
  λ _, Some (mkImageInfo 640 480 [mkChannelStats 120 40]).

Definition tick_at (now : Z) : SimpleRealDetection.Tick :=
  {| SimpleRealDetection.tick_http := steady_camera;
     SimpleRealDetection.tick_sharp := daylight;
     SimpleRealDetection.tick_now := now;
     SimpleRealDetection.tick_iso := "2023-11-14T22:13:20.000Z";
     SimpleRealDetection.tick_date := now;
     SimpleRealDetection.r_conf := 0.5;
     SimpleRealDetection.r_x := 0.5;
     SimpleRealDetection.r_y := 0.5;
     SimpleRealDetection.r_w := 0.5;
     SimpleRealDetection.r_h := 0.5 |}.

(** Three firings of the interval callback, 3 s and 12 s after the first;
    every one of them qualifies on its own. *)
Definition three_ticks : list SimpleRealDetection.Event :=
  [SimpleRealDetection.Fire (tick_at 1700000000000);
   SimpleRealDetection.Fire (tick_at 1700000003000);
   SimpleRealDetection.Fire (tick_at 1700000012000)].

(** No endpoint answers. *)
Definition dead_camera : Http := λ _, inl "timeout of 8000ms exceeded"%string.

Definition unreachable_camera : AnimalDetectionService.Env :=
  {| AnimalDetectionService.http := λ _, inl "connect ECONNREFUSED"%string;
     AnimalDetectionService.model_loads := false |}.

Definition reachable_camera : AnimalDetectionService.Env :=
  {| AnimalDetectionService.http := λ _, inr {| status := 200; data := [] |};
     AnimalDetectionService.model_loads := false |}.

(** The service of AnimalDetectionService after a successful start. *)
Definition running_service : AnimalDetectionService.Service * Timers :=
  (AnimalDetectionService.startDetection reachable_camera
     (AnimalDetectionService.new, no_timers)).1.

(** Two candidates lists for the scenarios of non-maximum suppression. *)
Definition three_candidates : list Detection :=
  [mkDetection "cow" 0.7 (mkBBox 0.5 0.5 0.25 0.25) "t";
   mkDetection "cow" 0.9 (mkBBox 0 0 0.5 0.5) "t";
   mkDetection "cow" 0.8 (mkBBox 0.05 0.05 0.5 0.5) "t"].

(** The class names behind the allow-list of postprocessResults. *)
Definition animal_names : list string :=
  ["elephant"; "cat"; "dog"; "horse"; "sheep"; "cow"; "bear"; "zebra"; "giraffe"]%string.

(** A model output of one anchor: centre (320, 320), size 128 x 128,
    objectness 0.9, class 20 scored 0.9, every other class 0. *)
Definition one_elephant_output : list Q :=
  [320; 320; 128; 128; 0.9] ++ replicate 20 0 ++ [0.9] ++ replicate 59 0.

(** A model that reports [one_elephant_output] for every frame, next to a
    sharp that rejects every frame. *)
Definition elephant_vision : AnimalDetectionService.Vision :=
  {| AnimalDetectionService.sharp_info := λ _, None;
     AnimalDetectionService.infer := λ _, JS.Returned (Some one_elephant_output) |}.

(** A detection of postprocessResults: confident enough and of an allowed
    class. *)
Definition confident_animal (s : AnimalDetectionService.Service)
    (d : Detection) : Prop :=
  AnimalDetectionService.confidenceThreshold s <= confidence d
  ∧ ∃ idx, idx ∈ AnimalDetectionService.animalClasses
           ∧ class d = default EmptyString
                         (AnimalDetectionService.classNames s !! Z.to_nat idx).

(** The timer bookkeeping of SimpleRealDetection: a recorded handle means
    running on exactly that timer; no handle means idle with no timer. *)
Definition simple_timer_inv (st : SimpleRealDetection.Service * Timers) : Prop :=
  match SimpleRealDetection.intervalId st.1 with
  | Some h => SimpleRealDetection.isRunning st.1 = true
              ∧ ∃ period, active st.2 = {[h := period]}
  | None => SimpleRealDetection.isRunning st.1 = false ∧ active st.2 = ∅
  end.

(** The firings of the interval callback among the events. *)
Definition is_fire (e : SimpleRealDetection.Event) : bool :=
  match e with SimpleRealDetection.Fire _ => true | _ => false end.

Definition fires (events : list SimpleRealDetection.Event) : nat :=
  length (filter (λ e, is_fire e = true) events).

(** The [Math.random()] draws of every tick lie in [0, 1). *)
Definition unit_draws (t : SimpleRealDetection.Tick) : Prop :=
  unit_draw (SimpleRealDetection.r_conf t)
  ∧ unit_draw (SimpleRealDetection.r_x t) ∧ unit_draw (SimpleRealDetection.r_y t)
  ∧ unit_draw (SimpleRealDetection.r_w t) ∧ unit_draw (SimpleRealDetection.r_h t).

Definition fired_with_unit_draws (e : SimpleRealDetection.Event) : Prop :=
  match e with SimpleRealDetection.Fire t => unit_draws t | _ => True end.

(** What makes a frame qualify for SimpleRealDetection. *)
Definition qualifying (info : option ImageInfo) : Prop :=
  ∃ w h c rest, info = Some (mkImageInfo w h (c :: rest))
                ∧ 50 < mean c ∧ mean c <= 200 ∧ 30 < stdev c.

Definition quiet_callback (id : nat) : Callback :=
  {| cb_id := id; cb_call := λ _, Returns |}.

(** A subscriber that throws an [Error], and one that throws [null]. *)
Definition failing_callback (id : nat) (msg : string) : Callback :=
  {| cb_id := id; cb_call := λ _, Throws (thrown_Error msg) |}.

Definition null_thrower (id : nat) : Callback :=
  {| cb_id := id; cb_call := λ _, Throws thrown_null |}.

(** A reaction the catch block of notifyDetections can log: a return, or a
    throw of a value whose [message] can be read. *)
Definition loggable (r : Reaction) : Prop :=
  match r with
  | Returns => True
  | Throws error => ∃ msg, thrown_message error = JS.Returned msg
  end.

Definition logged (detections : list Detection) (callback : Callback) : Prop :=
  loggable (cb_call callback detections).

(** The timer bookkeeping of AnimalDetectionService: a recorded handle
    means running on exactly that timer, created with the current
    detectionInterval; without a handle no timer is active. *)
Definition ads_timer_inv (st : AnimalDetectionService.Service * Timers) : Prop :=
  match AnimalDetectionService.intervalId st.1 with
  | Some h => AnimalDetectionService.isRunning st.1 = true
              ∧ active st.2 = {[h := AnimalDetectionService.detectionInterval st.1]}
  | None => active st.2 = ∅
  end.

(** The labels combineAnalysisResults can assign. *)
Definition heuristic_classes : list string :=
  ["animal"; "large_mammal"; "elephant"]%string.

(** The sample positions of analyzeTextures, in loop order. *)
Definition texture_positions : list (Z * Z) :=
  flat_map (λ py, map (λ px, (py, px)) RealAnimalDetectionService.texture_grid)
           RealAnimalDetectionService.texture_grid.

(** A camera whose frame is [frame] at every request. *)
Definition frozen_camera (frame : list Z) : Http :=
  λ _, inr {| status := 200; data := frame |}.

(** A scene whose full-size grayscale raster is one flat gray. *)
Definition flat_scene : RealAnimalDetectionService.Sharp :=
  {| RealAnimalDetectionService.metadata := λ _, Some (640, 480);
     RealAnimalDetectionService.grayscale_320x240 := λ _, Some (replicate 4000 90%Z);
     RealAnimalDetectionService.convolved_edges := λ _, Some (replicate 4000 0%Z);
     RealAnimalDetectionService.stats := λ _,
       Some [mkChannelStats 90 0; mkChannelStats 90 0; mkChannelStats 90 0];
     RealAnimalDetectionService.grayscale_raw := λ _, Some (replicate 4000 90%Z) |}.

(** An error as a route would throw it: internal text, no status. *)
Definition internal_failure : Middleware.Err :=
  {| Middleware.err_message := "connect ECONNREFUSED 10.0.0.9:5432";
     Middleware.err_statusCode := None;
     Middleware.err_status := None;
     Middleware.err_code := None;
     Middleware.err_expose := false;
     Middleware.err_details := None |}.

(** The timer bookkeeping of SimpleRealDetection while calls overlap: with
    no start pending it is [simple_timer_inv]; while one start waits for
    its probe the service is marked running and holds no timer yet; two
    starts never wait at once. *)
Definition simple_async_inv (st : SimpleRealDetection.Service * Timers * nat) : Prop :=
  match st.2 with
  | 0%nat => simple_timer_inv st.1
  | 1%nat => SimpleRealDetection.isRunning st.1.1 = true
             ∧ SimpleRealDetection.intervalId st.1.1 = None
             ∧ active st.1.2 = ∅
  | _ => False
  end.

(** The recorded handle names a timer that is active. *)
Definition handle_live (st : SimpleRealDetection.Service * Timers * nat) : Prop :=
  ∀ h, SimpleRealDetection.intervalId st.1.1 = Some h → is_Some (active st.1.2 !! h).

Definition is_stop (e : SimpleRealDetection.AsyncEvent) : bool :=
  match e with
  | SimpleRealDetection.Atomic SimpleRealDetection.Stop => true
  | _ => false
  end.

(** Along the events, stopDetection is only called while no startDetection
    waits for its probe. *)
Fixpoint stops_wait (events : list SimpleRealDetection.AsyncEvent)
    (st : SimpleRealDetection.Service * Timers * nat) : Prop :=
  match events with
  | [] => True
  | e :: events' =>
      (is_stop e = true → st.2 = 0%nat)
      ∧ stops_wait events' (SimpleRealDetection.step_async e st).1
  end.

(** The same for AnimalDetectionService. *)
Definition ads_async_inv
    (st : AnimalDetectionService.Service * Timers * list AnimalDetectionService.Phase)
  : Prop :=
  match st.2 with
  | [] => ads_timer_inv st.1
  | [_] => AnimalDetectionService.isRunning st.1.1 = true
           ∧ AnimalDetectionService.intervalId st.1.1 = None
           ∧ active st.1.2 = ∅
  | _ => False
  end.

(** The calls that stop the service: stopDetection, and updateSettings
    with a detectionInterval (it stops and starts again). *)
Definition stops (e : AnimalDetectionService.AsyncOp) : bool :=
  match e with
  | AnimalDetectionService.Atomic AnimalDetectionService.OpStop => true
  | AnimalDetectionService.Atomic (AnimalDetectionService.OpUpdateSettings _ settings)
  | AnimalDetectionService.CallUpdateSettings settings =>
      bool_decide (is_Some (truthy_number (set_detectionInterval settings)))
  | _ => false
  end.

(** Along the events, such a call is only made while no startDetection is
    pending. *)
Fixpoint calls_wait (events : list AnimalDetectionService.AsyncOp)
    (st : AnimalDetectionService.Service * Timers * list AnimalDetectionService.Phase)
  : Prop :=
  match events with
  | [] => True
  | e :: events' =>
      (stops e = true → st.2 = [])
      ∧ calls_wait events' (AnimalDetectionService.step_async e st)
  end.

(** A camera answer, and a schedule in which a second start is made while
    the restart of updateSettings is still pending. *)
Definition camera_answers : string + Response := inr {| status := 200; data := [] |}.

(** Candidates of one confidence value: the groups a stable sort leaves in
    their input order. *)
Definition same_confidence (c : Q) (d : Detection) : Prop := confidence d == c.

#[global] Instance same_confidence_dec (c : Q) (d : Detection) :
  Decision (same_confidence c d) := Qeq_dec (confidence d) c.

(** Boxes for calculateIoU on doubles: an ordinary box, the quarter frame
    at the origin, a box of width 0 at the right frame edge (as the clamp
    of postprocessResults produces), and a box whose positive width
    [2^-60] is absorbed when added to [x]. *)
Definition ordinary_box : Double.BoundingBox :=
  Double.mkBBox (Double.decimal 1 10) (Double.decimal 1 10)
                (Double.decimal 3 10) (Double.decimal 3 10).

Definition quarter_box : Double.BoundingBox :=
  Double.mkBBox Double.zero Double.zero (Double.decimal 1 2) (Double.decimal 1 2).

Definition edge_box : Double.BoundingBox :=
  Double.mkBBox Double.one (Double.decimal 1 4) Double.zero (Double.decimal 1 2).

Definition sliver_box : Double.BoundingBox :=
  Double.mkBBox (Double.decimal 1 2) (Double.decimal 421875 1000000)
                (Double.decimal 1 1152921504606846976) (Double.decimal 15625 100000).

Definition is_zero (a : Double.double) : Prop :=
  match a with S754_zero _ => True | _ => False end.

(* ===================================================================== *)
(** * Properties                                                          *)
(* ===================================================================== *)

(** ** The relational operators decide the order on [Q] *)

Lemma JS_lt_true (a b : Q) : JS.lt a b = true ↔ a < b.
Proof.
  unfold JS.lt. rewrite Qlt_alt. destruct (a ?= b); split; congruence.
Qed.

Lemma JS_lt_false (a b : Q) : JS.lt a b = false ↔ b <= a.
Proof.
  rewrite <- not_true_iff_false, JS_lt_true. split.
  - apply Qnot_lt_le.
  - apply Qle_not_lt.
Qed.

Lemma JS_gt_true (a b : Q) : JS.gt a b = true ↔ b < a.
Proof. apply JS_lt_true. Qed.

Lemma JS_gt_false (a b : Q) : JS.gt a b = false ↔ a <= b.
Proof. apply JS_lt_false. Qed.

Lemma JS_le_true (a b : Q) : JS.le a b = true ↔ a <= b.
Proof. apply Qle_bool_iff. Qed.

Lemma JS_le_false (a b : Q) : JS.le a b = false ↔ b < a.
Proof.
  rewrite <- not_true_iff_false, JS_le_true. split.
  - apply Qnot_le_lt.
  - apply Qlt_not_le.
Qed.

Lemma JS_ge_true (a b : Q) : JS.ge a b = true ↔ b <= a.
Proof. apply Qle_bool_iff. Qed.


(** ** Intersection over union *)

(** *** In exact arithmetic, as applyNMS compares it with the threshold *)

Section IoU.
Import AnimalDetectionService.


End IoU.

(** *** On doubles *)

Section Double_IoU.
Import Double.

Lemma SFcompare_antisym (a b : double) :
  SFcompare b a = option_map CompOpp (SFcompare a b).
Proof.
  destruct a as [sa | sa | | sa ma ea], b as [sb | sb | | sb mb eb];
    try destruct sa; try destruct sb; try done; cbn;
    rewrite (Z.compare_antisym ea eb);
    destruct (ea ?= eb)%Z; cbn; try done;
    rewrite ?CompOpp_involutive;
    first [by rewrite (Pos.compare_cont_antisym ma mb Eq)
          | by rewrite (Pos.compare_cont_antisym mb ma Eq)].
Qed.

Lemma SFcompare_refl (a : double) : a ≠ S754_nan → SFcompare a a = Some Eq.
Proof.
  destruct a as [sa | sa | | sa ma ea]; try destruct sa; try done; intros _; cbn;
    by rewrite Z.compare_refl, Pos.compare_cont_refl.
Qed.

(** Numbers that compare equal are the same double, or zeros. *)
Lemma SFcompare_Eq (a b : double) :
  SFcompare a b = Some Eq → a = b ∨ (is_zero a ∧ is_zero b).
Proof.
  destruct a as [sa | sa | | sa ma ea], b as [sb | sb | | sb mb eb];
    try destruct sa; try destruct sb; try done; cbn; auto;
    destruct (ea ?= eb)%Z eqn:He; try done;
    apply Z.compare_eq in He as ->; intros [= Hm];
    try (apply (f_equal CompOpp) in Hm; rewrite CompOpp_involutive in Hm; cbn in Hm);
    apply Pos.compare_eq in Hm as ->; by left.
Qed.

Lemma Math_max_comm (a b : double) : Math_max a b = Math_max b a.
Proof.
  unfold Math_max. rewrite (SFcompare_antisym a b).
  destruct (SFcompare a b) as [[] |] eqn:Hc; cbn; try done.
  apply SFcompare_Eq in Hc as [-> | [Ha Hb]]; [done |].
  destruct a, b; try done. by rewrite andb_comm.
Qed.

Lemma Math_min_comm (a b : double) : Math_min a b = Math_min b a.
Proof.
  unfold Math_min. rewrite (SFcompare_antisym a b).
  destruct (SFcompare a b) as [[] |] eqn:Hc; cbn; try done.
  apply SFcompare_Eq in Hc as [-> | [Ha Hb]]; [done |].
  destruct a, b; try done. by rewrite orb_comm.
Qed.

Lemma Math_max_same (a : double) : Math_max a a = a.
Proof.
  unfold Math_max. destruct a as [sa | sa | | sa ma ea] eqn:Ha; [| | done |];
    rewrite SFcompare_refl by done; [| done..]. by rewrite andb_diag.
Qed.

Lemma Math_min_same (a : double) : Math_min a a = a.
Proof.
  unfold Math_min. destruct a as [sa | sa | | sa ma ea] eqn:Ha; [| | done |];
    rewrite SFcompare_refl by done; [| done..]. by rewrite orb_diag.
Qed.

Lemma add_comm (a b : double) : add a b = add b a.
Proof.
  unfold add, SFadd.
  destruct a as [sa | sa | | sa ma ea], b as [sb | sb | | sb mb eb];
    try destruct sa; try destruct sb; try done;
    by rewrite (Z.min_comm ea eb), Z.add_comm.
Qed.

(** Adding a zero to a number gives a number that compares equal to it. *)
Lemma le_add_zero (a w : double) :
  is_zero w → a ≠ S754_nan → le (add a w) a = true.
Proof.
  intros Hw Ha. destruct w as [sw | | |]; try done.
  unfold le, SFleb.
  destruct a as [sa | sa | | sa ma ea]; try done.
  - by destruct sa, sw.
  - unfold add, SFadd. by rewrite SFcompare_refl.
  - unfold add, SFadd. by rewrite SFcompare_refl.
Qed.

End Double_IoU.

(** C3 (as amended), on doubles.  calculateIoU is symmetric: the two
    orders of the arguments give the same double.  It returns exactly 0
    whenever the computed corners satisfy [x2 <= x1] or [y2 <= y1]; that
    includes one and the same box compared with itself when its width or
    its height is 0.  For one and the same box that passes this guard it
    returns the rounded quotient [i / (A + A - i)] of the rounded
    [i = ((x + width) - x) * ((y + height) - y)] and [A = width * height],
    which need not be 1. *)
Theorem calculateIoU_spec (a b : Double.BoundingBox) :
  Double.calculateIoU a b = Double.calculateIoU b a
  ∧ (Double.le (Double.Math_min (Double.add (Double.x a) (Double.width a))
                                (Double.add (Double.x b) (Double.width b)))
               (Double.Math_max (Double.x a) (Double.x b)) = true
     ∨ Double.le (Double.Math_min (Double.add (Double.y a) (Double.height a))
                                  (Double.add (Double.y b) (Double.height b)))
                 (Double.Math_max (Double.y a) (Double.y b)) = true →
     Double.calculateIoU a b = Double.zero)
  ∧ (is_zero (Double.width a) ∧ Double.x a ≠ S754_nan
     ∨ is_zero (Double.height a) ∧ Double.y a ≠ S754_nan →
     Double.calculateIoU a a = Double.zero)
  ∧ (Double.le (Double.add (Double.x a) (Double.width a)) (Double.x a) = false →
     Double.le (Double.add (Double.y a) (Double.height a)) (Double.y a) = false →
     let i := Double.mul
                (Double.sub (Double.add (Double.x a) (Double.width a)) (Double.x a))
                (Double.sub (Double.add (Double.y a) (Double.height a)) (Double.y a)) in
     let area := Double.mul (Double.width a) (Double.height a) in
     Double.calculateIoU a a
     = Double.div i (Double.sub (Double.add area area) i)).
Proof.
  split; [| split; [| split]].
  - unfold Double.calculateIoU.
    rewrite (Math_max_comm (Double.x a)), (Math_max_comm (Double.y a)).
    rewrite (Math_min_comm (Double.add (Double.x a) _)),
      (Math_min_comm (Double.add (Double.y a) _)).
    by rewrite (add_comm (Double.mul (Double.width a) _)).
  - unfold Double.calculateIoU. intros [-> | ->]; [done |]. by rewrite orb_true_r.
  - unfold Double.calculateIoU. rewrite !Math_max_same, !Math_min_same.
    intros [[Hw Hx] | [Hh Hy]].
    + by rewrite le_add_zero.
    + by rewrite (le_add_zero (Double.y a)), orb_true_r.
  - unfold Double.calculateIoU. rewrite !Math_max_same, !Math_min_same.
    by intros -> ->.
Qed.

Lemma calculateIoU_spec_witness :
  Double.calculateIoU quarter_box quarter_box = Double.one
  ∧ Double.calculateIoU edge_box edge_box = Double.zero
  ∧ Double.calculateIoU
      (Double.mkBBox Double.zero Double.zero (Double.decimal 1 4) (Double.decimal 1 2))
      (Double.mkBBox (Double.decimal 1 2) Double.zero
                     (Double.decimal 1 4) (Double.decimal 1 2))
    = Double.zero.
Proof.
  split; [| split].
  - destruct (calculateIoU_spec quarter_box quarter_box) as (_ & _ & _ & Hsame).
    rewrite Hsame by (vm_compute; reflexivity). vm_compute. reflexivity.
  - apply (calculateIoU_spec edge_box edge_box). left. split; [exact I | discriminate].
  - apply (calculateIoU_spec
             (Double.mkBBox Double.zero Double.zero
                            (Double.decimal 1 4) (Double.decimal 1 2))).
    left. vm_compute. reflexivity.
Defined.

(** C3 as stated fails on doubles.  The box (0.1, 0.1, 0.3, 0.3) compared
    with itself gives 1.0000000000000007 ([4503599627370499 * 2^-52]),
    not 1.0; a box of width 0 gives 0; and so does a box whose positive
    width [2^-60] is absorbed by [x = 0.5]. *)
Lemma calculateIoU_same_box_not_one :
  Double.calculateIoU ordinary_box ordinary_box
  = S754_finite false 4503599627370499 (-52)
  ∧ Double.calculateIoU ordinary_box ordinary_box ≠ Double.one
  ∧ Double.calculateIoU edge_box edge_box = Double.zero
  ∧ Double.calculateIoU sliver_box sliver_box = Double.zero
  ∧ Double.zero ≠ Double.one.
Proof. repeat split; vm_compute; (reflexivity || discriminate). Qed.

(** ** Sorting by descending confidence *)

Lemma insert_sorted_Permutation {A} (cmp : A → A → Q) (a : A) (l : list A) :
  JS.insert_sorted cmp a l ≡ₚ a :: l.
Proof.
  induction l as [| b l IH]; cbn; [done |].
  destruct (JS.le (cmp a b) 0); [done |].
  rewrite IH. apply Permutation_swap.
Qed.

Lemma Array_sort_Permutation {A} (cmp : A → A → Q) (l : list A) :
  JS.Array_sort cmp l ≡ₚ l.
Proof.
  induction l as [| a l IH]; cbn; [done |].
  fold (JS.Array_sort cmp l). rewrite insert_sorted_Permutation. now rewrite IH.
Qed.

Lemma Array_sort_length {A} (cmp : A → A → Q) (l : list A) :
  length (JS.Array_sort cmp l) = length l.
Proof. apply Permutation_length, Array_sort_Permutation. Qed.

Lemma insert_sorted_confidence (a : Detection) (l : list Detection) :
  StronglySorted confidence_desc l →
  StronglySorted confidence_desc
    (JS.insert_sorted AnimalDetectionService.by_confidence_desc a l).
Proof.
  induction 1 as [| b l Hl IH Hb]; cbn.
  - repeat constructor.
  - destruct (JS.le _ _) eqn:Hcmp.
    + apply JS_le_true in Hcmp.
      unfold AnimalDetectionService.by_confidence_desc in Hcmp.
      constructor; [by constructor |].
      constructor; [unfold confidence_desc; lra |].
      eapply Forall_impl; [exact Hb |].
      unfold confidence_desc. intros c Hc. lra.
    + apply JS_le_false in Hcmp.
      unfold AnimalDetectionService.by_confidence_desc in Hcmp.
      constructor; [exact IH |].
      rewrite insert_sorted_Permutation.
      constructor; [unfold confidence_desc; lra | exact Hb].
Qed.

Lemma Array_sort_confidence (l : list Detection) :
  StronglySorted confidence_desc
    (JS.Array_sort AnimalDetectionService.by_confidence_desc l).
Proof.
  induction l as [| a l IH]; cbn; [constructor |].
  by apply insert_sorted_confidence.
Qed.

Lemma StronglySorted_sublist {A} (R : A → A → Prop) (l k : list A) :
  l `sublist_of` k → StronglySorted R k → StronglySorted R l.
Proof.
  induction 1 as [| a l k Hsub IH | a l k Hsub IH]; intros Hk.
  - constructor.
  - apply StronglySorted_inv in Hk as [Hk Ha].
    constructor; [by apply IH |].
    eapply Forall_forall. intros c Hc.
    eapply Forall_forall in Ha; [exact Ha |].
    eapply elem_of_sublist; eassumption.
  - apply StronglySorted_inv in Hk as [Hk _]. by apply IH.
Qed.

(** ** Non-maximum suppression *)

Section NMS.
Import AnimalDetectionService.
Variable nmsThreshold : Q.
Variable detections : list Detection.

(** The inner loop only adds indices, and every index of its range that
    it leaves out of [suppressed] overlaps box [i] by at most the
    threshold. *)
Lemma nms_inner_loop (i m : nat) (suppressed : gset nat) :
  let suppressed' :=
    foldl (nms_inner nmsThreshold detections i) suppressed (seq (S i) m) in
  suppressed ⊆ suppressed' ∧
  ∀ j di dj, (S i ≤ j < S i + m)%nat → j ∉ suppressed' →
             detections !! i = Some di → detections !! j = Some dj →
             calculateIoU (bbox di) (bbox dj) <= nmsThreshold.
Proof.
  induction m as [| m [IHsub IHiou]]; cbn zeta.
  - split; [done |]. intros j di dj Hj. lia.
  - rewrite seq_S, foldl_snoc.
    set (acc := foldl _ suppressed (seq (S i) m)) in *.
    unfold nms_inner.
    destruct (decide ((S i + m)%nat ∈ acc)) as [Hin | Hnin].
    + split; [done |]. intros j di dj Hj Hnot Hi Hdj.
      destruct (decide (j = (S i + m)%nat)) as [-> | Hne]; [done |].
      apply (IHiou j di dj); [lia | done..].
    + destruct (detections !! i) as [di' |] eqn:Hi;
        [destruct (detections !! (S i + m)%nat) as [dj' |] eqn:Hj' |].
      * destruct (JS.gt _ _) eqn:Hgt.
        -- split; [by apply union_subseteq_r' |].
           intros j di dj Hj Hnot Hdi Hdj.
           apply not_elem_of_union in Hnot as [Hne Hnot].
           apply not_elem_of_singleton in Hne.
           apply (IHiou j di dj); [lia | done..].
        -- apply JS_gt_false in Hgt.
           split; [done |]. intros j di dj Hj Hnot Hdi Hdj.
           destruct (decide (j = (S i + m)%nat)) as [-> | Hne].
           ++ by simplify_eq.
           ++ apply (IHiou j di dj); [lia | done..].
      * split; [done |]. intros j di dj Hj Hnot Hdi Hdj.
        destruct (decide (j = (S i + m)%nat)) as [-> | Hne]; [congruence |].
        apply (IHiou j di dj); [lia | done..].
      * split; [done |]. intros j di dj Hj Hnot Hdi Hdj. congruence.
Qed.

Lemma nms_outer_inv (i : nat) (st : list Detection * gset nat) :
  (i < length detections)%nat →
  nms_inv nmsThreshold detections i st →
  nms_inv nmsThreshold detections (S i) (nms_outer nmsThreshold detections st i).
Proof.
  intros Hi (Hsub & Hpair & Hlater). destruct st as [keep suppressed].
  cbn [fst snd] in *.
  destruct (lookup_lt_is_Some_2 detections i Hi) as [di Hdi].
  unfold nms_inv, nms_outer. rewrite (take_S_r _ _ _ Hdi).
  destruct (decide (i ∈ suppressed)) as [Hin | Hnin].
  - repeat split; cbn [fst snd].
    + by apply sublist_inserts_r.
    + exact Hpair.
    + intros a j dj Ha Hj. apply Hlater; [done | lia].
  - rewrite Hdi.
    destruct (nms_inner_loop i (length detections - S i) suppressed)
      as [Hmono Hinner].
    repeat split; cbn [fst snd].
    + apply sublist_app; [done | reflexivity].
    + intros p q a b Hpq Ha Hb.
      apply lookup_app_Some in Hb as [Hb | [Hlen Hb]].
      * apply (Hpair p q); [done | | done].
        apply lookup_app_Some in Ha as [Ha | [Hlen' _]]; [done |].
        apply lookup_lt_Some in Hb. lia.
      * apply list_lookup_singleton_Some in Hb as [Hq <-].
        apply lookup_app_Some in Ha as [Ha | [Hlen' _]]; [| lia].
        apply (Hlater a i di); [| lia | done..].
        eapply list_elem_of_lookup_2; eassumption.
    + intros a j dj Ha Hj Hnot Hdj.
      apply elem_of_app in Ha as [Ha | Ha].
      * apply (Hlater a j dj); [done | lia | | done].
        intros Hin'. by apply Hnot, Hmono.
      * apply list_elem_of_singleton in Ha as ->.
        apply (Hinner j di dj); [| done..].
        apply lookup_lt_Some in Hdj. lia.
Qed.

Lemma nms_loop_inv (n : nat) :
  (n ≤ length detections)%nat →
  nms_inv nmsThreshold detections n
    (foldl (nms_outer nmsThreshold detections) ([], ∅) (seq 0 n)).
Proof.
  induction n as [| n IH]; intros Hn.
  - repeat split; cbn.
    + apply sublist_nil_l.
    + intros p q a b _ Ha. by rewrite lookup_nil in Ha.
    + intros a j dj Ha. by apply elem_of_nil in Ha.
  - rewrite seq_S, foldl_snoc. cbn [plus].
    apply nms_outer_inv; [lia |]. apply IH. lia.
Qed.

End NMS.


Section NMS_more.
Import AnimalDetectionService.
Variable nmsThreshold : Q.
Variable detections : list Detection.


(** With no pair above the threshold the inner loop suppresses nothing. *)
Lemma nms_inner_loop_quiet (i m : nat) :
  (∀ j di dj, (i < j)%nat → detections !! i = Some di → detections !! j = Some dj →
     calculateIoU (bbox di) (bbox dj) <= nmsThreshold) →
  foldl (nms_inner nmsThreshold detections i) ∅ (seq (S i) m) = ∅.
Proof.
  intros Hpair. induction m as [| m IH]; [done |].
  rewrite seq_S, foldl_snoc, IH. unfold nms_inner.
  destruct (decide _) as [Hin | _]; [done |].
  destruct (detections !! i) as [di |] eqn:Hdi; [| done].
  destruct (detections !! (S i + m)%nat) as [dj |] eqn:Hdj; [| done].
  assert (JS.gt (calculateIoU (bbox di) (bbox dj)) nmsThreshold = false) as ->; [| done].
  apply JS_gt_false. apply (Hpair (S i + m)%nat); [lia | done..].
Qed.

Lemma nms_loop_quiet (n : nat) :
  (∀ i j di dj, (i < j)%nat → detections !! i = Some di → detections !! j = Some dj →
     calculateIoU (bbox di) (bbox dj) <= nmsThreshold) →
  foldl (nms_outer nmsThreshold detections) ([], ∅) (seq 0 n)
  = (take n detections, ∅).
Proof.
  intros Hpair. induction n as [| n IH]; [done |].
  rewrite seq_S, foldl_snoc, IH. cbn [plus]. unfold nms_outer.
  destruct (decide _) as [Hin | _]; [done |].
  destruct (detections !! n) as [dn |] eqn:Hdn.
  - rewrite (take_S_r _ _ _ Hdn). f_equal.
    apply nms_inner_loop_quiet. intros j di dj. apply Hpair.
  - apply lookup_ge_None in Hdn. by rewrite !take_ge by lia.
Qed.

(** Every step of the outer loop only appends to [keep]. *)
Lemma nms_outer_extends (st : list Detection * gset nat) (i : nat) :
  ∃ more, (nms_outer nmsThreshold detections st i).1 = st.1 ++ more.
Proof.
  destruct st as [keep suppressed]. unfold nms_outer.
  destruct (decide _); [exists []; by rewrite app_nil_r |].
  destruct (detections !! i) as [di |]; [by exists [di] |].
  exists []. by rewrite app_nil_r.
Qed.

Lemma nms_loop_extends (indices : list nat) (st : list Detection * gset nat) :
  ∃ more, (foldl (nms_outer nmsThreshold detections) st indices).1 = st.1 ++ more.
Proof.
  revert st. induction indices as [| i indices IH]; intros st; cbn.
  - exists []. by rewrite app_nil_r.
  - destruct (IH (nms_outer nmsThreshold detections st i)) as [more ->].
    destruct (nms_outer_extends st i) as [more' ->].
    exists (more' ++ more). by rewrite app_assoc.
Qed.


End NMS_more.




(** The survivors are drawn, in order, from the sorted candidates, and a
    survivor overlaps every later survivor by at most the threshold. *)
Lemma applyNMS_survivors (nmsThreshold : Q) (detections : list Detection) :
  let keep := AnimalDetectionService.applyNMS nmsThreshold detections in
  keep `sublist_of` JS.Array_sort AnimalDetectionService.by_confidence_desc detections
  ∧ ∀ p q a b, (p < q)%nat → keep !! p = Some a → keep !! q = Some b →
      AnimalDetectionService.calculateIoU (bbox a) (bbox b) <= nmsThreshold.
Proof.
  cbn zeta. unfold AnimalDetectionService.applyNMS.
  destruct (length detections <=? 1)%nat eqn:Hlen.
  - apply Nat.leb_le in Hlen.
    destruct detections as [| d [| d' l]]; cbn in Hlen; [| | lia].
    + split; [done |]. intros p q a b _ Ha. by rewrite lookup_nil in Ha.
    + split; [done |]. intros p q a b Hpq Ha Hb.
      apply list_lookup_singleton_Some in Ha as [-> _].
      apply list_lookup_singleton_Some in Hb as [-> _]. lia.
  - set (sorted := JS.Array_sort _ detections).
    destruct (nms_loop_inv nmsThreshold sorted (length sorted) (le_n _))
      as (Hs & Hpair & _).
    split; [| exact Hpair].
    by rewrite firstn_all in Hs.
Qed.




(** The scenario of the specification: the second box overlaps the first
    by more than 0.5 and is suppressed. *)
Example applyNMS_scenario :
  AnimalDetectionService.applyNMS 0.5
    [mkDetection "cow" 0.9 (mkBBox 0 0 0.5 0.5) "t";
     mkDetection "cow" 0.8 (mkBBox 0.05 0.05 0.5 0.5) "t"]
  = [mkDetection "cow" 0.9 (mkBBox 0 0 0.5 0.5) "t"].
Proof. vm_compute. reflexivity. Qed.


(** ** Bounding boxes *)

Lemma normalized_box_in_unit_square (inputSize bx by_ bw bh : Q) :
  bbox_in_unit_square
    (AnimalDetectionService.normalized_box inputSize bx by_ bw bh).
Proof.
  unfold bbox_in_unit_square, AnimalDetectionService.normalized_box,
    JS.Math_max, JS.Math_min; cbn [x y width height].
  set (x1 := (bx - bw / 2) / inputSize).
  set (y1 := (by_ - bh / 2) / inputSize).
  set (w := bw / inputSize). set (h := bh / inputSize).
  assert (Hclamp : ∀ t, 0 <= Qmax 0 (Qmin 1 t) ∧ Qmax 0 (Qmin 1 t) <= 1).
  { intros t. split; [apply Q.le_max_l |].
    apply Q.max_lub; [lra | apply Q.le_min_l]. }
  assert (Hroom : ∀ c t, c <= 1 → c + Qmax 0 (Qmin (1 - c) t) <= 1).
  { intros c t Hc.
    assert (Qmax 0 (Qmin (1 - c) t) <= 1 - c); [| lra].
    apply Q.max_lub; [lra | apply Q.le_min_l]. }
  destruct (Hclamp x1), (Hclamp y1).
  repeat split; auto.
Qed.

Lemma decode_anchor_boxes s now data detections i :
  boxes_in_unit_square detections →
  boxes_in_unit_square (AnimalDetectionService.decode_anchor s now data detections i).
Proof.
  intros H. unfold AnimalDetectionService.decode_anchor.
  repeat case_match; try done.
  all: apply Forall_app; split; [done |].
  all: repeat constructor; cbn [bbox]; apply normalized_box_in_unit_square.
Qed.

Lemma anchor_loop_boxes s now data fuel numDetections i detections :
  boxes_in_unit_square detections →
  boxes_in_unit_square
    (AnimalDetectionService.anchor_loop fuel numDetections
       (AnimalDetectionService.decode_anchor s now data) i detections).
Proof.
  revert i detections.
  induction fuel as [| fuel IH]; intros i detections H; cbn; [done |].
  case_match; [| done]. by apply IH, decode_anchor_boxes.
Qed.

(** The anchor loop leaves by its own test: once the fuel covers the
    bound, more fuel changes nothing. *)
Lemma anchor_loop_fuel (fuel fuel' : nat) (numDetections : Q)
    (body : list Detection → nat → list Detection) (i : nat)
    (detections : list Detection) :
  numDetections <= inject_Z (Z.of_nat (i + fuel)) → (fuel ≤ fuel')%nat →
  AnimalDetectionService.anchor_loop fuel numDetections body i detections
  = AnimalDetectionService.anchor_loop fuel' numDetections body i detections.
Proof.
  revert fuel' i detections.
  induction fuel as [| fuel IH]; intros fuel' i detections Hbound Hle.
  - rewrite Nat.add_0_r in Hbound. apply JS_lt_false in Hbound.
    destruct fuel'; cbn; [done | by rewrite Hbound].
  - destruct fuel' as [| fuel']; [lia |]. cbn.
    destruct (JS.lt _ _); [| done].
    apply IH; [| lia]. by replace (S i + fuel)%nat with (i + S fuel)%nat by lia.
Qed.

Lemma postprocessResults_fuel (data : list Q) :
  inject_Z (Z.of_nat (length data)) / 85
  <= inject_Z (Z.of_nat (0 + S (length data))).
Proof.
  assert (0 <= inject_Z (Z.of_nat (length data))).
  { change 0 with (inject_Z 0). rewrite <- Zle_Qle. lia. }
  assert (inject_Z (Z.of_nat (length data)) <= inject_Z (Z.of_nat (0 + S (length data)))).
  { rewrite <- Zle_Qle. lia. }
  unfold Qdiv. assert (/ 85 == 1 # 85) as -> by reflexivity. lra.
Qed.

Lemma postprocessResults_loop_complete (s : AnimalDetectionService.Service)
    (now : string) (data : list Q) (fuel : nat) :
  (S (length data) ≤ fuel)%nat →
  AnimalDetectionService.anchor_loop (S (length data))
    (inject_Z (Z.of_nat (length data)) / 85)
    (AnimalDetectionService.decode_anchor s now data) 0 []
  = AnimalDetectionService.anchor_loop fuel
      (inject_Z (Z.of_nat (length data)) / 85)
      (AnimalDetectionService.decode_anchor s now data) 0 [].
Proof. apply anchor_loop_fuel, postprocessResults_fuel. Qed.

(** On an output of [n] whole anchor records the loop is the fold of
    decode_anchor over the records [0 .. n-1]. *)
Lemma anchor_loop_whole_records (n fuel : nat)
    (body : list Detection → nat → list Detection) (i : nat)
    (detections : list Detection) :
  (i ≤ n)%nat → (n - i < fuel)%nat →
  AnimalDetectionService.anchor_loop fuel (inject_Z (Z.of_nat (n * 85)) / 85) body i detections
  = foldl body detections (seq i (n - i)).
Proof.
  revert i detections.
  induction fuel as [| fuel IH]; intros i detections Hi Hfuel; [lia |].
  cbn [AnimalDetectionService.anchor_loop].
  assert (Hnum : inject_Z (Z.of_nat (n * 85)) / 85 == inject_Z (Z.of_nat n)).
  { rewrite Nat2Z.inj_mul, inject_Z_mult. change (inject_Z (Z.of_nat 85)) with 85.
    field. }
  destruct (JS.lt _ _) eqn:Hlt.
  - apply JS_lt_true in Hlt. rewrite Hnum, <- Zlt_Qlt in Hlt.
    replace (n - i)%nat with (S (n - S i)) by lia. cbn [seq foldl].
    apply IH; lia.
  - apply JS_lt_false in Hlt. rewrite Hnum, <- Zle_Qle in Hlt.
    by replace (n - i)%nat with 0%nat by lia.
Qed.

(** The model path: every box postprocessResults returns lies in the unit
    square. *)
Lemma postprocessResults_boxes s now output :
  boxes_in_unit_square (AnimalDetectionService.postprocessResults s now output).
Proof.
  unfold AnimalDetectionService.postprocessResults.
  destruct output as [data |]; [| constructor].
  set (detections := AnimalDetectionService.anchor_loop _ _ _ _ _).
  assert (Hall : boxes_in_unit_square detections)
    by (apply anchor_loop_boxes; constructor).
  destruct (applyNMS_survivors (AnimalDetectionService.nmsThreshold s) detections)
    as [Hsub _].
  unfold boxes_in_unit_square in *.
  rewrite Forall_forall. intros d Hd.
  eapply elem_of_sublist in Hd; [| exact Hsub].
  rewrite Array_sort_Permutation in Hd.
  rewrite Forall_forall in Hall. by apply Hall.
Qed.

(** The fallback of AnimalDetectionService: [0.2 + r*0.4 + 0.2 + r'*0.2 < 1]. *)
Lemma enhancedImageAnalysis_boxes now info r_conf r_x r_y r_w r_h :
  unit_draw r_x → unit_draw r_y → unit_draw r_w → unit_draw r_h →
  boxes_in_unit_square
    (AnimalDetectionService.enhancedImageAnalysis now info r_conf r_x r_y r_w r_h).
Proof.
  unfold unit_draw. intros Hx Hy Hw Hh.
  unfold AnimalDetectionService.enhancedImageAnalysis.
  repeat case_match; try by constructor.
  all: repeat constructor; cbn [bbox x y width height]; lra.
Qed.

(** The simple analysis path: [0.25 + r*0.3 + 0.2 + r'*0.25 < 1]. *)
Lemma analyzeFrame_boxes (t : SimpleRealDetection.Tick) (s : SimpleRealDetection.Service) :
  unit_draw (SimpleRealDetection.r_x t) → unit_draw (SimpleRealDetection.r_y t) →
  unit_draw (SimpleRealDetection.r_w t) → unit_draw (SimpleRealDetection.r_h t) →
  boxes_in_unit_square (SimpleRealDetection.analyzeFrame t s).2.
Proof.
  unfold unit_draw. intros Hx Hy Hw Hh.
  unfold SimpleRealDetection.analyzeFrame.
  repeat case_match; try by constructor.
  all: repeat constructor; cbn [bbox x y width height]; lra.
Qed.

(** C1 fails on the heuristic path.  With the previous frame stored and the
    [Math.random()] draws 0.9 for [x] and [width] (0 for [y] and [height]),
    analyzeImageForAnimals emits one detection whose box has
    [x + width = 1.03 > 1]. *)
Theorem combineAnalysisResults_box_leaves_frame :
  ∃ d,
    (RealAnimalDetectionService.analyzeImageForAnimals moving_scene "t" 0.9 0 0.9 0
       (RealAnimalDetectionService.with_lastFrameData (Some [0%Z])
          RealAnimalDetectionService.new)
       [255%Z]).2 = [d]
    ∧ unit_draw 0.9 ∧ unit_draw 0
    ∧ x (bbox d) + width (bbox d) == 1.03
    ∧ ¬ bbox_in_unit_square (bbox d).
Proof.
  eexists. split; [vm_compute; reflexivity |].
  repeat split; try (vm_compute; congruence).
  intros (_ & _ & H & _). vm_compute in H. by apply H.
Qed.

(** ** Notification of subscribers *)

(** With subscribers whose throws the catch block can log, the delivery
    reaches every subscriber and completes normally. *)
Lemma forEach_try_log (detections : list Detection) (callbacks : list Callback) :
  Forall (logged detections) callbacks →
  forEach (try_log detections) callbacks
  = (map (invoke detections) callbacks, JS.Returned ()).
Proof.
  induction 1 as [| callback callbacks Hlogged _ IH]; cbn [forEach map]; [done |].
  rewrite IH. unfold try_log, logged, loggable in *. cbn [invoke call_reaction] in *.
  destruct (cb_call callback detections) as [| error]; [done |].
  by destruct Hlogged as [msg ->].
Qed.

(** The first subscriber whose throw cannot be logged ends the delivery:
    the throw of the catch block leaves [forEach]. *)
Lemma forEach_try_log_aborts (detections : list Detection)
    (before after : list Callback) (bad : Callback) (error : Thrown) (msg : string) :
  Forall (logged detections) before →
  cb_call bad detections = Throws error →
  thrown_message error = JS.Threw msg →
  forEach (try_log detections) (before ++ bad :: after)
  = (map (invoke detections) (before ++ [bad]), JS.Threw msg).
Proof.
  intros Hbefore Hbad Hmsg.
  induction Hbefore as [| callback before Hlogged _ IH]; cbn [forEach app map].
  - unfold try_log. cbn [invoke call_reaction]. by rewrite Hbad, Hmsg.
  - rewrite IH. unfold try_log, logged, loggable in *. cbn [invoke call_reaction] in *.
    destruct (cb_call callback detections) as [| error']; [done |].
    by destruct Hlogged as [msg' ->].
Qed.

Lemma SimpleRealDetection_registered (callbacks : list Callback)
    (s : SimpleRealDetection.Service) :
  SimpleRealDetection.detectionCallbacks
    (foldl (λ s callback, SimpleRealDetection.onDetection callback s) s callbacks)
  = SimpleRealDetection.detectionCallbacks s ++ callbacks.
Proof.
  revert s. induction callbacks as [| callback callbacks IH]; intros s; cbn [foldl].
  - by rewrite app_nil_r.
  - rewrite IH. cbn. by rewrite <- app_assoc.
Qed.

Lemma AnimalDetectionService_registered (callbacks : list Callback)
    (s : AnimalDetectionService.Service) :
  AnimalDetectionService.detectionCallbacks
    (foldl (λ s callback, AnimalDetectionService.onDetection callback s) s callbacks)
  = AnimalDetectionService.detectionCallbacks s ++ callbacks.
Proof.
  revert s. induction callbacks as [| callback callbacks IH]; intros s; cbn [foldl].
  - by rewrite app_nil_r.
  - rewrite IH. cbn. by rewrite <- app_assoc.
Qed.

(** C9 fails in both services.  Register a subscriber that returns, one
    that throws [null], and any further subscribers: the first two are
    called, the catch block around the second throws a TypeError while
    reading [error.message], none of the further subscribers is called
    and notifyDetections itself throws. *)
Theorem notifyDetections_null_throw_aborts (detections : list Detection)
    (later : list Callback) :
  let registry := quiet_callback 1 :: null_thrower 2 :: later in
  let called :=
    [ {| call_id := 1; call_detections := detections; call_reaction := Returns |};
      {| call_id := 2; call_detections := detections;
         call_reaction := Throws thrown_null |} ] in
  SimpleRealDetection.notifyDetections detections
    (foldl (λ s callback, SimpleRealDetection.onDetection callback s)
           SimpleRealDetection.new registry)
  = (called, JS.Threw "Cannot read properties of null (reading 'message')")
  ∧ AnimalDetectionService.notifyDetections detections
      (foldl (λ s callback, AnimalDetectionService.onDetection callback s)
             AnimalDetectionService.new registry)
    = (called, JS.Threw "Cannot read properties of null (reading 'message')").
Proof.
  intros registry called.
  unfold SimpleRealDetection.notifyDetections, AnimalDetectionService.notifyDetections.
  rewrite SimpleRealDetection_registered, AnimalDetectionService_registered.
  cbn [SimpleRealDetection.detectionCallbacks SimpleRealDetection.new
       AnimalDetectionService.detectionCallbacks AnimalDetectionService.new app].
  subst registry.
  split;
    apply (forEach_try_log_aborts detections [quiet_callback 1] later
             (null_thrower 2) thrown_null); try done;
    by repeat constructor.
Qed.

(** ** Frame fetch *)

Lemma fetch_loop_spec (http : Http) (urls : list string) :
  match SimpleRealDetection.fetch_loop http urls with
  | (requested, Some response) =>
      ∃ failed url later,
        urls = failed ++ url :: later ∧ requested = failed ++ [url]
        ∧ Forall (request_fails http) failed ∧ http url = inr response
  | (requested, None) => requested = urls ∧ Forall (request_fails http) urls
  end.
Proof.
  induction urls as [| url urls IH]; cbn; [done |].
  destruct (http url) as [error | response] eqn:Hurl.
  - destruct (SimpleRealDetection.fetch_loop http urls) as [requested [response |]].
    + destruct IH as (failed & url' & later & -> & -> & Hfailed & Hok).
      exists (url :: failed), url', later. repeat split; try done.
      constructor; [by exists error | done].
    + destruct IH as [-> Hall]. split; [done |].
      constructor; [by exists error | done].
  - exists [], url, urls. repeat split; try done.
Qed.

(** C7.  The fetch of analyzeFrame requests the five candidates in the
    order shot.jpg, snapshot.jpg, image.jpg, capture.jpg, base URL; it
    stops at the first request that succeeds and returns that response;
    and it throws 'Could not get image from any camera endpoint' exactly
    when all five requests fail. *)
Theorem fetchFrame_spec (http : Http) (s : SimpleRealDetection.Service) :
  let base := SimpleRealDetection.cameraUrl s in
  let result := SimpleRealDetection.fetchFrame http s in
  SimpleRealDetection.cameraUrls s
  = [base ++ "/shot.jpg"; base ++ "/snapshot.jpg"; base ++ "/image.jpg";
     base ++ "/capture.jpg"; base]%string
  ∧ match result.2 with
    | JS.Returned response =>
        ∃ failed url later,
          SimpleRealDetection.cameraUrls s = failed ++ url :: later
          ∧ result.1 = failed ++ [url]
          ∧ Forall (request_fails http) failed
          ∧ http url = inr response
    | JS.Threw msg =>
        msg = "Could not get image from any camera endpoint"%string
        ∧ result.1 = SimpleRealDetection.cameraUrls s
    end
  ∧ ((∃ msg, result.2 = JS.Threw msg)
     ↔ Forall (request_fails http) (SimpleRealDetection.cameraUrls s)).
Proof.
  intros base result. split; [done |].
  subst result. unfold SimpleRealDetection.fetchFrame.
  pose proof (fetch_loop_spec http (SimpleRealDetection.cameraUrls s)) as H.
  destruct (SimpleRealDetection.fetch_loop http (SimpleRealDetection.cameraUrls s))
    as [requested [response |]]; cbn [fst snd].
  - destruct H as (failed & url & later & Hurls & Hreq & Hfailed & Hok).
    split; [by exists failed, url, later |].
    split; [by intros [msg ?] |].
    intros Hall. rewrite Hurls in Hall.
    apply Forall_app in Hall as [_ Hall].
    apply Forall_cons in Hall as [[error Herr] _]. congruence.
  - destruct H as [-> Hall]. split; [done |].
    split; [done | by eexists].
Qed.

Lemma fetchFrame_spec_witness :
  ∃ msg, (SimpleRealDetection.fetchFrame dead_camera SimpleRealDetection.new).2
         = JS.Threw msg.
Proof.
  apply (fetchFrame_spec dead_camera SimpleRealDetection.new).
  repeat constructor; by eexists.
Defined.

(** With no reachable endpoint analyzeFrame requests all five URLs, returns
    no detection and leaves the service as it was. *)
Lemma analyzeFrame_no_endpoint (t : SimpleRealDetection.Tick) (s : SimpleRealDetection.Service) :
  Forall (request_fails (SimpleRealDetection.tick_http t)) (SimpleRealDetection.cameraUrls s) →
  SimpleRealDetection.analyzeFrame t s = (SimpleRealDetection.cameraUrls s, s, []).
Proof.
  intros Hall.
  unfold SimpleRealDetection.analyzeFrame, SimpleRealDetection.fetchFrame.
  pose proof (fetch_loop_spec (SimpleRealDetection.tick_http t)
                (SimpleRealDetection.cameraUrls s)) as H.
  destruct (SimpleRealDetection.fetch_loop _ _) as [requested [response |]].
  - destruct H as (failed & url & later & Hurls & _ & _ & Hok).
    rewrite Hurls in Hall. apply Forall_app in Hall as [_ Hall].
    apply Forall_cons in Hall as [[error Herr] _]. congruence.
  - by destruct H as [-> _].
Qed.

(** ** The cooldown gate of SimpleRealDetection *)

Section Cooldown.
Import SimpleRealDetection.

Lemma performImageAnalysis_confidence (info : option ImageInfo) (r : Q) :
  analysis_confidence (performImageAnalysis info r) <= 0.95.
Proof.
  unfold performImageAnalysis.
  destruct info as [[w h [| channel0 rest]] |]; cbn [analysis_confidence];
    try lra.
  unfold JS.Math_max, JS.Math_min.
  apply Q.max_lub; [lra | apply Q.le_min_l].
Qed.

(** What analyzeFrame returns: nothing, with the service untouched, or
    one elephant that passed the gate, with [lastDetectionTime] moved to
    the [Date.now()] reading. *)
Lemma analyzeFrame_cases (t : Tick) (s : Service) :
  (analyzeFrame t s).2 = [] ∧ (analyzeFrame t s).1.2 = s
  ∨ ∃ d, (analyzeFrame t s).2 = [d]
         ∧ (analyzeFrame t s).1.2 = with_lastDetectionTime (tick_now t) s
         ∧ (detectionCooldown s < tick_now t - lastDetectionTime s)%Z
         ∧ class d = "elephant"%string
         ∧ 0.75 < confidence d ∧ confidence d <= 0.95.
Proof.
  unfold analyzeFrame.
  destruct (fetchFrame (tick_http t) s) as [requested [response | msg]];
    [| by left].
  destruct (Z.of_nat (length (data response)) <? 1000)%Z; [by left |].
  set (analysis := performImageAnalysis _ _).
  destruct (gate s analysis (tick_now t)) eqn:Hgate; [| by left].
  right. eexists. split; [reflexivity |]. split; [reflexivity |].
  unfold gate in Hgate.
  apply andb_prop in Hgate as [Hgate Hcool].
  apply andb_prop in Hgate as [Hgate _].
  apply andb_prop in Hgate as [_ Hconf].
  apply JS_gt_true in Hconf. apply Z.ltb_lt in Hcool.
  cbn [class confidence]. repeat split; try done.
  apply performImageAnalysis_confidence.
Qed.

(** The same for the interval callback: at most one publication, stamped
    with the tick's [Date.now()] reading. *)
Lemma interval_callback_cases (t : Tick) (s : Service) :
  let s' := (interval_callback t s).1 in
  detectionCooldown s' = detectionCooldown s
  ∧ ((interval_callback t s).2 = [] ∧ lastDetectionTime s' = lastDetectionTime s
     ∨ ∃ p d, (interval_callback t s).2 = [p]
              ∧ pub_time p = tick_now t
              ∧ pub_detections p = [d]
              ∧ lastDetectionTime s' = tick_now t
              ∧ (detectionCooldown s < tick_now t - lastDetectionTime s)%Z
              ∧ class d = "elephant"%string
              ∧ 0.75 < confidence d ∧ confidence d <= 0.95).
Proof.
  unfold interval_callback.
  set (s1 := with_frameCount (frameCount s + 1) s).
  destruct (analyzeFrame_cases t s1) as [[Hnone Hs] | (d & Hd & Hs & Hcool & Hd')].
  - destruct (analyzeFrame t s1) as [[requested s2] detections].
    cbn [fst snd] in *. subst. cbn. split; [done | by left].
  - destruct (analyzeFrame t s1) as [[requested s2] detections].
    cbn [fst snd] in *. subst.
    destruct (notifyDetections [d] _) as [calls [[] | msg]];
      cbn; (split; [done | right]);
      eexists _, d; repeat split; try done; apply Hd'.
Qed.

(** One event publishes at most once, only later than the cooldown after
    the last forwarded detection, and then records the time. *)
Lemma step_cases (e : Event) (st : Service * Timers) :
  let s' := (step e st).1.1 in
  detectionCooldown s' = detectionCooldown st.1
  ∧ ((step e st).2 = [] ∧ lastDetectionTime s' = lastDetectionTime st.1
     ∨ ∃ p, (step e st).2 = [p]
            ∧ lastDetectionTime s' = pub_time p
            ∧ (lastDetectionTime st.1 + detectionCooldown st.1 < pub_time p)%Z
            ∧ elephants [p]).
Proof.
  destruct st as [s timers]. destruct e; cbn [step fst snd].
  - unfold startDetection. repeat case_match; simplify_eq; cbn; auto.
  - unfold stopDetection. repeat case_match; simplify_eq; cbn; auto.
  - destruct (interval_callback_cases t s) as [Hcd Hcases].
    destruct (interval_callback t s) as [s' pubs]. cbn [fst snd] in *.
    split; [done |].
    destruct Hcases as [[-> Hlast] | (p & d & -> & Htime & Hdets & Hlast & Hcool & Hd)].
    + by left.
    + right. exists p. rewrite Htime.
      split; [done |]. split; [done |]. split; [lia |].
      intros p' d' Hp' Hd'.
      apply list_elem_of_singleton in Hp' as ->. rewrite Hdets in Hd'.
      apply list_elem_of_singleton in Hd' as ->. exact Hd.
  - unfold updateSettings. repeat case_match; cbn; auto.
  - cbn; auto.
  - cbn; auto.
  - cbn; auto.
Qed.

Lemma run_cooldown (events : list Event) (st : Service * Timers) :
  (0 ≤ detectionCooldown st.1)%Z →
  let pubs := (run events st).2 in
  spaced (detectionCooldown st.1) pubs
  ∧ elephants pubs
  ∧ ∀ p, p ∈ pubs →
         (lastDetectionTime st.1 + detectionCooldown st.1 < pub_time p)%Z.
Proof.
  revert st. induction events as [| e events IH]; intros st Hcd; cbn [run].
  - cbn. split; [| split].
    + intros i j p q _ Hp. by rewrite lookup_nil in Hp.
    + intros p d Hp. by apply elem_of_nil in Hp.
    + intros p Hp. by apply elem_of_nil in Hp.
  - destruct (step_cases e st) as [Hsame Hcases].
    destruct (step e st) as [[s timers] pubs]. cbn [fst snd] in Hsame, Hcases.
    specialize (IH (s, timers)). cbn [fst snd] in IH.
    rewrite Hsame in IH. specialize (IH Hcd).
    destruct (run events (s, timers)) as [st' pubs']. cbn [fst snd] in *.
    destruct IH as (Hspaced & Heleph & Hlater).
    destruct Hcases as [[-> Hlast] | (p & -> & Hlast & Hcool & Hp)].
    + cbn [app]. rewrite Hlast in Hlater. done.
    + cbn [app]. rewrite Hlast in Hlater. split; [| split].
      * intros i j p1 p2 Hij H1 H2.
        destruct j as [| j]; [lia |]. cbn in H2.
        destruct i as [| i]; cbn in H1.
        -- simplify_eq. apply Hlater. eapply list_elem_of_lookup_2, H2.
        -- apply (Hspaced i j); [lia | done..].
      * intros p1 d Hp1 Hd. apply elem_of_cons in Hp1 as [-> | Hp1].
        -- apply (Hp p d); [apply list_elem_of_singleton; done | done].
        -- by apply (Heleph p1 d).
      * intros p1 Hp1. apply elem_of_cons in Hp1 as [-> | Hp1]; [done |].
        specialize (Hlater p1 Hp1). lia.
Qed.

End Cooldown.

Lemma run_elephants (events : list SimpleRealDetection.Event)
    (st : SimpleRealDetection.Service * Timers) :
  elephants (SimpleRealDetection.run events st).2.
Proof.
  revert st. induction events as [| e events IH]; intros st; cbn [SimpleRealDetection.run].
  - intros p d Hp. by apply elem_of_nil in Hp.
  - destruct (step_cases e st) as [_ Hcases].
    destruct (SimpleRealDetection.step e st) as [[s timers] pubs].
    cbn [fst snd] in Hcases. specialize (IH (s, timers)).
    destruct (SimpleRealDetection.run events (s, timers)) as [st' pubs'].
    cbn [fst snd] in *.
    destruct Hcases as [[-> _] | (p & -> & _ & _ & Hp)]; [done |].
    intros p1 d Hp1 Hd. apply elem_of_cons in Hp1 as [-> | Hp1].
    + apply (Hp p d); [by apply list_elem_of_singleton | done].
    + by apply (IH p1 d).
Qed.

Example three_ticks_publish_twice :
  map SimpleRealDetection.pub_time
      (SimpleRealDetection.run three_ticks (SimpleRealDetection.new, no_timers)).2
  = [1700000000000; 1700000012000]%Z.
Proof. vm_compute. reflexivity. Qed.

(** C4.  Cooldown invariant of SimpleRealDetection.  In every execution,
    whatever the ticks see, a publication made at [Date.now()] reading t0
    is followed only by publications at readings t > t0 + detectionCooldown;
    analyzeFrame forwards a detection only when
    [now - lastDetectionTime > detectionCooldown], and [lastDetectionTime]
    becomes [now] exactly when it forwards (it is unchanged otherwise). *)
Theorem cooldown_invariant (events : list SimpleRealDetection.Event)
    (st : SimpleRealDetection.Service * Timers) :
  (0 ≤ SimpleRealDetection.detectionCooldown st.1)%Z →
  (∀ i j p q, (i < j)%nat →
     (SimpleRealDetection.run events st).2 !! i = Some p →
     (SimpleRealDetection.run events st).2 !! j = Some q →
     (SimpleRealDetection.pub_time p + SimpleRealDetection.detectionCooldown st.1
      < SimpleRealDetection.pub_time q)%Z)
  ∧ (∀ t s,
       let after := (SimpleRealDetection.analyzeFrame t s).1.2 in
       let forwarded := (SimpleRealDetection.analyzeFrame t s).2 in
       (forwarded ≠ [] →
        (SimpleRealDetection.detectionCooldown s
         < SimpleRealDetection.tick_now t - SimpleRealDetection.lastDetectionTime s)%Z
        ∧ SimpleRealDetection.lastDetectionTime after = SimpleRealDetection.tick_now t)
       ∧ (forwarded = [] →
          SimpleRealDetection.lastDetectionTime after
          = SimpleRealDetection.lastDetectionTime s)).
Proof.
  intros Hcd. split.
  - apply (run_cooldown events st Hcd).
  - intros t s after forwarded. subst after forwarded.
    destruct (analyzeFrame_cases t s) as [[-> ->] | (d & -> & -> & Hcool & _)].
    + split; [done | done].
    + split; [done | discriminate].
Qed.

Lemma cooldown_invariant_witness :
  (0 ≤ SimpleRealDetection.detectionCooldown SimpleRealDetection.new)%Z
  ∧ ∃ p q,
      (SimpleRealDetection.run three_ticks (SimpleRealDetection.new, no_timers)).2 !! 0%nat
      = Some p
      ∧ (SimpleRealDetection.run three_ticks (SimpleRealDetection.new, no_timers)).2 !! 1%nat
        = Some q
      ∧ (SimpleRealDetection.pub_time p + 10000 < SimpleRealDetection.pub_time q)%Z.
Proof.
  assert (H : (0 ≤ SimpleRealDetection.detectionCooldown SimpleRealDetection.new)%Z)
    by (vm_compute; discriminate).
  split; [exact H |].
  eexists _, _.
  split; [vm_compute; reflexivity |]. split; [vm_compute; reflexivity |].
  apply (proj1 (cooldown_invariant three_ticks (SimpleRealDetection.new, no_timers) H)
               0%nat 1%nat); [lia | vm_compute; reflexivity..].
Defined.

(** C10.  Every detection SimpleRealDetection publishes, in any execution
    from any state, has class "elephant" and a confidence in (0.75, 0.95]:
    performImageAnalysis clamps to at most 0.95 and the gate of
    analyzeFrame asks for more than 0.75. *)
Theorem published_detection_is_confident_elephant
    (events : list SimpleRealDetection.Event)
    (st : SimpleRealDetection.Service * Timers)
    (p : SimpleRealDetection.Publication) (d : Detection) :
  p ∈ (SimpleRealDetection.run events st).2 →
  d ∈ SimpleRealDetection.pub_detections p →
  class d = "elephant"%string ∧ 0.75 < confidence d ∧ confidence d <= 0.95.
Proof. apply run_elephants. Qed.

Lemma published_detection_is_confident_elephant_witness :
  ∃ p d,
    (SimpleRealDetection.run three_ticks (SimpleRealDetection.new, no_timers)).2 !! 1%nat
    = Some p
    ∧ SimpleRealDetection.pub_detections p !! 0%nat = Some d
    ∧ class d = "elephant"%string ∧ 0.75 < confidence d ∧ confidence d <= 0.95.
Proof.
  eexists _, _.
  split; [vm_compute; reflexivity |]. split; [vm_compute; reflexivity |].
  eapply (published_detection_is_confident_elephant three_ticks
            (SimpleRealDetection.new, no_timers)).
  - eapply list_elem_of_lookup_2 with (i := 1%nat). vm_compute. reflexivity.
  - eapply list_elem_of_lookup_2 with (i := 0%nat). vm_compute. reflexivity.
Defined.

(** ** Lifecycle: start, stop, settings *)

Lemma SimpleRealDetection_start_while_running http s timers :
  SimpleRealDetection.isRunning s = true →
  SimpleRealDetection.startDetection http (s, timers)
  = (s, timers, {| success := false; message := "Detection already running" |}).
Proof. intros H. unfold SimpleRealDetection.startDetection. by rewrite H. Qed.

Lemma SimpleRealDetection_start_probe_failure http s timers error :
  SimpleRealDetection.isRunning s = false →
  http (SimpleRealDetection.cameraUrl s) = inl error →
  SimpleRealDetection.startDetection http (s, timers)
  = (s, timers,
     {| success := false; message := "Camera connection failed: " ++ error |}).
Proof.
  intros Hidle Hprobe. unfold SimpleRealDetection.startDetection.
  rewrite Hidle. cbn [SimpleRealDetection.cameraUrl SimpleRealDetection.with_isRunning].
  rewrite Hprobe. destruct s; cbn in *. by subst.
Qed.

Lemma AnimalDetectionService_start_while_running env s timers :
  AnimalDetectionService.isRunning s = true →
  AnimalDetectionService.startDetection env (s, timers)
  = (s, timers, {| success := false; message := "Detection already running" |}).
Proof. intros H. unfold AnimalDetectionService.startDetection. by rewrite H. Qed.

(** In AnimalDetectionService the failure branch of the probe returns
    without resetting [isRunning]. *)
Lemma AnimalDetectionService_start_probe_failure env s timers error :
  AnimalDetectionService.isRunning s = false →
  AnimalDetectionService.http env (AnimalDetectionService.cameraUrl s) = inl error →
  let result := AnimalDetectionService.startDetection env (s, timers) in
  success result.2 = false
  ∧ AnimalDetectionService.isRunning result.1.1 = true
  ∧ AnimalDetectionService.intervalId result.1.1 = AnimalDetectionService.intervalId s
  ∧ result.1.2 = timers.
Proof.
  intros Hidle Hprobe. unfold AnimalDetectionService.startDetection.
  rewrite Hidle. unfold AnimalDetectionService.testCameraConnection.
  assert (Hurl : ∀ s', AnimalDetectionService.cameraUrl
                        (if AnimalDetectionService.model s' then s'
                         else AnimalDetectionService.initializeModel env s')
                      = AnimalDetectionService.cameraUrl s').
  { intros s'. unfold AnimalDetectionService.initializeModel.
    by repeat case_match. }
  rewrite Hurl. cbn [AnimalDetectionService.cameraUrl AnimalDetectionService.with_isRunning].
  rewrite Hprobe. cbn [fst snd success].
  unfold AnimalDetectionService.initializeModel. by repeat case_match.
Qed.

(** C5 fails in AnimalDetectionService.  Started from the constructor state
    against an unreachable camera, startDetection reports failure and
    creates no timer, yet leaves [isRunning = true]; the next
    startDetection, with the camera back, is refused as already running. *)
Theorem AnimalDetectionService_failed_start_stays_running :
  let failed :=
    AnimalDetectionService.startDetection unreachable_camera
      (AnimalDetectionService.new, no_timers) in
  success failed.2 = false
  ∧ AnimalDetectionService.isRunning failed.1.1 = true
  ∧ AnimalDetectionService.intervalId failed.1.1 = None
  ∧ failed.1.2 = no_timers
  ∧ (AnimalDetectionService.startDetection reachable_camera failed.1).2
    = {| success := false; message := "Detection already running" |}.
Proof. cbn. repeat split. Qed.

Example running_service_is_running :
  AnimalDetectionService.isRunning running_service.1 = true
  ∧ AnimalDetectionService.intervalId running_service.1 = Some 1%nat
  ∧ active running_service.2 !! 1%nat = Some 2000%Z.
Proof. vm_compute. repeat split. Qed.




(** SimpleRealDetection.updateSettings only stores the values. *)
Lemma SimpleRealDetection_updateSettings_keeps_timer settings s :
  SimpleRealDetection.isRunning (SimpleRealDetection.updateSettings settings s)
  = SimpleRealDetection.isRunning s
  ∧ SimpleRealDetection.intervalId (SimpleRealDetection.updateSettings settings s)
    = SimpleRealDetection.intervalId s.
Proof. unfold SimpleRealDetection.updateSettings. by repeat case_match. Qed.

(** ** The heuristic scores *)

Section Heuristic.
Import RealAnimalDetectionService.

(** Comparing a raster with itself accumulates no difference and counts
    no changed pixel. *)
Lemma motion_pixels_identical (raster : list Z) (indices : list nat)
    (totalDiff changes : Q) :
  totalDiff == 0 →
  ∃ totalDiff',
    foldl (motion_pixel raster raster) (Some totalDiff, changes) indices
    = (Some totalDiff', changes)
    ∧ totalDiff' == 0.
Proof.
  revert totalDiff. induction indices as [| i indices IH]; intros totalDiff Hzero.
  - by exists totalDiff.
  - cbn [foldl]. unfold motion_pixel at 2.
    destruct (raster !! i) as [c |]; [| by apply IH].
    cbn [fst snd num_add]. unfold JS.Math_abs.
    assert (Hdiff : Qabs (inject_Z c - inject_Z c) == 0).
    { assert (inject_Z c - inject_Z c == 0) as -> by ring. reflexivity. }
    assert (num_gt (Some (Qabs (inject_Z c - inject_Z c))) 30 = false) as ->.
    { cbn [num_gt]. apply JS_gt_false. rewrite Hdiff. lra. }
    apply IH. rewrite Hdiff, Hzero. reflexivity.
Qed.

Lemma detectMotion_identical (sharp : Sharp) (s : Service)
    (previous current raster : list Z) :
  lastFrameData s = Some previous →
  grayscale_320x240 sharp previous = Some raster →
  grayscale_320x240 sharp current = Some raster →
  raster ≠ [] →
  ∃ m, motion_score (detectMotion sharp s current) = Some m ∧ m == 0.
Proof.
  intros Hlast Hprev Hcur Hne. unfold detectMotion.
  rewrite Hlast, Hcur, Hprev.
  destruct (motion_pixels_identical raster (seq 0 (length raster)) 0 0)
    as (totalDiff & -> & Hzero); [reflexivity |].
  destruct raster as [| c raster]; [done |].
  cbn [length num_div ratio motion_score].
  eexists. split; [reflexivity |].
  unfold JS.Math_min. rewrite Hzero.
  set (n := inject_Z (Z.of_nat (S (length raster)))).
  assert (Hscore : (0 / n * 10 + 0 / n / 255) / 2 == 0).
  { unfold Qdiv. ring. }
  rewrite Hscore. reflexivity.
Qed.

(** The scores of the three other analyses never exceed 1. *)
Lemma analyzeShapes_score_le_1 sharp image :
  JS.or_zero (shape_score (analyzeShapes sharp image)) <= 1.
Proof.
  unfold analyzeShapes. destruct (convolved_edges sharp image) as [edges |];
    cbn; [| lra].
  destruct (ratio _ _); cbn; [apply Q.le_min_l | lra].
Qed.

Lemma analyzeColorPatterns_score_le_1 sharp image :
  JS.or_zero (color_score (analyzeColorPatterns sharp image)) <= 1.
Proof.
  unfold analyzeColorPatterns.
  destruct (stats sharp image) as [[| chR [| chG [| chB rest]]] |];
    cbn [color_score JS.or_zero default from_option id]; try lra.
  apply Q.le_min_l.
Qed.

Lemma analyzeTextures_score_le_1 sharp image :
  JS.or_zero (texture_score (analyzeTextures sharp image)) <= 1.
Proof.
  unfold analyzeTextures. destruct (grayscale_raw sharp image) as [gray |];
    [| cbn; lra].
  destruct (foldl _ _ _) as [textureVariance samples].
  cbn [texture_score JS.or_zero default from_option id]. apply Q.le_min_l.
Qed.

End Heuristic.

(** With a motion score of 0 the confidence is the weighted sum of the
    other three scores; at or below the threshold it yields no detection. *)
Lemma motionless_frame_no_detection
    (sharp : RealAnimalDetectionService.Sharp) (now : string) (r_x r_y r_w r_h : Q)
    (s : RealAnimalDetectionService.Service) (current : list Z) (m : Q) :
  RealAnimalDetectionService.motion_score
    (RealAnimalDetectionService.detectMotion sharp s current) = Some m →
  m == 0 →
  JS.or_zero (RealAnimalDetectionService.shape_score
                (RealAnimalDetectionService.analyzeShapes sharp current)) * 0.25
  + JS.or_zero (RealAnimalDetectionService.color_score
                  (RealAnimalDetectionService.analyzeColorPatterns sharp current)) * 0.2
  + JS.or_zero (RealAnimalDetectionService.texture_score
                  (RealAnimalDetectionService.analyzeTextures sharp current)) * 0.15
  <= RealAnimalDetectionService.confidenceThreshold s →
  (RealAnimalDetectionService.analyzeImageForAnimals
     sharp now r_x r_y r_w r_h s current).2 = [].
Proof.
  intros Hm Hzero Hsum.
  unfold RealAnimalDetectionService.analyzeImageForAnimals.
  destruct (RealAnimalDetectionService.metadata sharp current); [| done].
  cbn [snd].
  unfold RealAnimalDetectionService.combineAnalysisResults.
  cbn [RealAnimalDetectionService.combined_confidence].
  rewrite Hm. cbn [JS.or_zero default from_option id].
  match goal with
  | |- (if JS.gt ?c ?t then _ else _) = _ =>
      assert (Hle : JS.gt c t = false) by (apply JS_gt_false; lra)
  end.
  by rewrite Hle.
Qed.

(** C8.  When the grayscale raster of the current frame equals that of the
    stored previous frame, the motion score of detectMotion is 0; and if
    the shape, colour and texture scores each stay at or below a level [L]
    at which their weights 0.25 + 0.20 + 0.15 do not carry the sum past
    the confidence threshold, analyzeImageForAnimals produces no
    detection. *)
Theorem identical_frames_no_detection
    (sharp : RealAnimalDetectionService.Sharp) (now : string) (r_x r_y r_w r_h : Q)
    (s : RealAnimalDetectionService.Service) (previous current raster : list Z)
    (L : Q) :
  RealAnimalDetectionService.lastFrameData s = Some previous →
  RealAnimalDetectionService.grayscale_320x240 sharp previous = Some raster →
  RealAnimalDetectionService.grayscale_320x240 sharp current = Some raster →
  raster ≠ [] →
  (∃ m, RealAnimalDetectionService.motion_score
          (RealAnimalDetectionService.detectMotion sharp s current) = Some m
        ∧ m == 0)
  ∧ (L * 0.25 + L * 0.2 + L * 0.15 <= RealAnimalDetectionService.confidenceThreshold s →
     JS.or_zero (RealAnimalDetectionService.shape_score
                   (RealAnimalDetectionService.analyzeShapes sharp current)) <= L →
     JS.or_zero (RealAnimalDetectionService.color_score
                   (RealAnimalDetectionService.analyzeColorPatterns sharp current)) <= L →
     JS.or_zero (RealAnimalDetectionService.texture_score
                   (RealAnimalDetectionService.analyzeTextures sharp current)) <= L →
     (RealAnimalDetectionService.analyzeImageForAnimals
        sharp now r_x r_y r_w r_h s current).2 = []).
Proof.
  intros Hlast Hprev Hcur Hne.
  destruct (detectMotion_identical sharp s previous current raster Hlast Hprev Hcur Hne)
    as (m & Hm & Hzero).
  split; [by exists m |].
  intros Hlevel Hshape Hcolor Htexture.
  apply (motionless_frame_no_detection sharp now r_x r_y r_w r_h s current m Hm Hzero).
  lra.
Qed.

Lemma identical_frames_no_detection_witness :
  (RealAnimalDetectionService.analyzeImageForAnimals still_scene "t" 0.5 0.5 0.5 0.5
     (RealAnimalDetectionService.with_lastFrameData (Some [1%Z])
        RealAnimalDetectionService.new)
     [2%Z]).2 = [].
Proof.
  apply (identical_frames_no_detection still_scene "t" 0.5 0.5 0.5 0.5
           (RealAnimalDetectionService.with_lastFrameData (Some [1%Z])
              RealAnimalDetectionService.new)
           [1%Z] [2%Z] [10; 200; 30; 40]%Z 1);
    try reflexivity; try discriminate; vm_compute; discriminate.
Defined.

(** With the threshold 0.6 of the constructor the level is 1, which no
    score exceeds: identical rasters never yield a detection. *)
Lemma identical_frames_never_detect
    (sharp : RealAnimalDetectionService.Sharp) (now : string) (r_x r_y r_w r_h : Q)
    (s : RealAnimalDetectionService.Service) (previous current raster : list Z) :
  RealAnimalDetectionService.confidenceThreshold s == 0.6 →
  RealAnimalDetectionService.lastFrameData s = Some previous →
  RealAnimalDetectionService.grayscale_320x240 sharp previous = Some raster →
  RealAnimalDetectionService.grayscale_320x240 sharp current = Some raster →
  raster ≠ [] →
  (RealAnimalDetectionService.analyzeImageForAnimals
     sharp now r_x r_y r_w r_h s current).2 = [].
Proof.
  intros Hthr Hlast Hprev Hcur Hne.
  destruct (detectMotion_identical sharp s previous current raster Hlast Hprev Hcur Hne)
    as (m & Hm & Hzero).
  apply (motionless_frame_no_detection sharp now r_x r_y r_w r_h s current m Hm Hzero).
  pose proof (analyzeShapes_score_le_1 sharp current).
  pose proof (analyzeColorPatterns_score_le_1 sharp current).
  pose proof (analyzeTextures_score_le_1 sharp current).
  rewrite Hthr. lra.
Qed.

(* ===================================================================== *)
(** * Further properties of the code                                      *)
(* ===================================================================== *)

(** ** calculateIoU and applyNMS *)

(** Sorting a list that is already in descending confidence changes
    nothing. *)
Lemma Array_sort_sorted (l : list Detection) :
  StronglySorted confidence_desc l →
  JS.Array_sort AnimalDetectionService.by_confidence_desc l = l.
Proof.
  induction 1 as [| a l Hl IH Ha]; [done |].
  cbn. fold (JS.Array_sort AnimalDetectionService.by_confidence_desc l).
  rewrite IH. destruct l as [| b l]; [done |]. cbn.
  apply Forall_cons in Ha as [Hab _].
  assert (JS.le (AnimalDetectionService.by_confidence_desc a b) 0 = true) as ->; [| done].
  apply JS_le_true. unfold AnimalDetectionService.by_confidence_desc.
  unfold confidence_desc in Hab. lra.
Qed.

Lemma applyNMS_Forall (P : Detection → Prop) (nmsThreshold : Q)
    (detections : list Detection) :
  Forall P detections →
  Forall P (AnimalDetectionService.applyNMS nmsThreshold detections).
Proof.
  intros Hall.
  destruct (applyNMS_survivors nmsThreshold detections) as [Hsub _].
  rewrite Forall_forall in *. intros d Hd.
  eapply elem_of_sublist in Hd; [| exact Hsub].
  rewrite Array_sort_Permutation in Hd. by apply Hall.
Qed.

(** X2.  applyNMS never drops the strongest candidate: on a non-empty
    input the result is non-empty and starts with a candidate whose
    confidence no input candidate exceeds. *)
Theorem applyNMS_keeps_strongest (nmsThreshold : Q) (detections : list Detection) :
  detections ≠ [] →
  ∃ top rest,
    AnimalDetectionService.applyNMS nmsThreshold detections = top :: rest
    ∧ top ∈ detections
    ∧ ∀ d, d ∈ detections → confidence d <= confidence top.
Proof.
  intros Hne. unfold AnimalDetectionService.applyNMS.
  destruct (length detections <=? 1)%nat eqn:Hlen.
  - apply Nat.leb_le in Hlen.
    destruct detections as [| d [| d' l]]; cbn in Hlen; [done | | lia].
    exists d, []. split; [done |]. split; [by apply list_elem_of_singleton |].
    intros d' Hd'. apply list_elem_of_singleton in Hd' as ->. lra.
  - set (sorted := JS.Array_sort _ detections).
    assert (Hperm : sorted ≡ₚ detections) by apply Array_sort_Permutation.
    assert (Hsorted : StronglySorted confidence_desc sorted)
      by apply Array_sort_confidence.
    destruct sorted as [| top sorted'] eqn:Hs.
    { symmetry in Hperm. by apply Permutation_nil_r in Hperm. }
    cbn [length seq foldl].
    unfold AnimalDetectionService.nms_outer at 2. cbn [lookup list_lookup].
    destruct (decide (0%nat ∈ (∅ : gset nat))) as [Hin | _];
      [by apply elem_of_empty in Hin |].
    cbn [app].
    match goal with
    | |- context [foldl ?f (?k, ?supp) ?idx] =>
        destruct (nms_loop_extends nmsThreshold (top :: sorted') idx (k, supp))
          as [more Hmore]
    end.
    cbn [fst] in Hmore. rewrite Hmore.
    exists top, more. split; [done |]. split.
    + rewrite <- Hperm. by left.
    + intros d Hd. rewrite <- Hperm in Hd.
      apply elem_of_cons in Hd as [-> | Hd]; [lra |].
      apply StronglySorted_inv in Hsorted as [_ Hall].
      rewrite Forall_forall in Hall. by apply Hall.
Qed.

Lemma applyNMS_keeps_strongest_witness :
  ∃ top rest,
    AnimalDetectionService.applyNMS 0.5 three_candidates = top :: rest
    ∧ top ∈ three_candidates
    ∧ ∀ d, d ∈ three_candidates → confidence d <= confidence top.
Proof. apply (applyNMS_keeps_strongest 0.5 three_candidates). discriminate. Defined.



(** X4.  applyNMS is idempotent: its result is already sorted and free of
    pairs above the threshold, so a second pass returns it unchanged. *)
Theorem applyNMS_idempotent (nmsThreshold : Q) (detections : list Detection) :
  AnimalDetectionService.applyNMS nmsThreshold
    (AnimalDetectionService.applyNMS nmsThreshold detections)
  = AnimalDetectionService.applyNMS nmsThreshold detections.
Proof.
  set (keep := AnimalDetectionService.applyNMS nmsThreshold detections).
  destruct (applyNMS_survivors nmsThreshold detections) as [Hsub Hpair].
  fold keep in Hsub, Hpair.
  assert (Hsorted : StronglySorted confidence_desc keep).
  { eapply StronglySorted_sublist; [exact Hsub | apply Array_sort_confidence]. }
  unfold AnimalDetectionService.applyNMS at 1.
  destruct (length keep <=? 1)%nat; [done |].
  rewrite (Array_sort_sorted keep Hsorted).
  rewrite (nms_loop_quiet nmsThreshold keep (length keep)).
  - cbn [fst]. apply firstn_all.
  - intros i j di dj Hij Hdi Hdj. by apply (Hpair i j).
Qed.

(** ** postprocessResults, enhancedImageAnalysis and processFrame *)

Lemma anchor_loop_Forall (P : Detection → Prop) fuel numDetections
    (body : list Detection → nat → list Detection) i detections :
  (∀ acc j, Forall P acc → Forall P (body acc j)) →
  Forall P detections →
  Forall P (AnimalDetectionService.anchor_loop fuel numDetections body i detections).
Proof.
  intros Hbody. revert i detections.
  induction fuel as [| fuel IH]; intros i detections H; cbn; [done |].
  case_match; [| done]. by apply IH, Hbody.
Qed.

Lemma decode_anchor_animals s now data detections i :
  let P := λ d, confident_animal s d in
  Forall P detections →
  Forall P (AnimalDetectionService.decode_anchor s now data detections i).
Proof.
  intros P H. unfold AnimalDetectionService.decode_anchor.
  repeat case_match; try done.
  apply Forall_app. split; [done |]. repeat constructor; cbn [confidence class].
  - match goal with
    | Hc : _ && _ = true |- _ => apply andb_prop in Hc as [Hc _]; by apply JS_ge_true in Hc
    end.
  - match goal with
    | Hc : _ && _ = true |- _ =>
        apply andb_prop in Hc as [_ Hc]; apply bool_decide_eq_true in Hc
    end.
    eexists. split; [eassumption | reflexivity].
Qed.

(** X5.  Whatever the model outputs, every detection postprocessResults
    returns has a combined confidence of at least confidenceThreshold and
    one of the nine animal class names; no other COCO class is ever
    reported. *)
Theorem postprocessResults_reports_confident_animals
    (s : AnimalDetectionService.Service) (now : string)
    (output : option (list Q)) (d : Detection) :
  AnimalDetectionService.classNames s = AnimalDetectionService.coco_class_names →
  d ∈ AnimalDetectionService.postprocessResults s now output →
  AnimalDetectionService.confidenceThreshold s <= confidence d
  ∧ class d ∈ animal_names.
Proof.
  intros Hnames Hd. unfold AnimalDetectionService.postprocessResults in Hd.
  destruct output as [data |]; [| by apply elem_of_nil in Hd].
  assert (Hall : Forall (confident_animal s)
            (AnimalDetectionService.applyNMS (AnimalDetectionService.nmsThreshold s)
               (AnimalDetectionService.anchor_loop (S (length data))
                  (inject_Z (Z.of_nat (length data)) / 85)
                  (AnimalDetectionService.decode_anchor s now data) 0 []))).
  { apply applyNMS_Forall, anchor_loop_Forall; [| constructor].
    intros acc j. apply decode_anchor_animals. }
  rewrite Forall_forall in Hall. destruct (Hall d Hd) as (Hconf & idx & Hidx & Hclass).
  split; [done |]. rewrite Hclass, Hnames.
  unfold AnimalDetectionService.animalClasses in Hidx.
  repeat (apply elem_of_cons in Hidx as [-> | Hidx]);
    [vm_compute; set_solver.. | by apply elem_of_nil in Hidx].
Qed.

Lemma postprocessResults_reports_confident_animals_witness :
  ∃ d, AnimalDetectionService.postprocessResults AnimalDetectionService.new "t"
         (Some one_elephant_output) = [d]
       ∧ 0.5 <= confidence d ∧ class d ∈ animal_names.
Proof.
  eexists. split; [vm_compute; reflexivity |].
  apply (postprocessResults_reports_confident_animals AnimalDetectionService.new "t"
           (Some one_elephant_output)); [reflexivity |].
  apply list_elem_of_lookup_2 with (i := 0%nat). vm_compute. reflexivity.
Defined.

(** The class index found by the scan is -1 or the index of a score that
    is present in the array. *)
Lemma max_class_index (data : list Q) (offset : nat) :
  (AnimalDetectionService.max_class data offset).2 = (-1)%Z
  ∨ ∃ j : nat, (AnimalDetectionService.max_class data offset).2 = Z.of_nat j
               ∧ is_Some (data !! (offset + 5 + j)%nat).
Proof.
  unfold AnimalDetectionService.max_class.
  generalize (seq 0 80). intros js.
  assert (Hinit : ((0 : Q, (-1)%Z) : Q * Z).2 = (-1)%Z
                  ∨ ∃ j : nat, ((0 : Q, (-1)%Z) : Q * Z).2 = Z.of_nat j
                               ∧ is_Some (data !! (offset + 5 + j)%nat)) by by left.
  revert Hinit. generalize ((0 : Q, (-1)%Z) : Q * Z). 
  induction js as [| j js IH]; intros acc Hacc; [done |].
  cbn [foldl]. apply IH.
  destruct (data !! (offset + 5 + j)%nat) as [score |] eqn:Hscore; [| done].
  destruct (JS.gt score acc.1); [| done].
  right. exists j. split; [done |]. by rewrite Hscore.
Qed.

(** A record that stops before the score of class 15 yields nothing. *)
Lemma decode_anchor_short s now data detections i :
  (length data ≤ i * 85 + 20)%nat →
  AnimalDetectionService.decode_anchor s now data detections i = detections.
Proof.
  intros Hlen. unfold AnimalDetectionService.decode_anchor.
  repeat case_match; try done.
  match goal with
  | Hc : _ && _ = true |- _ =>
      apply andb_prop in Hc as [_ Hallowed]; apply bool_decide_eq_true in Hallowed
  end.
  match goal with
  | Hm : AnimalDetectionService.max_class _ _ = _ |- _ =>
      pose proof (max_class_index data (i * 85)) as Hidx; rewrite Hm in Hidx
  end.
  cbn [snd] in Hidx. exfalso.
  unfold AnimalDetectionService.animalClasses in *.
  destruct Hidx as [-> | (j & -> & Hj)].
  - repeat (apply elem_of_cons in Hallowed as [Hallowed | Hallowed]; [lia |]).
    by apply elem_of_nil in Hallowed.
  - apply lookup_lt_is_Some in Hj.
    assert (j < 15)%nat by lia.
    repeat (apply elem_of_cons in Hallowed as [Hallowed | Hallowed]; [lia |]).
    by apply elem_of_nil in Hallowed.
Qed.

Lemma foldl_ext_in {A B} (f g : A → B → A) (l : list B) (a : A) :
  (∀ acc b, b ∈ l → f acc b = g acc b) → foldl f a l = foldl g a l.
Proof.
  revert a. induction l as [| b l IH]; intros a H; [done |].
  cbn. rewrite H by by left. apply IH. intros acc b' Hb'. apply H. by right.
Qed.

(** Values appended behind the records an anchor reads do not change what
    the anchor decodes to. *)
Lemma decode_anchor_prefix s now whole tail detections i :
  ((i + 1) * 85 ≤ length whole)%nat →
  AnimalDetectionService.decode_anchor s now (whole ++ tail) detections i
  = AnimalDetectionService.decode_anchor s now whole detections i.
Proof.
  intros Hlen. unfold AnimalDetectionService.decode_anchor.
  rewrite !(lookup_app_l whole tail) by lia.
  assert (AnimalDetectionService.max_class (whole ++ tail) (i * 85)
          = AnimalDetectionService.max_class whole (i * 85)) as ->; [| done].
  unfold AnimalDetectionService.max_class. apply foldl_ext_in.
  intros acc j Hj. apply elem_of_seq in Hj.
  by rewrite (lookup_app_l whole tail) by lia.
Qed.

(** The anchor loop runs the body for exactly the naturals below its
    bound. *)
Lemma anchor_loop_runs (k fuel : nat) (numDetections : Q)
    (body : list Detection → nat → list Detection) (i : nat)
    (detections : list Detection) :
  (∀ j, (j < k)%nat → inject_Z (Z.of_nat j) < numDetections) →
  numDetections <= inject_Z (Z.of_nat k) →
  (i ≤ k)%nat → (k - i < fuel)%nat →
  AnimalDetectionService.anchor_loop fuel numDetections body i detections
  = foldl body detections (seq i (k - i)).
Proof.
  intros Hbelow Hk. revert i detections.
  induction fuel as [| fuel IH]; intros i detections Hi Hfuel; [lia |].
  cbn [AnimalDetectionService.anchor_loop].
  destruct (decide (i = k)) as [-> | Hne].
  - apply JS_lt_false in Hk. rewrite Hk. by rewrite Nat.sub_diag.
  - assert (JS.lt (inject_Z (Z.of_nat i)) numDetections = true) as ->.
    { apply JS_lt_true, Hbelow. lia. }
    replace (k - i)%nat with (S (k - S i)) by lia. cbn [seq foldl].
    apply IH; lia.
Qed.

(** X6.  A trailing partial record of at most 20 values is ignored:
    postprocessResults answers for [n] whole records followed by such a
    tail what it answers for the whole records alone (an output whose
    length is not a multiple of 85 is not rejected). *)
Theorem postprocessResults_ignores_short_tail
    (s : AnimalDetectionService.Service) (now : string)
    (whole tail : list Q) (n : nat) :
  length whole = (n * 85)%nat → (length tail ≤ 20)%nat →
  AnimalDetectionService.postprocessResults s now (Some (whole ++ tail))
  = AnimalDetectionService.postprocessResults s now (Some whole).
Proof.
  intros Hwhole Htail. unfold AnimalDetectionService.postprocessResults.
  f_equal.
  assert (Hdiv : ∀ len j : nat, (j * 85 < len)%nat →
            inject_Z (Z.of_nat j) < inject_Z (Z.of_nat len) / 85).
  { intros len j Hj. apply Qlt_shift_div_l; [reflexivity |].
    change 85 with (inject_Z 85). rewrite <- inject_Z_mult, <- Zlt_Qlt. lia. }
  assert (Hdiv' : ∀ len k : nat, (len ≤ k * 85)%nat →
            inject_Z (Z.of_nat len) / 85 <= inject_Z (Z.of_nat k)).
  { intros len k Hk. apply Qle_shift_div_r; [reflexivity |].
    change 85 with (inject_Z 85). rewrite <- inject_Z_mult, <- Zle_Qle. lia. }
  rewrite (anchor_loop_runs n (S (length whole))); [| | | lia | lia].
  2: { intros j Hj. apply Hdiv. lia. }
  2: { apply Hdiv'. lia. }
  rewrite Nat.sub_0_r.
  destruct tail as [| v tail].
  { rewrite app_nil_r.
    rewrite (anchor_loop_runs n (S (length whole))); [| | | lia | lia].
    - by rewrite Nat.sub_0_r.
    - intros j Hj. apply Hdiv. lia.
    - apply Hdiv'. lia. }
  rewrite length_app in *. cbn [length] in *.
  rewrite (anchor_loop_runs (S n)); [| | | lia | lia].
  2: { intros j Hj. apply Hdiv. lia. }
  2: { apply Hdiv'. lia. }
  rewrite Nat.sub_0_r, seq_S, foldl_snoc. cbn [plus].
  rewrite decode_anchor_short by (rewrite length_app; cbn [length]; lia).
  apply foldl_ext_in. intros acc j Hj. apply elem_of_seq in Hj.
  apply decode_anchor_prefix. lia.
Qed.

Lemma postprocessResults_ignores_short_tail_witness :
  AnimalDetectionService.postprocessResults AnimalDetectionService.new "t"
    (Some (one_elephant_output ++ [320; 320; 128; 128; 0.9]))
  = AnimalDetectionService.postprocessResults AnimalDetectionService.new "t"
      (Some one_elephant_output).
Proof.
  apply (postprocessResults_ignores_short_tail AnimalDetectionService.new "t"
           one_elephant_output [320; 320; 128; 128; 0.9] 1).
  - reflexivity.
  - cbn. lia.
Defined.

(** X7.  enhancedImageAnalysis returns at most one detection; it is of
    class "animal", with confidence in [0.6, 0.8) and a box inside the unit
    square; and it is returned exactly when sharp accepts the frame, some
    channel has a standard deviation above 30 and the mean of the first
    channel lies strictly between 50 and 200. *)
Theorem enhancedImageAnalysis_spec (now : string) (info : option ImageInfo)
    (r_conf r_x r_y r_w r_h : Q) :
  unit_draw r_conf → unit_draw r_x → unit_draw r_y → unit_draw r_w → unit_draw r_h →
  let result :=
    AnimalDetectionService.enhancedImageAnalysis now info r_conf r_x r_y r_w r_h in
  (result = []
   ∨ ∃ d, result = [d] ∧ class d = "animal"%string
          ∧ 0.6 <= confidence d ∧ confidence d < 0.8
          ∧ bbox_in_unit_square (bbox d))
  ∧ (result ≠ []
     ↔ ∃ i c rest, info = Some i ∧ channels i = c :: rest
                   ∧ (∃ ch, ch ∈ channels i ∧ 30 < stdev ch)
                   ∧ 50 < mean c ∧ mean c < 200).
Proof.
  intros Hc Hx Hy Hw Hh result. subst result. unfold unit_draw in *.
  unfold AnimalDetectionService.enhancedImageAnalysis.
  destruct info as [i |].
  2: { split; [by left |]. split; [done | by intros (i & c & rest & ? & _)]. }
  destruct (channels i) as [| c rest] eqn:Hch.
  { split; [by left |]. split; [done |].
    intros (i' & c & rest & [= <-] & Hc' & _). congruence. }
  destruct (existsb _ _) eqn:Hex; cbn [andb].
  - apply existsb_exists in Hex as (ch & Hin & Hsd).
    apply list_elem_of_In in Hin. apply JS_gt_true in Hsd.
    destruct (JS.gt (mean c) 50) eqn:Hlo; cbn [andb].
    + destruct (JS.lt (mean c) 200) eqn:Hhi.
      * apply JS_gt_true in Hlo. apply JS_lt_true in Hhi. split.
        -- right. eexists. split; [reflexivity |].
           unfold bbox_in_unit_square. cbn. repeat split; lra.
        -- split; [| done]. intros _. exists i, c, rest.
           rewrite Hch. repeat split; try done. by exists ch.
      * apply JS_lt_false in Hhi. split; [by left |].
        split; [done |]. intros (i' & c' & rest' & ? & ? & _ & _ & ?).
        simplify_eq. assert (c' = c) as -> by congruence. lra.
    + apply JS_gt_false in Hlo. split; [by left |].
      split; [done |]. intros (i' & c' & rest' & ? & ? & _ & ? & _).
      simplify_eq. assert (c' = c) as -> by congruence. lra.
  - split; [by left |]. split; [done |].
    intros (i' & c' & rest' & ? & ? & (ch & Hin & Hsd) & _). simplify_eq.
    rewrite Hch in Hin.
    assert (existsb (λ channel, JS.gt (stdev channel) 30) (c :: rest) = true);
      [| congruence].
    apply existsb_exists. exists ch. split; [by apply list_elem_of_In |].
    by apply JS_gt_true.
Qed.

Lemma enhancedImageAnalysis_spec_witness :
  AnimalDetectionService.enhancedImageAnalysis "t"
    (Some (mkImageInfo 640 480 [mkChannelStats 120 40])) 0.5 0.5 0.5 0.5 0.5 ≠ [].
Proof.
  apply (enhancedImageAnalysis_spec "t"
           (Some (mkImageInfo 640 480 [mkChannelStats 120 40])) 0.5 0.5 0.5 0.5 0.5);
    try (split; reflexivity || discriminate).
  exists (mkImageInfo 640 480 [mkChannelStats 120 40]), (mkChannelStats 120 40), [].
  repeat split.
  exists (mkChannelStats 120 40). split; [by apply list_elem_of_singleton | reflexivity].
Defined.

(** X8.  processFrame never returns a box that leaves the unit square,
    whichever strategy the tick takes (model or fallback), and it returns
    no detection when the camera request fails or is answered with a
    status other than 200. *)
Theorem processFrame_spec (http : Http) (vision : AnimalDetectionService.Vision)
    (now : string) (r_conf r_x r_y r_w r_h : Q)
    (s : AnimalDetectionService.Service) :
  unit_draw r_x → unit_draw r_y → unit_draw r_w → unit_draw r_h →
  ¬ AnimalDetectionService.inputSize s == 0 →
  boxes_in_unit_square
    (AnimalDetectionService.processFrame http vision now r_conf r_x r_y r_w r_h s)
  ∧ ((∀ response, http (AnimalDetectionService.cameraUrl s) = inr response →
        status response ≠ 200%Z) →
     AnimalDetectionService.processFrame http vision now r_conf r_x r_y r_w r_h s = []).
Proof.
  intros Hx Hy Hw Hh _. unfold AnimalDetectionService.processFrame. split.
  - destruct (http _) as [error | response]; [constructor |].
    destruct (negb _); [constructor |].
    destruct (AnimalDetectionService.model s).
    + unfold AnimalDetectionService.detectAnimalsInFrame.
      destruct (AnimalDetectionService.infer _ _); [| constructor].
      apply postprocessResults_boxes.
    + by apply enhancedImageAnalysis_boxes.
  - intros Hbad. destruct (http _) as [error | response]; [done |].
    specialize (Hbad response eq_refl).
    apply Z.eqb_neq in Hbad. by rewrite Hbad.
Qed.

Lemma processFrame_spec_witness :
  boxes_in_unit_square
    (AnimalDetectionService.processFrame steady_camera elephant_vision "t"
       0.5 0.5 0.5 0.5 0.5
       (AnimalDetectionService.with_model true AnimalDetectionService.new))
  ∧ AnimalDetectionService.processFrame dead_camera elephant_vision "t"
      0.5 0.5 0.5 0.5 0.5
      (AnimalDetectionService.with_model true AnimalDetectionService.new) = [].
Proof.
  split.
  - apply (processFrame_spec steady_camera elephant_vision "t" 0.5 0.5 0.5 0.5 0.5
             (AnimalDetectionService.with_model true AnimalDetectionService.new));
      (split; reflexivity || discriminate) || (vm_compute; discriminate).
  - apply (processFrame_spec dead_camera elephant_vision "t" 0.5 0.5 0.5 0.5 0.5
             (AnimalDetectionService.with_model true AnimalDetectionService.new));
      (split; reflexivity || discriminate) || (vm_compute; discriminate).
Defined.

(** ** SimpleRealDetection: decision, boxes, timers, counters, registry *)

Lemma clamp_gt (c : Q) :
  JS.gt (JS.Math_max 0.1 (JS.Math_min 0.95 c)) 0.75 = JS.gt c 0.75.
Proof.
  unfold JS.Math_max, JS.Math_min.
  destruct (JS.gt c 0.75) eqn:Hc.
  - apply JS_gt_true in Hc. apply JS_gt_true.
    apply Q.max_lt_iff. right. apply Q.min_glb_lt; lra.
  - apply JS_gt_false in Hc. apply JS_gt_false.
    apply Q.max_lub; [lra |].
    apply Qle_trans with c; [apply Q.le_min_r | lra].
Qed.

Ltac js_compare :=
  repeat match goal with
  | H : JS.gt _ _ = true |- _ => apply JS_gt_true in H
  | H : JS.gt _ _ = false |- _ => apply JS_gt_false in H
  | H : JS.lt _ _ = true |- _ => apply JS_lt_true in H
  | H : JS.lt _ _ = false |- _ => apply JS_lt_false in H
  end.

(** The three image conditions of the gate hold exactly for a frame whose
    first channel has a mean in (50, 200] and a standard deviation above
    30: the random draw never decides. *)
Lemma performImageAnalysis_qualifies (info : option ImageInfo) (r : Q) :
  unit_draw r →
  let analysis := SimpleRealDetection.performImageAnalysis info r in
  (SimpleRealDetection.hasSignificantContent analysis
   && JS.gt (SimpleRealDetection.analysis_confidence analysis) 0.75
   && match SimpleRealDetection.brightness analysis with
      | Some b => JS.gt b 50
      | None => false
      end = true)
  ↔ qualifying info.
Proof.
  intros [Hr0 Hr1] analysis. subst analysis. unfold qualifying.
  destruct info as [[w h [| c rest]] |]; cbn -[JS.gt JS.lt].
  1, 3: split; [done | by intros (? & ? & ? & ? & ? & _)].
  rewrite clamp_gt.
  split.
  - intros H. exists w, h, c, rest. split; [done |].
    destruct (JS.gt (mean c) 10) eqn:H1, (JS.lt (mean c) 240) eqn:H2,
      (JS.gt (stdev c) 15) eqn:H3, (JS.gt (mean c) 50) eqn:H4,
      (JS.gt (stdev c) 30) eqn:H5, (JS.gt w 320) eqn:H6,
      (JS.lt (mean c) 20) eqn:H7, (JS.gt (mean c) 200) eqn:H8;
      cbn [andb orb] in H; try discriminate H;
      rewrite ?andb_true_r in H; js_compare; lra.
  - intros (w' & h' & c' & rest' & [= <- <- <- <-] & Hlo & Hhi & Hsd).
    assert (JS.gt (mean c) 10 = true) as -> by (apply JS_gt_true; lra).
    assert (JS.lt (mean c) 240 = true) as -> by (apply JS_lt_true; lra).
    assert (JS.gt (stdev c) 15 = true) as -> by (apply JS_gt_true; lra).
    assert (JS.gt (mean c) 50 = true) as -> by (apply JS_gt_true; lra).
    assert (JS.gt (stdev c) 30 = true) as -> by (apply JS_gt_true; lra).
    assert (JS.lt (mean c) 20 = false) as -> by (apply JS_lt_false; lra).
    assert (JS.gt (mean c) 200 = false) as -> by (apply JS_gt_false; lra).
    cbn [andb orb]. rewrite andb_true_r.
    destruct (JS.gt w 320); apply JS_gt_true; lra.
Qed.

(** X9.  analyzeFrame returns a detection exactly when some endpoint
    answers with a frame of at least 1000 bytes that sharp accepts, the
    first channel has a mean in (50, 200] and a standard deviation above
    30, and more than detectionCooldown ms have passed since the last
    detection: the outcome does not depend on the [Math.random()] draws. *)
Theorem analyzeFrame_decision (t : SimpleRealDetection.Tick)
    (s : SimpleRealDetection.Service) :
  unit_draw (SimpleRealDetection.r_conf t) →
  (SimpleRealDetection.analyzeFrame t s).2 ≠ []
  ↔ ∃ response,
      (SimpleRealDetection.fetchFrame (SimpleRealDetection.tick_http t) s).2
      = JS.Returned response
      ∧ (1000 ≤ length (data response))%nat
      ∧ qualifying (SimpleRealDetection.tick_sharp t (data response))
      ∧ (SimpleRealDetection.detectionCooldown s
         < SimpleRealDetection.tick_now t - SimpleRealDetection.lastDetectionTime s)%Z.
Proof.
  intros Hr. unfold SimpleRealDetection.analyzeFrame.
  destruct (SimpleRealDetection.fetchFrame _ s) as [requested [response | msg]];
    cbn [snd]; [| split; [done | by intros (? & ? & _)]].
  destruct (Z.of_nat (length (data response)) <? 1000)%Z eqn:Hlen.
  { apply Z.ltb_lt in Hlen. split; [done |].
    intros (response' & [= <-] & ? & _). lia. }
  apply Z.ltb_ge in Hlen.
  pose proof (performImageAnalysis_qualifies
                (SimpleRealDetection.tick_sharp t (data response))
                (SimpleRealDetection.r_conf t) Hr) as Hq.
  cbn zeta in Hq. unfold SimpleRealDetection.gate.
  destruct (_ && _ && _) eqn:Himg; cbn [andb].
  - destruct (_ <? _)%Z eqn:Hcool; cbn [snd].
    + apply Z.ltb_lt in Hcool. split; [| done]. intros _.
      exists response. repeat split; try done; [lia | by apply Hq].
    + apply Z.ltb_ge in Hcool. split; [done |].
      intros (response' & [= <-] & _ & _ & ?). lia.
  - split; [done |]. intros (response' & [= <-] & _ & Hqual & _).
    apply Hq in Hqual. congruence.
Qed.

Lemma analyzeFrame_decision_witness :
  (SimpleRealDetection.analyzeFrame (tick_at 1700000000000) SimpleRealDetection.new).2
  ≠ [].
Proof.
  apply (analyzeFrame_decision (tick_at 1700000000000) SimpleRealDetection.new).
  - split; reflexivity || discriminate.
  - eexists. split; [vm_compute; reflexivity |].
    split; [vm_compute; lia |]. split; [| reflexivity].
    eexists _, _, _, _. split; [reflexivity |].
    repeat split; discriminate.
Defined.

Lemma interval_callback_detections (t : SimpleRealDetection.Tick)
    (s : SimpleRealDetection.Service) (p : SimpleRealDetection.Publication) :
  p ∈ (SimpleRealDetection.interval_callback t s).2 →
  SimpleRealDetection.pub_detections p
  = (SimpleRealDetection.analyzeFrame t
       (SimpleRealDetection.with_frameCount (SimpleRealDetection.frameCount s + 1) s)).2.
Proof.
  unfold SimpleRealDetection.interval_callback.
  destruct (SimpleRealDetection.analyzeFrame t _) as [[requested s'] [| d detections]];
    [| destruct (SimpleRealDetection.notifyDetections _ _) as [calls notified]];
    cbn [snd]; intros Hp.
  - by apply elem_of_nil in Hp.
  - by apply list_elem_of_singleton in Hp as ->.
Qed.

(** X10.  Every box SimpleRealDetection publishes, in any execution whose
    ticks draw their random numbers from [0, 1), lies inside the unit
    square. *)
Theorem published_boxes_in_unit_square
    (events : list SimpleRealDetection.Event)
    (st : SimpleRealDetection.Service * Timers)
    (p : SimpleRealDetection.Publication) :
  Forall fired_with_unit_draws events →
  p ∈ (SimpleRealDetection.run events st).2 →
  boxes_in_unit_square (SimpleRealDetection.pub_detections p).
Proof.
  revert st. induction events as [| e events IH]; intros st Hdraws Hp;
    cbn [SimpleRealDetection.run] in Hp.
  - by apply elem_of_nil in Hp.
  - apply Forall_cons in Hdraws as [He Hdraws].
    destruct (SimpleRealDetection.step e st) as [[s timers] pubs] eqn:Hstep.
    specialize (IH (s, timers) Hdraws).
    destruct (SimpleRealDetection.run events (s, timers)) as [st' pubs'].
    cbn [snd] in *. apply elem_of_app in Hp as [Hp | Hp]; [| by apply IH].
    destruct st as [s0 timers0].
    destruct e; cbn in Hstep;
      try (repeat case_match; simplify_eq; by apply elem_of_nil in Hp).
    destruct (SimpleRealDetection.interval_callback t s0) as [s1 pubs1] eqn:Hcb.
    simplify_eq.
    assert (Hp' : p ∈ (SimpleRealDetection.interval_callback t s0).2)
      by by rewrite Hcb.
    rewrite (interval_callback_detections t s0 p Hp').
    destruct He as (_ & Hx & Hy & Hw & Hh). by apply analyzeFrame_boxes.
Qed.

Lemma published_boxes_in_unit_square_witness :
  ∃ p, (SimpleRealDetection.run three_ticks (SimpleRealDetection.new, no_timers)).2
         !! 0%nat = Some p
       ∧ boxes_in_unit_square (SimpleRealDetection.pub_detections p).
Proof.
  eexists. split; [vm_compute; reflexivity |].
  apply (published_boxes_in_unit_square three_ticks
           (SimpleRealDetection.new, no_timers)).
  - repeat constructor; discriminate.
  - apply list_elem_of_lookup_2 with (i := 0%nat). vm_compute. reflexivity.
Defined.

(** A tick leaves the lifecycle fields alone. *)
Lemma interval_callback_keeps_timer (t : SimpleRealDetection.Tick)
    (s : SimpleRealDetection.Service) :
  SimpleRealDetection.isRunning (SimpleRealDetection.interval_callback t s).1
  = SimpleRealDetection.isRunning s
  ∧ SimpleRealDetection.intervalId (SimpleRealDetection.interval_callback t s).1
    = SimpleRealDetection.intervalId s.
Proof.
  unfold SimpleRealDetection.interval_callback.
  pose proof (analyzeFrame_cases t
                (SimpleRealDetection.with_frameCount
                   (SimpleRealDetection.frameCount s + 1) s)) as Hcases.
  destruct (SimpleRealDetection.analyzeFrame t _) as [[requested s'] detections].
  cbn [fst snd] in Hcases.
  destruct Hcases as [[-> ->] | (d & -> & -> & _)]; [done |].
  by destruct (SimpleRealDetection.notifyDetections _ _) as [calls [[] | msg]].
Qed.

Lemma step_timer_inv (e : SimpleRealDetection.Event)
    (st : SimpleRealDetection.Service * Timers) :
  simple_timer_inv st → simple_timer_inv (SimpleRealDetection.step e st).1.
Proof.
  destruct st as [s timers]. unfold simple_timer_inv. cbn [fst snd].
  intros Hinv. destruct e; cbn [SimpleRealDetection.step].
  - unfold SimpleRealDetection.startDetection.
    destruct (SimpleRealDetection.isRunning s) eqn:Hrun;
      [cbn [fst snd]; by rewrite Hrun |].
    cbn [SimpleRealDetection.cameraUrl SimpleRealDetection.with_isRunning].
    destruct (http _) as [error | response]; cbn.
    + destruct (SimpleRealDetection.intervalId s); [destruct Hinv; congruence | done].
    + destruct (SimpleRealDetection.intervalId s) as [h |]; [destruct Hinv; congruence |].
      destruct Hinv as [_ ->]. split; [done |]. eexists. by rewrite insert_empty.
  - unfold SimpleRealDetection.stopDetection.
    destruct (SimpleRealDetection.isRunning s) eqn:Hrun; cbn [negb];
      [| cbn [fst snd]; by rewrite Hrun].
    cbn. destruct (SimpleRealDetection.intervalId s) as [h |]; cbn.
    + destruct Hinv as [_ [period ->]]. split; [done |]. apply delete_singleton_eq.
    + destruct Hinv; congruence.
  - destruct (interval_callback_keeps_timer t s) as [Hrun Hid].
    destruct (SimpleRealDetection.interval_callback t s) as [s' pubs].
    cbn [fst snd] in *. by rewrite Hrun, Hid.
  - cbn [fst snd].
    destruct (SimpleRealDetection_updateSettings_keeps_timer settings s) as [-> ->].
    exact Hinv.
  - exact Hinv.
  - exact Hinv.
  - exact Hinv.
Qed.

(** startDetection, awaited with nothing in between, is its two halves
    in a row. *)
Lemma startDetection_awaited (http : Http) (s : SimpleRealDetection.Service)
    (timers : Timers) :
  (SimpleRealDetection.run_async
     [SimpleRealDetection.CallStart;
      SimpleRealDetection.ProbeSettles (http (SimpleRealDetection.cameraUrl s))]
     (s, timers, 0%nat)).1
  = (SimpleRealDetection.step_async
       (SimpleRealDetection.Atomic (SimpleRealDetection.Start http))
       (s, timers, 0%nat)).1.
Proof.
  cbn [SimpleRealDetection.run_async SimpleRealDetection.step_async
       SimpleRealDetection.step].
  unfold SimpleRealDetection.startDetection_begin, SimpleRealDetection.startDetection.
  destruct (SimpleRealDetection.isRunning s); [done |].
  cbn [SimpleRealDetection.startDetection_settle SimpleRealDetection.cameraUrl
       SimpleRealDetection.with_isRunning].
  by destruct (http (SimpleRealDetection.cameraUrl s)).
Qed.

(** A stopDetection that falls between the two halves of a startDetection
    finds the service running without a timer; the probe then installs a
    timer on a service that is not running, and the next start leaves
    that timer behind. *)
Example stop_during_probe_leaks_a_timer :
  let st := (SimpleRealDetection.run_async
               [SimpleRealDetection.CallStart;
                SimpleRealDetection.Atomic SimpleRealDetection.Stop;
                SimpleRealDetection.ProbeSettles camera_answers;
                SimpleRealDetection.CallStart;
                SimpleRealDetection.ProbeSettles camera_answers]
               (SimpleRealDetection.new, no_timers, 0%nat)).1 in
  SimpleRealDetection.intervalId st.1.1 = Some 2%nat
  ∧ active st.1.2 = {[1%nat := 3000%Z; 2%nat := 3000%Z]}.
Proof. split; vm_compute; reflexivity. Qed.

Lemma step_async_live (e : SimpleRealDetection.AsyncEvent)
    (st : SimpleRealDetection.Service * Timers * nat) :
  handle_live st → handle_live (SimpleRealDetection.step_async e st).1.
Proof.
  destruct st as [[s timers] pending]. unfold handle_live. cbn [fst snd].
  intros Hlive. destruct e as [| probe | e]; cbn [SimpleRealDetection.step_async].
  - unfold SimpleRealDetection.startDetection_begin.
    by destruct (SimpleRealDetection.isRunning s).
  - destruct pending as [| pending]; [done |].
    destruct probe as [error | response]; cbn; [done |].
    intros h [= <-]. rewrite lookup_insert_eq. by eexists.
  - destruct e; cbn [SimpleRealDetection.step].
    + unfold SimpleRealDetection.startDetection.
      destruct (SimpleRealDetection.isRunning s); [done |].
      cbn [SimpleRealDetection.cameraUrl SimpleRealDetection.with_isRunning].
      destruct (http _) as [error | response]; cbn; [done |].
      intros h [= <-]. rewrite lookup_insert_eq. by eexists.
    + unfold SimpleRealDetection.stopDetection.
      destruct (SimpleRealDetection.isRunning s); cbn [negb]; [| done].
      cbn. destruct (SimpleRealDetection.intervalId s) eqn:Hid; cbn; [done |].
      intros h. by rewrite Hid.
    + destruct (interval_callback_keeps_timer t s) as [_ Hid].
      destruct (SimpleRealDetection.interval_callback t s) as [s' pubs].
      cbn [fst snd] in *. by rewrite Hid.
    + cbn [fst snd].
      by destruct (SimpleRealDetection_updateSettings_keeps_timer settings s) as [_ ->].
    + done.
    + done.
    + done.
Qed.

Lemma step_async_inv (e : SimpleRealDetection.AsyncEvent)
    (st : SimpleRealDetection.Service * Timers * nat) :
  simple_async_inv st → (is_stop e = true → st.2 = 0%nat) →
  simple_async_inv (SimpleRealDetection.step_async e st).1.
Proof.
  destruct st as [[s timers] pending]. unfold simple_async_inv. cbn [fst snd].
  intros Hinv Hstop.
  destruct e as [| probe | e]; cbn [SimpleRealDetection.step_async].
  - unfold SimpleRealDetection.startDetection_begin.
    destruct (SimpleRealDetection.isRunning s) eqn:Hrun; cbn [fst snd];
      [by rewrite Hrun |].
    destruct pending as [| [| pending]]; [| by destruct Hinv | done].
    unfold simple_timer_inv in Hinv. cbn [fst snd] in Hinv.
    cbn [SimpleRealDetection.isRunning SimpleRealDetection.intervalId
         SimpleRealDetection.with_isRunning].
    destruct (SimpleRealDetection.intervalId s); [destruct Hinv; congruence |].
    by destruct Hinv.
  - destruct pending as [| [| pending]]; [done | | done].
    destruct Hinv as (Hrun & Hid & Hactive).
    unfold simple_timer_inv.
    destruct probe as [error | response]; cbn.
    + by rewrite Hid.
    + split; [done |]. eexists. by rewrite Hactive, insert_empty.
  - pose proof (step_timer_inv e (s, timers)) as Hstep.
    destruct pending as [| [| pending]]; [| | done].
    + destruct (SimpleRealDetection.step e (s, timers)) as [[s' timers'] pubs].
      cbn [fst snd] in *. by apply Hstep.
    + destruct Hinv as (Hrun & Hid & Hactive). clear Hstep.
      destruct e; cbn [SimpleRealDetection.step].
      * unfold SimpleRealDetection.startDetection. by rewrite Hrun.
      * by specialize (Hstop eq_refl).
      * destruct (interval_callback_keeps_timer t s) as [Hrun' Hid'].
        destruct (SimpleRealDetection.interval_callback t s) as [s' pubs].
        cbn [fst snd] in *. by rewrite Hrun', Hid'.
      * cbn [fst snd].
        by destruct (SimpleRealDetection_updateSettings_keeps_timer settings s)
          as [-> ->].
      * done.
      * done.
      * done.
Qed.

(** X11.  The timer bookkeeping of SimpleRealDetection while calls
    overlap (a startDetection waits for its camera probe while other
    calls and ticks run).  In every schedule the handle the service holds
    names an active timer.  In every schedule in which stopDetection is
    not called while a startDetection waits for its probe, moreover: with
    no start pending, a held handle means running on exactly that one
    timer and no handle means not running and no timer; while a start is
    pending the service is marked running, holds no handle and no timer
    is active; two starts never wait at once. *)
Theorem run_keeps_one_timer (events : list SimpleRealDetection.AsyncEvent)
    (st : SimpleRealDetection.Service * Timers * nat) :
  (handle_live st → handle_live (SimpleRealDetection.run_async events st).1)
  ∧ (simple_async_inv st → stops_wait events st →
     simple_async_inv (SimpleRealDetection.run_async events st).1).
Proof.
  revert st. induction events as [| e events IH]; intros st;
    cbn [SimpleRealDetection.run_async stops_wait]; [done |].
  pose proof (step_async_live e st) as Hlive.
  pose proof (step_async_inv e st) as Hinv.
  destruct (SimpleRealDetection.step_async e st) as [st1 pubs].
  destruct (IH st1) as [IHlive IHinv].
  destruct (SimpleRealDetection.run_async events st1) as [st' pubs'].
  cbn [fst snd] in *. split.
  - intros H. by apply IHlive, Hlive.
  - intros H [Hstop Hrest]. apply IHinv; [by apply Hinv | done].
Qed.

Lemma run_keeps_one_timer_witness :
  simple_async_inv
    (SimpleRealDetection.run_async
       [SimpleRealDetection.CallStart;
        SimpleRealDetection.Atomic (SimpleRealDetection.Fire (tick_at 1700000000000));
        SimpleRealDetection.Atomic
          (SimpleRealDetection.UpdateSettings
             {| set_cameraUrl := None; set_detectionInterval := Some 5000%Z |});
        SimpleRealDetection.CallStart;
        SimpleRealDetection.ProbeSettles camera_answers;
        SimpleRealDetection.Atomic SimpleRealDetection.Stop;
        SimpleRealDetection.CallStart;
        SimpleRealDetection.ProbeSettles (inl "timeout of 5000ms exceeded"%string)]
       (SimpleRealDetection.new, no_timers, 0%nat)).1.
Proof.
  refine (proj2 (run_keeps_one_timer _ (SimpleRealDetection.new, no_timers, 0%nat)) _ _).
  - split; reflexivity.
  - cbn -[SimpleRealDetection.step_async]. repeat split; discriminate.
Defined.

(** X12.  Start followed by stop is a round trip: from an idle service
    whose camera answers, startDetection and then stopDetection both
    succeed and leave the service record and the set of active timers
    exactly as they were. *)
Theorem start_stop_round_trip (http : Http) (s : SimpleRealDetection.Service)
    (timers : Timers) (response : Response) :
  SimpleRealDetection.isRunning s = false →
  SimpleRealDetection.intervalId s = None →
  http (SimpleRealDetection.cameraUrl s) = inr response →
  active timers !! next_handle timers = None →
  let started := SimpleRealDetection.startDetection http (s, timers) in
  let stopped := SimpleRealDetection.stopDetection started.1 in
  success started.2 = true
  ∧ SimpleRealDetection.isRunning started.1.1 = true
  ∧ active started.1.2 !! next_handle timers
    = Some (SimpleRealDetection.detectionInterval s)
  ∧ success stopped.2 = true
  ∧ stopped.1.1 = s
  ∧ active stopped.1.2 = active timers.
Proof.
  intros Hidle Hid Hprobe Hfresh. cbn zeta.
  unfold SimpleRealDetection.startDetection. rewrite Hidle.
  cbn [SimpleRealDetection.cameraUrl SimpleRealDetection.with_isRunning].
  rewrite Hprobe. cbn.
  rewrite lookup_insert_eq, (delete_insert_id _ _ _ Hfresh).
  repeat split. destruct s; cbn in *. by subst.
Qed.

Lemma start_stop_round_trip_witness :
  (SimpleRealDetection.stopDetection
     (SimpleRealDetection.startDetection steady_camera
        (SimpleRealDetection.new, no_timers)).1).1.1
  = SimpleRealDetection.new.
Proof.
  apply (start_stop_round_trip steady_camera SimpleRealDetection.new no_timers
           {| status := 200; data := replicate 1000 0%Z |});
    reflexivity.
Defined.

Lemma step_frameCount (e : SimpleRealDetection.Event)
    (st : SimpleRealDetection.Service * Timers) :
  SimpleRealDetection.frameCount (SimpleRealDetection.step e st).1.1
  = (SimpleRealDetection.frameCount st.1 + (if is_fire e then 1 else 0))%Z
  ∧ (length (SimpleRealDetection.step e st).2 ≤ if is_fire e then 1 else 0)%nat.
Proof.
  destruct st as [s timers]. destruct e; cbn [SimpleRealDetection.step is_fire fst snd].
  - unfold SimpleRealDetection.startDetection, setInterval.
    repeat case_match; simplify_eq; cbn; split; lia.
  - unfold SimpleRealDetection.stopDetection.
    repeat case_match; simplify_eq; cbn; split; lia.
  - unfold SimpleRealDetection.interval_callback.
    pose proof (analyzeFrame_cases t
                  (SimpleRealDetection.with_frameCount
                     (SimpleRealDetection.frameCount s + 1) s)) as Hcases.
    destruct (SimpleRealDetection.analyzeFrame t _) as [[requested s'] detections].
    cbn [fst snd] in Hcases.
    destruct Hcases as [[-> ->] | (d & -> & -> & _)]; [cbn; split; lia |].
    destruct (SimpleRealDetection.notifyDetections _ _) as [calls [[] | msg]];
      cbn; split; lia.
  - unfold SimpleRealDetection.updateSettings.
    repeat case_match; simplify_eq; cbn; split; lia.
  - cbn; split; lia.
  - cbn; split; lia.
  - cbn; split; lia.
Qed.

(** X13.  The frame counter reported by getStatus counts the ticks: after
    any execution it has grown by exactly the number of firings of the
    interval callback, whatever they fetched or detected, and there are
    never more publications than ticks. *)
Theorem frameCount_counts_ticks (events : list SimpleRealDetection.Event)
    (st : SimpleRealDetection.Service * Timers) :
  SimpleRealDetection.status_frameCount
    (SimpleRealDetection.getStatus (SimpleRealDetection.run events st).1.1)
  = (SimpleRealDetection.frameCount st.1 + Z.of_nat (fires events))%Z
  ∧ (length (SimpleRealDetection.run events st).2 ≤ fires events)%nat.
Proof.
  cbn [SimpleRealDetection.getStatus SimpleRealDetection.status_frameCount].
  revert st. induction events as [| e events IH]; intros st;
    cbn [SimpleRealDetection.run].
  - cbn. split; lia.
  - destruct (step_frameCount e st) as [Hcount Hpubs].
    destruct (SimpleRealDetection.step e st) as [[s timers] pubs].
    specialize (IH (s, timers)).
    destruct (SimpleRealDetection.run events (s, timers)) as [st' pubs'].
    cbn [fst snd] in *. rewrite length_app.
    unfold fires in *. rewrite filter_cons.
    destruct (is_fire e); destruct (decide _); try done; cbn [length]; split; lia.
Qed.

Lemma filter_calls (detections : list Detection) (id : nat) (callbacks : list Callback) :
  filter (λ call : Call, call_id call ≠ id) (map (invoke detections) callbacks)
  = map (invoke detections) (filter (λ callback, cb_id callback ≠ id) callbacks).
Proof.
  induction callbacks as [| c callbacks IH]; [done |].
  cbn [map]. rewrite !filter_cons.
  destruct (decide (call_id (invoke detections c) ≠ id)) as [Hc | Hc],
    (decide (cb_id c ≠ id)) as [Hc' | Hc']; cbn [invoke call_id map] in *; try done.
  f_equal. exact IH.
Qed.

(** Delivery to a registry extended by one subscriber, the former
    subscribers being ones whose throws can be logged. *)
Lemma forEach_try_log_snoc (detections : list Detection)
    (callbacks : list Callback) (callback : Callback) :
  Forall (logged detections) callbacks →
  (forEach (try_log detections) (callbacks ++ [callback])).1
  = map (invoke detections) callbacks ++ [invoke detections callback].
Proof.
  intros Hlogged.
  destruct (cb_call callback detections) as [| error] eqn:Hcall.
  - rewrite forEach_try_log, map_app; [done |].
    apply Forall_app. split; [done |]. constructor; [| done].
    unfold logged. by rewrite Hcall.
  - destruct (thrown_message error) as [msg | msg] eqn:Hmsg.
    + rewrite forEach_try_log, map_app; [done |].
      apply Forall_app. split; [done |]. constructor; [| done].
      unfold logged. rewrite Hcall. by exists msg.
    + rewrite (forEach_try_log_aborts detections callbacks [] callback error msg);
        [by rewrite map_app | done..].
Qed.

(** X14.  The subscriber registry, for registered subscribers whose throws
    the catch block can log (they return, or throw a value whose
    [message] can be read): a callback added with onDetection is called
    last at the next notification, whatever it does itself; after
    removeDetectionCallback the notification makes exactly the former
    calls minus those of the removed callback (all its registrations), in
    the same order and with the same outcomes; and adding then removing a
    callback that was not registered restores the service. *)
Theorem registry_and_notification (callback : Callback)
    (s : SimpleRealDetection.Service) (detections : list Detection) :
  Forall (logged detections) (SimpleRealDetection.detectionCallbacks s) →
  (SimpleRealDetection.notifyDetections detections
     (SimpleRealDetection.onDetection callback s)).1
  = (SimpleRealDetection.notifyDetections detections s).1
    ++ [invoke detections callback]
  ∧ (SimpleRealDetection.notifyDetections detections
       (SimpleRealDetection.removeDetectionCallback callback s)).1
    = filter (λ call : Call, call_id call ≠ cb_id callback)
             (SimpleRealDetection.notifyDetections detections s).1
  ∧ (Forall (λ c, cb_id c ≠ cb_id callback) (SimpleRealDetection.detectionCallbacks s) →
     SimpleRealDetection.removeDetectionCallback callback
       (SimpleRealDetection.onDetection callback s) = s).
Proof.
  intros Hlogged. unfold SimpleRealDetection.notifyDetections.
  cbn [SimpleRealDetection.onDetection SimpleRealDetection.removeDetectionCallback
       SimpleRealDetection.detectionCallbacks
       SimpleRealDetection.with_detectionCallbacks].
  rewrite forEach_try_log_snoc by done.
  rewrite (forEach_try_log detections (SimpleRealDetection.detectionCallbacks s)) by done.
  rewrite forEach_try_log.
  2: { apply Forall_forall. intros c [_ Hc]%list_elem_of_filter.
       by eapply Forall_forall in Hlogged. }
  cbn [fst].
  split; [done |]. split; [by rewrite filter_calls |].
  intros Hfresh. destruct s as [run h cam int cbs fc ld ldt cd]. cbn in *.
  unfold SimpleRealDetection.removeDetectionCallback, SimpleRealDetection.onDetection,
    SimpleRealDetection.with_detectionCallbacks.
  cbn [SimpleRealDetection.isRunning SimpleRealDetection.intervalId
       SimpleRealDetection.cameraUrl SimpleRealDetection.detectionInterval
       SimpleRealDetection.detectionCallbacks SimpleRealDetection.frameCount
       SimpleRealDetection.lastDetection SimpleRealDetection.lastDetectionTime
       SimpleRealDetection.detectionCooldown].
  f_equal. rewrite filter_app, filter_cons.
  destruct (decide (cb_id callback ≠ cb_id callback)); [done |].
  rewrite filter_nil, app_nil_r.
  clear Hlogged. induction Hfresh as [| c cbs Hc Hcbs IH]; [done |].
  rewrite filter_cons. destruct (decide _); [by rewrite IH | done].
Qed.

Lemma registry_and_notification_witness :
  let s := SimpleRealDetection.onDetection (failing_callback 3 "boom")
             (SimpleRealDetection.onDetection (quiet_callback 1)
                SimpleRealDetection.new) in
  (SimpleRealDetection.notifyDetections []
     (SimpleRealDetection.onDetection (null_thrower 7) s)).1
  = [invoke [] (quiet_callback 1); invoke [] (failing_callback 3 "boom");
     invoke [] (null_thrower 7)]
  ∧ (SimpleRealDetection.notifyDetections []
       (SimpleRealDetection.removeDetectionCallback (quiet_callback 1) s)).1
    = [invoke [] (failing_callback 3 "boom")].
Proof.
  intros s.
  destruct (registry_and_notification (null_thrower 7) s []) as (Hadd & _ & _).
  { repeat constructor. by exists "boom"%string. }
  destruct (registry_and_notification (quiet_callback 1) s []) as (_ & Hremove & _).
  { repeat constructor. by exists "boom"%string. }
  split; [by rewrite Hadd | by rewrite Hremove].
Defined.

(** X24.  How far a notification gets, in SimpleRealDetection and in
    AnimalDetectionService alike.  When every registered subscriber
    returns or throws a value whose [message] can be read, every
    subscriber is called exactly once, in registration order and with the
    detection list, and notifyDetections returns normally.  Otherwise the
    calls are those up to and including the first subscriber whose thrown
    value has no readable [message], and notifyDetections throws what the
    reading of [message] threw. *)
Theorem notifyDetections_delivery (detections : list Detection)
    (callbacks : list Callback) :
  let simple :=
    SimpleRealDetection.with_detectionCallbacks callbacks SimpleRealDetection.new in
  let model :=
    AnimalDetectionService.with_detectionCallbacks callbacks AnimalDetectionService.new in
  (Forall (logged detections) callbacks →
   SimpleRealDetection.notifyDetections detections simple
   = (map (invoke detections) callbacks, JS.Returned ())
   ∧ AnimalDetectionService.notifyDetections detections model
     = (map (invoke detections) callbacks, JS.Returned ()))
  ∧ (∀ before bad after error msg,
       callbacks = before ++ bad :: after →
       Forall (logged detections) before →
       cb_call bad detections = Throws error →
       thrown_message error = JS.Threw msg →
       SimpleRealDetection.notifyDetections detections simple
       = (map (invoke detections) (before ++ [bad]), JS.Threw msg)
       ∧ AnimalDetectionService.notifyDetections detections model
         = (map (invoke detections) (before ++ [bad]), JS.Threw msg)).
Proof.
  cbn zeta.
  unfold SimpleRealDetection.notifyDetections, AnimalDetectionService.notifyDetections.
  cbn [SimpleRealDetection.detectionCallbacks SimpleRealDetection.with_detectionCallbacks
       AnimalDetectionService.detectionCallbacks
       AnimalDetectionService.with_detectionCallbacks].
  split.
  - intros Hlogged. by rewrite forEach_try_log.
  - intros before bad after error msg -> Hbefore Hbad Hmsg.
    by rewrite (forEach_try_log_aborts detections before after bad error msg).
Qed.

Lemma notifyDetections_delivery_witness :
  SimpleRealDetection.notifyDetections []
    (SimpleRealDetection.with_detectionCallbacks
       [quiet_callback 1; failing_callback 2 "boom"; quiet_callback 3]
       SimpleRealDetection.new)
  = ([invoke [] (quiet_callback 1); invoke [] (failing_callback 2 "boom");
      invoke [] (quiet_callback 3)], JS.Returned ())
  ∧ AnimalDetectionService.notifyDetections []
      (AnimalDetectionService.with_detectionCallbacks
         [failing_callback 2 "boom"; null_thrower 4; quiet_callback 3]
         AnimalDetectionService.new)
    = ([invoke [] (failing_callback 2 "boom"); invoke [] (null_thrower 4)],
       JS.Threw "Cannot read properties of null (reading 'message')").
Proof.
  split.
  - apply (notifyDetections_delivery []
             [quiet_callback 1; failing_callback 2 "boom"; quiet_callback 3]).
    repeat constructor. by exists "boom"%string.
  - destruct (notifyDetections_delivery []
                [failing_callback 2 "boom"; null_thrower 4; quiet_callback 3])
      as [_ Haborts].
    apply (Haborts [failing_callback 2 "boom"] (null_thrower 4) [quiet_callback 3]
                   thrown_null); [reflexivity | | reflexivity | reflexivity].
    repeat constructor. by exists "boom"%string.
Defined.

(** X15.  POST /start with a camera URL, sent while the service is
    running, is answered 'Detection already running' and leaves the timer
    alone, yet the URL has been stored: the following ticks request the
    endpoints of the new URL. *)
Theorem post_start_while_running (url : string) (http : Http)
    (s : SimpleRealDetection.Service) (timers : Timers) :
  SimpleRealDetection.isRunning s = true → url ≠ EmptyString →
  let answer := DetectionRoutes.post_start (Some url) http (s, timers) in
  answer.2 = {| success := false; message := "Detection already running" |}
  ∧ SimpleRealDetection.intervalId answer.1.1 = SimpleRealDetection.intervalId s
  ∧ answer.1.2 = timers
  ∧ SimpleRealDetection.cameraUrls answer.1.1
    = [url ++ "/shot.jpg"; url ++ "/snapshot.jpg"; url ++ "/image.jpg";
       url ++ "/capture.jpg"; url]%string.
Proof.
  intros Hrun Hurl. cbn zeta. unfold DetectionRoutes.post_start.
  cbn [truthy_string]. destruct (decide (url = EmptyString)); [done |].
  unfold SimpleRealDetection.startDetection, SimpleRealDetection.setCameraUrl.
  cbn [SimpleRealDetection.isRunning SimpleRealDetection.with_cameraUrl].
  by rewrite Hrun.
Qed.

Lemma post_start_while_running_witness :
  SimpleRealDetection.cameraUrls
    (DetectionRoutes.post_start (Some "http://10.0.0.9:8080"%string) dead_camera
       (SimpleRealDetection.startDetection steady_camera
          (SimpleRealDetection.new, no_timers)).1).1.1
  = ["http://10.0.0.9:8080/shot.jpg"; "http://10.0.0.9:8080/snapshot.jpg";
     "http://10.0.0.9:8080/image.jpg"; "http://10.0.0.9:8080/capture.jpg";
     "http://10.0.0.9:8080"]%string.
Proof.
  apply (post_start_while_running "http://10.0.0.9:8080" dead_camera
           (SimpleRealDetection.startDetection steady_camera
              (SimpleRealDetection.new, no_timers)).1.1
           (SimpleRealDetection.startDetection steady_camera
              (SimpleRealDetection.new, no_timers)).1.2).
  - reflexivity.
  - discriminate.
Defined.

(** ** The heuristic analysis of RealAnimalDetectionService *)

Section Heuristic_more.
Import RealAnimalDetectionService.

Lemma detectMotion_same_frame (sharp : Sharp) (s : Service) (frame : list Z) :
  lastFrameData s = Some frame →
  JS.or_zero (motion_score (detectMotion sharp s frame)) == 0.
Proof.
  intros Hlast.
  destruct (grayscale_320x240 sharp frame) as [raster |] eqn:Hgray.
  - destruct raster as [| c raster].
    + unfold detectMotion. rewrite Hlast, Hgray. reflexivity.
    + destruct (detectMotion_identical sharp s frame frame (c :: raster))
        as (m & -> & Hm); done.
  - unfold detectMotion. rewrite Hlast, Hgray. reflexivity.
Qed.

Lemma detectMotion_score_le_1 (sharp : Sharp) (s : Service) (current : list Z) :
  JS.or_zero (motion_score (detectMotion sharp s current)) <= 1.
Proof.
  unfold detectMotion.
  destruct (lastFrameData s) as [lastFrame |]; [| cbn; lra].
  destruct (grayscale_320x240 sharp current) as [cur |]; [| cbn; lra].
  destruct (grayscale_320x240 sharp lastFrame) as [prev |]; [| cbn; lra].
  destruct (foldl _ _ _) as [totalDiff changes].
  cbn [motion_score].
  destruct (ratio changes (length cur)); [| cbn; lra].
  destruct (num_div totalDiff (length cur)); [| cbn; lra].
  cbn [JS.or_zero default from_option id]. apply Q.le_min_l.
Qed.

(** Without motion the three remaining weights cannot carry the sum past
    a threshold of 0.6. *)
Lemma quiet_frame_no_detection (sharp : Sharp) (now : string) (r_x r_y r_w r_h : Q)
    (s : Service) (current : list Z) :
  confidenceThreshold s == 0.6 →
  JS.or_zero (motion_score (detectMotion sharp s current)) == 0 →
  (analyzeImageForAnimals sharp now r_x r_y r_w r_h s current).2 = [].
Proof.
  intros Hthr Hquiet. unfold analyzeImageForAnimals.
  destruct (metadata sharp current); [| done]. cbn [snd].
  unfold combineAnalysisResults. cbn [combined_confidence].
  pose proof (analyzeShapes_score_le_1 sharp current).
  pose proof (analyzeColorPatterns_score_le_1 sharp current).
  pose proof (analyzeTextures_score_le_1 sharp current).
  match goal with
  | |- (if JS.gt ?c ?t then _ else _) = _ =>
      assert (Hle : JS.gt c t = false) by (apply JS_gt_false; lra)
  end.
  by rewrite Hle.
Qed.

(** The non-negative part of the pixel loop: [totalDiff] never goes below
    its start. *)
Lemma motion_pixels_nonneg (current previous : list Z) (indices : list nat)
    (acc : Num * Q) (total : Q) :
  (∀ a, acc.1 = Some a → 0 <= a) →
  (foldl (motion_pixel current previous) acc indices).1 = Some total →
  0 <= total.
Proof.
  revert acc. induction indices as [| i indices IH]; intros acc Hacc Htotal.
  - by apply Hacc.
  - cbn [foldl] in Htotal. apply (IH _ ) in Htotal; [done |].
    intros a. unfold motion_pixel.
    destruct (current !! i) as [c |]; [| apply Hacc].
    cbn [fst]. destruct (previous !! i) as [p |]; [| by destruct acc.1].
    destruct acc.1 as [a0 |] eqn:Ha0; [| done].
    pose proof (Hacc a0 eq_refl).
    pose proof (Qabs_nonneg (inject_Z c - inject_Z p)).
    unfold JS.Math_abs. set (diff := Qabs _) in *.
    unfold num_add. intros Ha. apply (inj Some) in Ha. subst a. lra.
Qed.

End Heuristic_more.

(** X16.  With the threshold 0.6 of the constructor, the heuristic
    service cannot detect anything without motion: the first tick (no
    previous frame stored) returns no detection, and so does a tick whose
    frame is the very frame the tick before it analysed. *)
Theorem still_camera_never_detects (http : Http)
    (sharp : RealAnimalDetectionService.Sharp)
    (now now' : string) (r_x r_y r_w r_h r_x' r_y' r_w' r_h' : Q)
    (s : RealAnimalDetectionService.Service) :
  RealAnimalDetectionService.confidenceThreshold s == 0.6 →
  let first :=
    RealAnimalDetectionService.processFrameWithRealAnalysis
      http sharp now r_x r_y r_w r_h s in
  let second :=
    RealAnimalDetectionService.processFrameWithRealAnalysis
      http sharp now' r_x' r_y' r_w' r_h' first.1 in
  (RealAnimalDetectionService.lastFrameData s = None → first.2 = [])
  ∧ second.2 = [].
Proof.
  intros Hthr first second. subst first second.
  unfold RealAnimalDetectionService.processFrameWithRealAnalysis. split.
  - intros Hnone. destruct (http _) as [error | response]; [done |].
    destruct (negb _); [done |].
    apply quiet_frame_no_detection; [done |].
    unfold RealAnimalDetectionService.detectMotion. by rewrite Hnone.
  - destruct (http (RealAnimalDetectionService.cameraUrl s))
      as [error | response] eqn:Hhttp; cbn [fst].
    { by rewrite Hhttp. }
    destruct (negb (status response =? 200)%Z) eqn:Hstatus; cbn [fst].
    { by rewrite Hhttp, Hstatus. }
    destruct (RealAnimalDetectionService.metadata sharp (data response)) eqn:Hmeta.
    + assert (Hfirst :
        (RealAnimalDetectionService.analyzeImageForAnimals
           sharp now r_x r_y r_w r_h s (data response)).1
        = RealAnimalDetectionService.with_lastFrameData (Some (data response)) s).
      { unfold RealAnimalDetectionService.analyzeImageForAnimals. by rewrite Hmeta. }
      rewrite Hfirst.
      cbn [RealAnimalDetectionService.cameraUrl
           RealAnimalDetectionService.with_lastFrameData].
      rewrite Hhttp, Hstatus.
      apply quiet_frame_no_detection; [done |].
      by apply detectMotion_same_frame.
    + assert (Hfirst :
        (RealAnimalDetectionService.analyzeImageForAnimals
           sharp now r_x r_y r_w r_h s (data response)).1 = s).
      { unfold RealAnimalDetectionService.analyzeImageForAnimals. by rewrite Hmeta. }
      rewrite Hfirst, Hhttp, Hstatus.
      unfold RealAnimalDetectionService.analyzeImageForAnimals. by rewrite Hmeta.
Qed.

Lemma still_camera_never_detects_witness :
  (RealAnimalDetectionService.processFrameWithRealAnalysis
     (frozen_camera [255%Z]) moving_scene "t" 0.5 0.5 0.5 0.5
     (RealAnimalDetectionService.processFrameWithRealAnalysis
        (frozen_camera [255%Z]) moving_scene "t" 0.5 0.5 0.5 0.5
        RealAnimalDetectionService.new).1).2 = [].
Proof.
  apply (still_camera_never_detects (frozen_camera [255%Z]) moving_scene "t" "t"
           0.5 0.5 0.5 0.5 0.5 0.5 0.5 0.5 RealAnimalDetectionService.new).
  reflexivity.
Defined.

(** X17.  analyzeImageForAnimals returns at most one detection; its
    confidence exceeds confidenceThreshold and never exceeds 1, and its
    class is "animal", "large_mammal" or "elephant".  A frame whose
    metadata sharp can read becomes the stored previous frame whether or
    not a detection fired; a frame it cannot read changes nothing. *)
Theorem analyzeImageForAnimals_spec (sharp : RealAnimalDetectionService.Sharp)
    (now : string) (r_x r_y r_w r_h : Q)
    (s : RealAnimalDetectionService.Service) (frame : list Z) :
  let result :=
    RealAnimalDetectionService.analyzeImageForAnimals sharp now r_x r_y r_w r_h s frame in
  (result.2 = []
   ∨ ∃ d, result.2 = [d]
          ∧ RealAnimalDetectionService.confidenceThreshold s < confidence d
          ∧ confidence d <= 1
          ∧ class d ∈ heuristic_classes)
  ∧ match RealAnimalDetectionService.metadata sharp frame with
    | Some _ => RealAnimalDetectionService.lastFrameData result.1 = Some frame
    | None => result = (s, [])
    end.
Proof.
  cbn zeta. unfold RealAnimalDetectionService.analyzeImageForAnimals.
  destruct (RealAnimalDetectionService.metadata sharp frame); [| by split; [left |]].
  cbn [fst snd]. split; [| done].
  destruct (JS.gt _ _) eqn:Hgt; [| by left].
  right. eexists. split; [reflexivity |]. cbn [confidence class].
  apply JS_gt_true in Hgt. split; [exact Hgt |]. split.
  - unfold RealAnimalDetectionService.combineAnalysisResults.
    cbn [RealAnimalDetectionService.combined_confidence].
    pose proof (detectMotion_score_le_1 sharp s frame).
    pose proof (analyzeShapes_score_le_1 sharp frame).
    pose proof (analyzeColorPatterns_score_le_1 sharp frame).
    pose proof (analyzeTextures_score_le_1 sharp frame).
    lra.
  - unfold RealAnimalDetectionService.combineAnalysisResults, heuristic_classes.
    cbn [RealAnimalDetectionService.animalType].
    repeat case_match; set_solver.
Qed.

(** X18.  The motion score saturates: once at least a fifth of the pixels
    changed by more than 30, detectMotion reports the score 1. *)
Theorem detectMotion_saturates (sharp : RealAnimalDetectionService.Sharp)
    (s : RealAnimalDetectionService.Service) (current : list Z) (cp m : Q) :
  RealAnimalDetectionService.changePercentage
    (RealAnimalDetectionService.detectMotion sharp s current) = Some cp →
  RealAnimalDetectionService.motion_score
    (RealAnimalDetectionService.detectMotion sharp s current) = Some m →
  0.2 <= cp →
  m == 1.
Proof.
  unfold RealAnimalDetectionService.detectMotion.
  destruct (RealAnimalDetectionService.lastFrameData s) as [lastFrame |]; [| done].
  destruct (RealAnimalDetectionService.grayscale_320x240 sharp current) as [cur |];
    [| done].
  destruct (RealAnimalDetectionService.grayscale_320x240 sharp lastFrame) as [prev |];
    [| done].
  destruct (foldl _ _ _) as [totalDiff changes] eqn:Hfold.
  cbn [RealAnimalDetectionService.changePercentage
       RealAnimalDetectionService.motion_score].
  intros Hcp Hm Hfifth. rewrite Hcp in Hm.
  destruct totalDiff as [total |]; [| done].
  assert (Htotal : 0 <= total).
  { apply (motion_pixels_nonneg cur prev (seq 0 (length cur)) (Some 0, 0)).
    - cbn. intros a [= <-]. lra.
    - by rewrite Hfold. }
  destruct (length cur) as [| n]; [done |].
  cbn [RealAnimalDetectionService.num_div RealAnimalDetectionService.ratio] in Hm.
  injection Hm as <-.
  set (len := inject_Z (Z.of_nat (S n))).
  assert (Hlen : 0 < len).
  { subst len. change 0 with (inject_Z 0). rewrite <- Zlt_Qlt. lia. }
  assert (Havg : 0 <= total / len) by (apply Qle_shift_div_l; lra).
  unfold JS.Math_min. apply Q.min_l.
  set (avg := total / len) in *.
  unfold Qdiv. assert (/ 255 == 1 # 255) as -> by reflexivity.
  assert (/ 2 == 1 # 2) as -> by reflexivity. lra.
Qed.

Lemma detectMotion_saturates_witness :
  ∃ m, RealAnimalDetectionService.motion_score
         (RealAnimalDetectionService.detectMotion moving_scene
            (RealAnimalDetectionService.with_lastFrameData (Some [0%Z])
               RealAnimalDetectionService.new) [255%Z]) = Some m
       ∧ m == 1.
Proof.
  eexists. split; [vm_compute; reflexivity |].
  apply (detectMotion_saturates moving_scene
           (RealAnimalDetectionService.with_lastFrameData (Some [0%Z])
              RealAnimalDetectionService.new) [255%Z] 1).
  - vm_compute. reflexivity.
  - vm_compute. reflexivity.
  - discriminate.
Defined.

Section Texture_more.
Import RealAnimalDetectionService.

Lemma foldl_fixed {A B : Type} (f : A → B → A) (l : list B) (a : A) :
  Forall (λ b, f a b = a) l → foldl f a l = a.
Proof.
  induction 1 as [| b l Hb _ IH]; [done |]. cbn [foldl]. by rewrite Hb.
Qed.

Lemma texture_positions_far :
  Forall (λ pos : Z * Z, (3210 <= pos.1 * 320 + pos.2)%Z) texture_positions.
Proof.
  unfold texture_positions, texture_grid. cbn.
  repeat (constructor; [cbn; lia |]). constructor.
Qed.

Lemma texture_patch_uniform (gray : list Z) (c py px : Z) :
  Forall (eq c) gray → Forall (eq (inject_Z c)) (texture_patch gray py px).
Proof.
  intros Hgray. unfold texture_patch.
  apply Forall_flat_map, Forall_forall. intros dy _.
  apply Forall_flat_map, Forall_forall. intros dx _.
  cbn zeta. destruct (_ && _); [| done].
  destruct (gray !! _) as [v |] eqn:Hv; [| done].
  apply list_elem_of_lookup_2 in Hv.
  rewrite Forall_forall in Hgray. apply Hgray in Hv as <-.
  by constructor.
Qed.

Lemma sum_uniform (q : Q) (l : list Q) (a : Q) :
  Forall (eq q) l →
  foldl Qplus a l == a + q * inject_Z (Z.of_nat (length l)).
Proof.
  intros Hl. revert a. induction Hl as [| b l <- _ IH]; intros a.
  - cbn. ring.
  - cbn [foldl length]. rewrite IH, Nat2Z.inj_succ. unfold Z.succ.
    rewrite inject_Z_plus. ring.
Qed.

Lemma deviations_uniform (mean q : Q) (l : list Q) (a : Q) :
  mean == q → Forall (eq q) l →
  foldl (λ a b : Q, a + (b - mean) * (b - mean)) a l == a.
Proof.
  intros Hmean Hl. revert a. induction Hl as [| b l <- _ IH]; intros a.
  - reflexivity.
  - cbn [foldl]. rewrite IH, Hmean. ring.
Qed.

Lemma texture_sample_uniform (gray : list Z) (c : Z) (acc : Q * Q) (pos : Z * Z) :
  Forall (eq c) gray → acc.1 == 0 → (texture_sample gray acc pos).1 == 0.
Proof.
  intros Hgray Hacc. destruct pos as [py px]. unfold texture_sample.
  destruct (_ <? _)%Z; [| done].
  pose proof (texture_patch_uniform gray c py px Hgray) as Hpatch.
  destruct (texture_patch gray py px) as [| v patch] eqn:Hp; [done |].
  cbn [fst]. set (whole := v :: patch) in *.
  set (n := inject_Z (Z.of_nat (length whole))).
  assert (Hn : 0 < n).
  { subst n whole. change 0 with (inject_Z 0). rewrite <- Zlt_Qlt. cbn [length]. lia. }
  assert (Hmean : sum_list whole / n == inject_Z c).
  { unfold sum_list. rewrite (sum_uniform (inject_Z c)) by done.
    fold n. field. lra. }
  rewrite (deviations_uniform _ (inject_Z c)) by done.
  rewrite Hacc. unfold Qdiv. ring.
Qed.

Lemma texture_samples_uniform (gray : list Z) (c : Z) (positions : list (Z * Z))
    (acc : Q * Q) :
  Forall (eq c) gray → acc.1 == 0 →
  (foldl (texture_sample gray) acc positions).1 == 0.
Proof.
  intros Hgray. revert acc.
  induction positions as [| pos positions IH]; intros acc Hacc; [done |].
  cbn [foldl]. apply IH. by apply texture_sample_uniform with c.
Qed.

Lemma texture_samples_small (gray : list Z) (acc : Q * Q) :
  (length gray ≤ 3530)%nat →
  foldl (texture_sample gray) acc texture_positions = acc.
Proof.
  intros Hsmall. apply foldl_fixed.
  eapply Forall_impl; [apply texture_positions_far |].
  intros [py px] Hfar. cbn [fst snd] in Hfar. unfold texture_sample.
  destruct (_ <? _)%Z eqn:Hlt; [| done].
  apply Z.ltb_lt in Hlt. lia.
Qed.

End Texture_more.

(** X19.  analyzeTextures finds no texture in a flat image or in a small
    one: when the grayscale raster is one single gray value, or has at
    most 3530 bytes (no sample position lies 320 bytes before its end),
    the texture score is 0 and hasTexture is false. *)
Theorem analyzeTextures_flat_or_small (sharp : RealAnimalDetectionService.Sharp)
    (image gray : list Z) :
  RealAnimalDetectionService.grayscale_raw sharp image = Some gray →
  (length gray ≤ 3530)%nat ∨ (∃ c, Forall (eq c) gray) →
  ∃ t, RealAnimalDetectionService.texture_score
         (RealAnimalDetectionService.analyzeTextures sharp image) = Some t
       ∧ t == 0
       ∧ RealAnimalDetectionService.hasTexture
           (RealAnimalDetectionService.analyzeTextures sharp image) = false.
Proof.
  intros Hgray Hcase. unfold RealAnimalDetectionService.analyzeTextures.
  rewrite Hgray. fold texture_positions.
  destruct (foldl _ _ _) as [textureVariance samples] eqn:Hfold.
  assert (Hvariance : textureVariance == 0).
  { destruct Hcase as [Hsmall | [c Hflat]].
    - rewrite texture_samples_small in Hfold by done. by injection Hfold as <- <-.
    - change textureVariance with (textureVariance, samples).1. rewrite <- Hfold.
      by apply texture_samples_uniform with c. }
  cbn [RealAnimalDetectionService.texture_score RealAnimalDetectionService.hasTexture].
  set (avg := if JS.gt samples 0 then textureVariance / samples else 0).
  assert (Havg : avg == 0).
  { subst avg. destruct (JS.gt samples 0); [| reflexivity].
    rewrite Hvariance. unfold Qdiv. ring. }
  assert (Hscore : JS.Math_min 1 (avg / 1000) == 0).
  { unfold JS.Math_min. rewrite Q.min_r.
    - rewrite Havg. reflexivity.
    - rewrite Havg. discriminate. }
  eexists. split; [reflexivity |]. split; [exact Hscore |].
  apply JS_gt_false. rewrite Hscore. discriminate.
Qed.

Lemma analyzeTextures_flat_or_small_witness :
  ∃ t, RealAnimalDetectionService.texture_score
         (RealAnimalDetectionService.analyzeTextures flat_scene []) = Some t
       ∧ t == 0
       ∧ RealAnimalDetectionService.hasTexture
           (RealAnimalDetectionService.analyzeTextures flat_scene []) = false.
Proof.
  apply (analyzeTextures_flat_or_small flat_scene [] (replicate 4000 90%Z)).
  - reflexivity.
  - right. exists 90%Z. by apply Forall_replicate.
Defined.

(** ** The lifecycle of AnimalDetectionService *)

Section ADS_lifecycle.
Import AnimalDetectionService.

Lemma ads_start_inv (env : Env) (st : Service * Timers) :
  ads_timer_inv st → ads_timer_inv (startDetection env st).1.
Proof.
  destruct st as [s timers]. unfold ads_timer_inv, startDetection.
  cbn [fst snd]. intros Hinv.
  destruct (isRunning s) eqn:Hrun.
  { cbn [fst snd]. by rewrite Hrun. }
  destruct (intervalId s) as [h |] eqn:Hid; [by destruct Hinv |].
  unfold initializeModel.
  destruct (model (with_isRunning true s)), (model_loads env);
    destruct (testCameraConnection env _);
    cbn [fst snd intervalId isRunning detectionInterval with_isRunning with_model
         with_intervalId setInterval active];
    rewrite ?Hid, ?Hinv, ?insert_empty; done.
Qed.

Lemma ads_stop_inv (st : Service * Timers) :
  ads_timer_inv st → ads_timer_inv (stopDetection st).1.
Proof.
  destruct st as [s timers]. unfold ads_timer_inv, stopDetection.
  cbn [fst snd]. intros Hinv.
  destruct (isRunning s) eqn:Hrun; cbn [negb fst snd]; [| by rewrite Hrun].
  cbn [intervalId with_isRunning].
  destruct (intervalId s) as [h |] eqn:Hid;
    cbn [fst snd intervalId with_intervalId with_isRunning clearInterval active].
  - destruct Hinv as [_ ->]. apply delete_singleton_eq.
  - by rewrite Hid.
Qed.

Lemma ads_update_inv (env : Env) (settings : Settings) (st : Service * Timers) :
  ads_timer_inv st → ads_timer_inv (updateSettings env settings st).
Proof.
  destruct st as [s timers]. intros Hinv. unfold updateSettings.
  set (s1 := match truthy_string (set_cameraUrl settings) with
             | Some u => with_cameraUrl u s
             | None => s
             end).
  assert (Hinv1 : ads_timer_inv (s1, timers)).
  { subst s1. by destruct (truthy_string _). }
  clearbody s1. clear Hinv.
  destruct (truthy_number _) as [ms |]; [| done].
  destruct (isRunning (with_detectionInterval ms s1)) eqn:Hrun.
  - set (s2 := with_detectionInterval ms s1) in *.
    assert (Hstopped : ads_timer_inv (stopDetection (s2, timers)).1).
    { unfold ads_timer_inv in Hinv1 |- *. cbn [fst snd] in Hinv1.
      unfold stopDetection. rewrite Hrun. cbn [negb intervalId with_isRunning].
      subst s2. cbn [intervalId with_detectionInterval].
      destruct (intervalId s1) as [h |] eqn:Hid;
        cbn [fst snd intervalId with_intervalId with_isRunning
             with_detectionInterval clearInterval active].
      - destruct Hinv1 as [_ ->]. apply delete_singleton_eq.
      - by rewrite Hid. }
    destruct (stopDetection (s2, timers)) as [[s3 timers3] o3].
    pose proof (ads_start_inv env (s3, timers3) Hstopped) as Hstarted.
    by destruct (startDetection env (s3, timers3)) as [[s4 timers4] o4].
  - unfold ads_timer_inv in Hinv1 |- *. cbn [fst snd] in *.
    cbn [intervalId isRunning with_detectionInterval] in *.
    destruct (intervalId s1); [| done]. destruct Hinv1. congruence.
Qed.

Lemma ads_apply_op_inv (op : Op) (st : Service * Timers) :
  ads_timer_inv st → ads_timer_inv (apply_op op st).
Proof.
  intros Hinv. destruct op; cbn [apply_op].
  - by apply ads_start_inv.
  - by apply ads_stop_inv.
  - by apply ads_update_inv.
  - by destruct st.
  - by destruct st.
Qed.

End ADS_lifecycle.

Section ADS_async.
Import AnimalDetectionService.

(** startDetection, awaited with nothing in between, is its halves in a
    row. *)
Lemma AnimalDetectionService_start_awaited (env : Env) (s : Service) (timers : Timers) :
  let s1 := (startDetection_begin s).1 in
  let s2 := if model s then s1 else initializeModel_settle (model_loads env) s1 in
  run_async [CallStart; ModelSettles 0 (model_loads env);
             ProbeSettles 0 (http env (cameraUrl s2))] (s, timers, [])
  = ((startDetection env (s, timers)).1, []).
Proof.
  cbn zeta. unfold run_async. cbn [foldl step_async].
  unfold startDetection, startDetection_begin.
  destruct (isRunning s) eqn:Hrun; cbn [fst snd app option_list]; [done |].
  cbn [model with_isRunning].
  unfold initializeModel, initializeModel_settle, testCameraConnection.
  destruct (model s), (model_loads env); cbn [lookup list_lookup insert list_insert];
    cbn [cameraUrl with_model with_isRunning];
    by destruct (http env (cameraUrl s)).
Qed.

(** updateSettings does not wait for the start it makes: a stopDetection
    right after it finds the service running without a timer, and the
    pending start then installs a timer on a service that is not
    running. *)
Example stop_after_updateSettings_leaves_a_timer :
  let st := run_async
              [CallUpdateSettings
                 {| set_cameraUrl := None; set_detectionInterval := Some 5000%Z |};
               Atomic OpStop;
               ModelSettles 0 false;
               ProbeSettles 0 camera_answers]
              (running_service, []) in
  isRunning st.1.1 = false ∧ active st.1.2 = {[2%nat := 5000%Z]}.
Proof. split; vm_compute; reflexivity. Qed.

Lemma ads_step_async_inv (e : AsyncOp) (st : Service * Timers * list Phase) :
  ads_async_inv st → (stops e = true → st.2 = []) →
  ads_async_inv (step_async e st).
Proof.
  destruct st as [[s timers] pending]. unfold ads_async_inv. cbn [fst snd].
  intros Hinv Hstops.
  destruct e as [| settings | k loads | k probe | op]; cbn [step_async].
  - (* startDetection up to its await *)
    unfold startDetection_begin.
    destruct (isRunning s) eqn:Hrun; cbn [fst snd option_list].
    { rewrite app_nil_r. by rewrite Hrun. }
    destruct pending as [| p [| p' pending]]; [| by destruct Hinv | done].
    cbn [app]. unfold ads_timer_inv in Hinv. cbn [fst snd] in Hinv.
    cbn [isRunning intervalId with_isRunning].
    destruct (intervalId s); [destruct Hinv; congruence | done].
  - (* updateSettings up to its return *)
    unfold updateSettings_call.
    set (s1 := match truthy_string (set_cameraUrl settings) with
               | Some u => with_cameraUrl u s
               | None => s
               end).
    assert (Hs1 : isRunning s1 = isRunning s ∧ intervalId s1 = intervalId s
                  ∧ detectionInterval s1 = detectionInterval s).
    { subst s1. by destruct (truthy_string _). }
    destruct Hs1 as (Hrun1 & Hid1 & Hint1). clearbody s1.
    cbn [stops] in Hstops.
    destruct (truthy_number (set_detectionInterval settings)) as [ms |] eqn:Hms.
    + rewrite bool_decide_eq_true_2 in Hstops by by eexists.
      rewrite (Hstops eq_refl) in Hinv |- *. cbn [app].
      unfold ads_timer_inv in Hinv. cbn [fst snd] in Hinv.
      destruct (isRunning (with_detectionInterval ms s1)) eqn:Hrun.
      * assert (Hstopped :
          isRunning (stopDetection (with_detectionInterval ms s1, timers)).1.1 = false
          ∧ intervalId (stopDetection (with_detectionInterval ms s1, timers)).1.1 = None
          ∧ active (stopDetection (with_detectionInterval ms s1, timers)).1.2 = ∅).
        { unfold stopDetection. rewrite Hrun.
          cbn [negb intervalId with_isRunning with_detectionInterval].
          rewrite Hid1.
          destruct (intervalId s) as [h |] eqn:Hid;
            cbn [fst snd isRunning intervalId with_intervalId with_isRunning
                 with_detectionInterval clearInterval active].
          - destruct Hinv as [_ ->]. by rewrite delete_singleton_eq.
          - done. }
        destruct (stopDetection (with_detectionInterval ms s1, timers))
          as [[s3 timers3] o3]. cbn [fst snd] in Hstopped.
        destruct Hstopped as (Hrun3 & Hid3 & Hactive3).
        unfold startDetection_begin. rewrite Hrun3.
        cbn [fst snd option_list isRunning intervalId with_isRunning]. done.
      * cbn [fst snd option_list]. unfold ads_timer_inv.
        cbn [fst snd intervalId isRunning detectionInterval with_detectionInterval] in *.
        rewrite Hid1. rewrite Hrun1 in Hrun.
        destruct (intervalId s); [destruct Hinv; congruence | done].
    + cbn [fst snd option_list]. rewrite app_nil_r.
      destruct pending as [| p [| p' pending]]; [| | done].
      * unfold ads_timer_inv in *. cbn [fst snd] in *. by rewrite Hid1, Hrun1, Hint1.
      * by rewrite Hrun1, Hid1.
  - (* the model load settles *)
    destruct (pending !! k) as [[|] |] eqn:Hk; [| done..].
    destruct pending as [| p [| p' pending]]; [done | | done].
    destruct k as [| k]; [| done]. cbn.
    unfold initializeModel_settle. by destruct loads.
  - (* the probe settles *)
    destruct (pending !! k) as [[|] |] eqn:Hk; [done | | done].
    destruct pending as [| p [| p' pending]]; [done | | done].
    destruct k as [| k]; [| done].
    destruct Hinv as (Hrun & Hid & Hactive).
    unfold ads_timer_inv.
    destruct probe as [msg | response]; cbn.
    + by rewrite Hid.
    + by rewrite Hrun, Hactive, insert_empty.
  - (* a call with nothing in between *)
    destruct pending as [| p [| p' pending]]; [| | done].
    + pose proof (ads_apply_op_inv op (s, timers) Hinv) as Hop.
      by destruct (apply_op op (s, timers)) as [s' timers'].
    + destruct Hinv as (Hrun & Hid & Hactive).
      destruct op as [env | | env settings | callback | callback]; cbn [apply_op].
      * unfold startDetection. by rewrite Hrun.
      * by specialize (Hstops eq_refl).
      * cbn [stops] in Hstops. unfold updateSettings.
        destruct (truthy_number (set_detectionInterval settings)) as [ms |] eqn:Hms.
        { rewrite bool_decide_eq_true_2 in Hstops by by eexists.
          by specialize (Hstops eq_refl). }
        by destruct (truthy_string _).
      * done.
      * done.
Qed.

End ADS_async.

(** X20.  The timer bookkeeping of AnimalDetectionService while calls
    overlap (startDetection waits for the model load and the camera
    probe, updateSettings does not wait for the start it makes).  In
    every schedule of calls and settlings, with any camera behaviour, in
    which stopDetection and updateSettings with a detectionInterval are
    only called while no start is pending: at most one interval timer is
    active, it is the one recorded in intervalId, its period is the
    detectionInterval that getStatus reports, when getStatus reports the
    service as not running no timer is active, and at most one start is
    pending at a time. *)
Theorem ads_timer_follows_settings (events : list AnimalDetectionService.AsyncOp)
    (st : AnimalDetectionService.Service * Timers * list AnimalDetectionService.Phase) :
  ads_async_inv st →
  calls_wait events st →
  let st' := AnimalDetectionService.run_async events st in
  let status := AnimalDetectionService.getStatus st'.1.1 in
  ads_async_inv st'
  ∧ (AnimalDetectionService.status_isRunning status = false → active st'.1.2 = ∅)
  ∧ (∀ h period, active st'.1.2 !! h = Some period →
       AnimalDetectionService.intervalId st'.1.1 = Some h
       ∧ period = AnimalDetectionService.status_detectionInterval status)
  ∧ (length st'.2 ≤ 1)%nat.
Proof.
  intros Hinv Hwait st' status.
  assert (Hinv' : ads_async_inv st').
  { subst st' status. unfold AnimalDetectionService.run_async.
    revert st Hinv Hwait. induction events as [| e events IH]; intros st Hinv Hwait;
      [done |].
    cbn [foldl]. destruct Hwait as [Hstops Hwait].
    apply IH; [by apply ads_step_async_inv | done]. }
  split; [done |]. subst status.
  unfold ads_async_inv, ads_timer_inv in Hinv'.
  cbn [AnimalDetectionService.getStatus AnimalDetectionService.status_isRunning
       AnimalDetectionService.status_detectionInterval].
  destruct st'.2 as [| p [| p' pending]]; [| | done].
  - destruct (AnimalDetectionService.intervalId st'.1.1) as [h0 |].
    + destruct Hinv' as [Hrun Hactive]. split; [congruence |]. split; [| cbn; lia].
      intros h period. rewrite Hactive. intros [<- <-]%lookup_singleton_Some. done.
    + split; [done |]. split; [| cbn; lia]. intros h period. by rewrite Hinv'.
  - destruct Hinv' as (Hrun & Hid & Hactive).
    split; [done |]. split; [| cbn; lia]. intros h period. by rewrite Hactive.
Qed.

Lemma ads_timer_follows_settings_witness :
  ads_async_inv
    (AnimalDetectionService.run_async
       [AnimalDetectionService.CallStart;
        AnimalDetectionService.CallUpdateSettings
          {| set_cameraUrl := Some "http://10.0.0.9:8080"%string;
             set_detectionInterval := None |};
        AnimalDetectionService.ModelSettles 0 true;
        AnimalDetectionService.ProbeSettles 0 camera_answers;
        AnimalDetectionService.CallUpdateSettings
          {| set_cameraUrl := None; set_detectionInterval := Some 5000%Z |};
        AnimalDetectionService.CallStart;
        AnimalDetectionService.ProbeSettles 0 camera_answers;
        AnimalDetectionService.Atomic AnimalDetectionService.OpStop;
        AnimalDetectionService.Atomic
          (AnimalDetectionService.OpStart unreachable_camera)]
       (AnimalDetectionService.new, no_timers, [])).
Proof.
  refine (proj1 (ads_timer_follows_settings _
                   (AnimalDetectionService.new, no_timers, []) _ _)).
  - reflexivity.
  - cbn -[AnimalDetectionService.step_async]. repeat split; try discriminate;
      intros _; vm_compute; reflexivity.
Defined.

(** ** The error middleware *)

(** X21.  What errorHandler answers when the headers are not yet sent:
    the status is never 0 (a missing or zero statusCode falls back to
    status, then to 500), the error text and the code are never empty,
    the details are the error's own, and for a status of 500 or more the
    message of an error that is not marked expose is replaced by
    "Internal server error". *)
Theorem errorHandler_answer (err : Middleware.Err) (statusCode : Z)
    (body : Middleware.Body) :
  Middleware.errorHandler err false = Middleware.Answered statusCode body →
  statusCode ≠ 0%Z
  ∧ Middleware.body_error body ≠ EmptyString
  ∧ Middleware.body_code body ≠ EmptyString
  ∧ Middleware.body_details body = Middleware.err_details err
  ∧ (Middleware.err_expose err = false → (500 <= statusCode)%Z →
       Middleware.body_error body = "Internal server error"%string).
Proof.
  unfold Middleware.errorHandler. intros [= <- <-].
  cbn [Middleware.body_error Middleware.body_code Middleware.body_details].
  assert (Htruthy : ∀ v c, truthy_number v = Some c → c ≠ 0%Z).
  { intros [v |] c; unfold truthy_number; [| done].
    case_match; [done |]. by intros [= <-]. }
  assert (Hstring : ∀ v c, truthy_string v = Some c → c ≠ EmptyString).
  { intros [v |] c; unfold truthy_string; [| done].
    case_match; [done |]. by intros [= <-]. }
  assert (Hor : ∀ a, Middleware.or_string a "Request failed" ≠ EmptyString).
  { intros a. unfold Middleware.or_string. by case_match. }
  split; [| split; [| split; [| split]]].
  - destruct (truthy_number (Middleware.err_statusCode err)) eqn:H1; [by eapply Htruthy |].
    destruct (truthy_number (Middleware.err_status err)) eqn:H2; [by eapply Htruthy |].
    done.
  - destruct (Middleware.err_expose err); [apply Hor |].
    case_match; [done | apply Hor].
  - destruct (truthy_string (Middleware.err_code err)) eqn:H1; [by eapply Hstring |].
    by case_match.
  - done.
  - intros -> Hge. apply Z.leb_le in Hge. by rewrite Hge.
Qed.

Lemma errorHandler_answer_witness :
  Middleware.errorHandler internal_failure false
  = Middleware.Answered 500
      {| Middleware.body_error := "Internal server error";
         Middleware.body_code := "INTERNAL_ERROR";
         Middleware.body_details := None |}
  ∧ (500 ≠ 0)%Z.
Proof.
  split; [reflexivity |].
  apply (errorHandler_answer internal_failure 500
           {| Middleware.body_error := "Internal server error";
              Middleware.body_code := "INTERNAL_ERROR";
              Middleware.body_details := None |}).
  reflexivity.
Defined.

(** X22.  An unmatched route ends as a 404: the error notFound hands on
    is answered by errorHandler with status 404, the text "Route not
    found" (not masked), the code "NOT_FOUND", and the requested path and
    method as details. *)
Theorem notFound_is_answered_404 (req : Middleware.Request) :
  Middleware.errorHandler (Middleware.notFound req) false
  = Middleware.Answered 404
      {| Middleware.body_error := "Route not found";
         Middleware.body_code := "NOT_FOUND";
         Middleware.body_details :=
           Some {| Middleware.details_path := Middleware.originalUrl req;
                   Middleware.details_method := Middleware.method req |} |}.
Proof.
  reflexivity.
Qed.


(** ** The detection routes *)

(** X23.  PUT /settings with a new detectionInterval on the running
    SimpleRealDetection answers success and stores the interval, but the
    timer runtime is left untouched: the running timer keeps its old
    period.  The new interval takes effect with POST /stop followed by
    POST /start (camera reachable): afterwards the one active timer has
    the new period. *)
Theorem put_settings_needs_restart (body : Settings) (http : Http)
    (st : SimpleRealDetection.Service * Timers) (ms : Z) (response : Response) :
  simple_timer_inv st →
  SimpleRealDetection.isRunning st.1 = true →
  truthy_number (set_detectionInterval body) = Some ms →
  http (SimpleRealDetection.cameraUrl (DetectionRoutes.put_settings body st).1.1)
  = inr response →
  let updated := DetectionRoutes.put_settings body st in
  let restarted :=
    DetectionRoutes.post_start None http (DetectionRoutes.post_stop updated.1).1 in
  success updated.2 = true
  ∧ updated.1.2 = st.2
  ∧ SimpleRealDetection.intervalId updated.1.1 = SimpleRealDetection.intervalId st.1
  ∧ SimpleRealDetection.detectionInterval updated.1.1 = ms
  ∧ success restarted.2 = true
  ∧ ∃ h, SimpleRealDetection.intervalId restarted.1.1 = Some h
         ∧ active restarted.1.2 = {[h := ms]}.
Proof.
  destruct st as [s timers]. unfold simple_timer_inv. cbn [fst snd].
  intros Hinv Hrun Hms. unfold DetectionRoutes.put_settings. cbn [fst snd].
  unfold SimpleRealDetection.updateSettings. rewrite Hms.
  set (s1 := match truthy_string (set_cameraUrl body) with
             | Some u => SimpleRealDetection.with_cameraUrl u s
             | None => s
             end).
  assert (Hsame : SimpleRealDetection.isRunning s1 = SimpleRealDetection.isRunning s
                  ∧ SimpleRealDetection.intervalId s1 = SimpleRealDetection.intervalId s).
  { subst s1. by destruct (truthy_string _). }
  destruct Hsame as [Hrun1 Hid1]. clearbody s1. intros Hprobe. cbn zeta.
  split; [done |]. split; [done |]. split; [done |]. split; [done |].
  destruct (SimpleRealDetection.intervalId s) as [h |] eqn:Hid;
    [| destruct Hinv; congruence].
  destruct Hinv as [_ [period Hactive]].
  unfold DetectionRoutes.post_stop, DetectionRoutes.post_start,
    SimpleRealDetection.stopDetection.
  cbn [SimpleRealDetection.isRunning SimpleRealDetection.with_detectionInterval].
  rewrite Hrun1, Hrun. cbn [negb].
  cbn [SimpleRealDetection.intervalId SimpleRealDetection.with_isRunning
       SimpleRealDetection.with_detectionInterval].
  rewrite Hid1. cbn [fst snd truthy_string].
  unfold SimpleRealDetection.startDetection.
  cbn [SimpleRealDetection.isRunning SimpleRealDetection.with_isRunning
       SimpleRealDetection.with_intervalId SimpleRealDetection.cameraUrl
       SimpleRealDetection.with_detectionInterval] in Hprobe |- *.
  rewrite Hprobe. cbn. split; [done |].
  eexists. split; [reflexivity |].
  by rewrite Hactive, delete_singleton_eq, insert_empty.
Qed.

Lemma put_settings_needs_restart_witness :
  ∃ h, active (DetectionRoutes.post_start None steady_camera
         (DetectionRoutes.post_stop
            (DetectionRoutes.put_settings
               {| set_cameraUrl := None; set_detectionInterval := Some 1000%Z |}
               (SimpleRealDetection.startDetection steady_camera
                  (SimpleRealDetection.new, no_timers)).1).1).1).1.2
       = {[h := 1000%Z]}.
Proof.
  destruct (put_settings_needs_restart
              {| set_cameraUrl := None; set_detectionInterval := Some 1000%Z |}
              steady_camera
              (SimpleRealDetection.startDetection steady_camera
                 (SimpleRealDetection.new, no_timers)).1
              1000 {| status := 200; data := replicate 1000 0%Z |})
    as (_ & _ & _ & _ & _ & h & _ & Hactive).
  - split; [reflexivity |]. by exists 3000%Z.
  - reflexivity.
  - reflexivity.
  - reflexivity.
  - by exists h.
Defined.
